(** * GameTrc front end (src/main.js): a shallow embedding and its properties

    The development follows the layout of [main.js]:
    - [Js]: the ECMAScript built-ins the script calls ([trim], [startsWith],
      [parseFloat], [parseInt], number-to-string conversion), then property
      lookup on an object literal and the helpers built on it;
    - the data that crosses the IPC bridge ([Game], [Input], [Filter], [Stats]);
    - the [state] object and the part of the page the handlers read back;
    - the handlers themselves, written in a small monad: a handler transforms
      a [World] (application state, page, backend) and emits the effects a
      user or the backend observes (calls, console entries, toasts);
    - the listeners of the top bar, the sidebar, the detail panel and the
      delete dialog, over a [Ui] that adds the rest of the document ([Shell])
      to the [World], and [init];
    - the repository operations the script only calls (Rust side), modelled
      from the specification where a property depends on them;
    - the properties, each after the lemmas it rests on.

    Strings are sequences of code units in the Latin-1 range (Rocq [string]).
    Promises are run to completion one handler at a time; at boot, where two
    loads are in flight together, both orders of resumption are modelled. *)

From Stdlib Require Import ZArith NArith String Ascii List Bool Lia.
From stdpp Require Import base option list gmap strings pretty.

Open Scope string_scope.

(* ===================================================================== *)
(** ** ECMAScript built-ins used by the script *)
(* ===================================================================== *)

Module Js.

(** WhiteSpace and LineTerminator code points below 256:
    TAB, LF, VT, FF, CR, SP and NBSP. *)
Definition is_space (c : ascii) : bool :=
  let n := nat_of_ascii c in
  Nat.eqb n 9 || Nat.eqb n 10 || Nat.eqb n 11 || Nat.eqb n 12
  || Nat.eqb n 13 || Nat.eqb n 32 || Nat.eqb n 160.

Fixpoint trimStart (s : string) : string :=
  match s with
  | String c s' => if is_space c then trimStart s' else s
  | EmptyString => EmptyString
  end.

Fixpoint trimEnd (s : string) : string :=
  match s with
  | EmptyString => EmptyString
  | String c s' =>
      match trimEnd s' with
      | EmptyString => if is_space c then EmptyString else String c EmptyString
      | t => String c t
      end
  end.

(** [String.prototype.trim] *)
Definition trim (s : string) : string := trimEnd (trimStart s).

(** [s.startsWith(p)] *)
Fixpoint startsWith (s p : string) : bool :=
  match p with
  | EmptyString => true
  | String b p' =>
      match s with
      | String a s' => Ascii.eqb a b && startsWith s' p'
      | EmptyString => false
      end
  end.

(** Truthiness of a string: only the empty string is falsy. *)
Definition truthy (s : string) : bool :=
  match s with EmptyString => false | String _ _ => true end.

(** [s || null] for a string [s]. *)
Definition or_null (s : string) : option string :=
  if truthy s then Some s else None.

(** [o || ""] for a string-or-null [o]. *)
Definition or_empty (o : option string) : string :=
  match o with Some s => s | None => "" end.

(** Numbers. A finite value is kept as the decimal [(-1)^neg * m * 10^e] read
    from its literal. Of the rounding to binary64 the model keeps what
    decides whether a number is finite or zero ([binary64] below); the
    rounding of the digits of a number in range is not modelled. *)
Inductive Number : Type :=
| NaN
| Infinity (neg : bool)
| Dec (neg : bool) (m : N) (e : Z).

Definition zero : Number := Dec false 0 0.

(** The largest binary64 is [2^1024 - 2^971]; a decimal at or above the
    midpoint between it and [2^1024] rounds to an infinity. *)
Definition overflow_bound : N := (2 ^ 1024 - 2 ^ 970)%N.

(** [m * 10^e] is at or above [overflow_bound]. *)
Definition overflows (m : N) (e : Z) : bool :=
  if (0 <=? e)%Z then (overflow_bound <=? m * 10 ^ Z.to_N e)%N
  else (overflow_bound * 10 ^ Z.to_N (- e) <=? m)%N.

(** [m * 10^e] is at most [2^-1075], half the least positive binary64: it
    rounds to zero. *)
Definition underflows (m : N) (e : Z) : bool :=
  if (0 <=? e)%Z then N.eqb m 0
  else (m * 2 ^ 1075 <=? 10 ^ Z.to_N (- e))%N.

(** The number a decimal literal denotes. *)
Definition binary64 (neg : bool) (m : N) (e : Z) : Number :=
  if overflows m e then Infinity neg
  else if underflows m e then Dec neg 0 0
  else Dec neg m e.

(** The value of a finite number in units of [10^lo], for [lo] at most [e]. *)
Definition scaled (neg : bool) (m : N) (e lo : Z) : Z :=
  ((if neg then -1 else 1) * Z.of_N m * 10 ^ (e - lo))%Z.

(** [x <= y] *)
Definition le (x y : Number) : bool :=
  match x, y with
  | NaN, _ => false
  | _, NaN => false
  | Infinity true, _ => true
  | _, Infinity false => true
  | Dec a m e, Dec b m' e' =>
      let lo := Z.min e e' in
      (scaled a m e lo <=? scaled b m' e' lo)%Z
  | _, _ => false
  end.

(** Truthiness of a number: [0], [-0] and [NaN] are falsy. *)
Definition truthy_number (x : Number) : bool :=
  match x with
  | NaN => false
  | Infinity _ => true
  | Dec _ m _ => negb (N.eqb m 0)
  end.

Definition digit_of (c : ascii) : option N :=
  let n := N_of_ascii c in
  if (48 <=? n)%N && (n <=? 57)%N then Some (n - 48)%N else None.

Definition hex_digit_of (c : ascii) : option N :=
  let n := N_of_ascii c in
  if (48 <=? n)%N && (n <=? 57)%N then Some (n - 48)%N
  else if (97 <=? n)%N && (n <=? 102)%N then Some (n - 87)%N
  else if (65 <=? n)%N && (n <=? 70)%N then Some (n - 55)%N
  else None.

(** Longest prefix of digits in radix [r]: accumulated value, number of
    digits consumed, remaining text. *)
Fixpoint take_digits (dig : ascii -> option N) (r : N) (s : string)
    (acc : N) (cnt : nat) : N * nat * string :=
  match s with
  | String c s' =>
      match dig c with
      | Some d => take_digits dig r s' (r * acc + d)%N (S cnt)
      | None => (acc, cnt, s)
      end
  | EmptyString => (acc, cnt, s)
  end.

(** Leading sign of a literal. *)
Definition take_sign (s : string) : bool * string :=
  match s with
  | String c s' =>
      if Ascii.eqb c "-" then (true, s')
      else if Ascii.eqb c "+" then (false, s')
      else (false, s)
  | EmptyString => (false, s)
  end.

(** ExponentPart, if one is present at the head of [s]. *)
Definition take_exponent (s : string) : Z :=
  match s with
  | String c s' =>
      if Ascii.eqb c "e" || Ascii.eqb c "E" then
        let '(neg, s'') := take_sign s' in
        let '(v, n, _) := take_digits digit_of 10 s'' 0%N 0 in
        match n with
        | O => 0%Z
        | S _ => if neg then (- Z.of_N v)%Z else Z.of_N v
        end
      else 0%Z
  | EmptyString => 0%Z
  end.

(** The decimal [m * 10^e] written at the head of [u]: digits, an optional
    fraction, an optional exponent; at least one digit is needed. *)
Definition decimal_literal (u : string) : option (N * Z) :=
  let '(ip, ni, r1) := take_digits digit_of 10 u 0%N 0 in
  let '(m, nf, r2) :=
    match r1 with
    | String c r1' =>
        if Ascii.eqb c "." then take_digits digit_of 10 r1' ip 0
        else (ip, 0, r1)
    | EmptyString => (ip, 0, r1)
    end in
  match ni + nf with
  | O => None
  | S _ => Some (m, (take_exponent r2 - Z.of_nat nf)%Z)
  end.

(** The unsigned part of a StrDecimalLiteral at the head of [u]. *)
Definition parse_unsigned (neg : bool) (u : string) : Number :=
  if startsWith u "Infinity" then Infinity neg
  else
    match decimal_literal u with
    | Some (m, e) => binary64 neg m e
    | None => NaN
    end.

(** [parseFloat]: the longest prefix of the left-trimmed text that is a
    StrDecimalLiteral, [NaN] when there is none. *)
Definition parseFloat (s : string) : Number :=
  let '(neg, u) := take_sign (trimStart s) in
  parse_unsigned neg u.

(** The signed decimal a text starts with, after leading white space;
    [None] when it starts with no numeral. *)
Definition literal (s : string) : option (bool * N * Z) :=
  let '(neg, u) := take_sign (trimStart s) in
  match decimal_literal u with
  | Some (m, e) => Some (neg, m, e)
  | None => None
  end.

(** [parseInt] with no radix argument: radix 16 after a [0x]/[0X] prefix,
    radix 10 otherwise. *)
Definition parseInt (s : string) : Number :=
  let '(neg, u) := take_sign (trimStart s) in
  let '(v, n, _) :=
    match u with
    | String c0 (String c r) =>
        if Ascii.eqb c0 "0" && (Ascii.eqb c "x" || Ascii.eqb c "X")
        then take_digits hex_digit_of 16 r 0%N 0
        else take_digits digit_of 10 u 0%N 0
    | _ => take_digits digit_of 10 u 0%N 0
    end in
  match n with
  | O => NaN
  | S _ => binary64 neg v 0
  end.

(** What [JSON.stringify] makes of a number: [NaN] and the infinities
    become [null]. *)
Definition json_number (x : Number) : option Number :=
  match x with
  | Dec _ _ _ => Some x
  | _ => None
  end.

Fixpoint zeros (n : nat) : string :=
  match n with O => "" | S n' => String "0" (zeros n') end.

(** Drops the trailing zeros of a digit string. *)
Fixpoint drop_trailing_zeros (s : string) : string :=
  match s with
  | EmptyString => EmptyString
  | String c s' =>
      match drop_trailing_zeros s' with
      | EmptyString => if Ascii.eqb c "0" then EmptyString else String c EmptyString
      | t => String c t
      end
  end.

(** [Number::toString] in radix 10, on the decimal digits of the value. *)
Definition number_to_string (x : Number) : string :=
  match x with
  | NaN => "NaN"
  | Infinity neg => if neg then "-Infinity" else "Infinity"
  | Dec neg m e =>
      if N.eqb m 0 then "0"
      else
        let all := pretty m in
        let ds := drop_trailing_zeros all in
        let k := String.length ds in
        let n := (Z.of_nat (String.length all) + e)%Z in
        let body :=
          if (Z.of_nat k <=? n)%Z && (n <=? 21)%Z then
            ds ++ zeros (Z.to_nat n - k)
          else if (0 <? n)%Z && (n <=? 21)%Z then
            substring 0 (Z.to_nat n) ds ++ "." ++ substring (Z.to_nat n) (k - Z.to_nat n) ds
          else if (-6 <? n)%Z && (n <=? 0)%Z then
            "0." ++ zeros (Z.to_nat (- n)) ++ ds
          else
            let ex := (n - 1)%Z in
            let es := (if (ex <? 0)%Z then "-" else "+") ++ pretty (Z.abs_N ex) in
            if Nat.eqb k 1 then ds ++ "e" ++ es
            else substring 0 1 ds ++ "." ++ substring 1 (k - 1) ds ++ "e" ++ es in
        (if neg then "-" else "") ++ body
  end.

End Js.

(* ===================================================================== *)
(** ** Property lookup on an object literal *)
(* ===================================================================== *)

(** What [obj[key] ?? fallback] can evaluate to when the own properties of
    the literal [obj] are strings: a string, or a member that every object
    inherits from [Object.prototype] (a function or an object, never nullish). *)
Inductive Value : Type :=
| VString (s : string)
| VInherited (name : string).

Definition object_prototype_names : list string :=
  [ "constructor"; "hasOwnProperty"; "isPrototypeOf"; "propertyIsEnumerable";
    "toLocaleString"; "toString"; "valueOf"; "__proto__";
    "__defineGetter__"; "__defineSetter__"; "__lookupGetter__"; "__lookupSetter__" ].

Fixpoint own_property (obj : list (string * string)) (key : string) : option string :=
  match obj with
  | [] => None
  | (k, v) :: rest => if String.eqb k key then Some v else own_property rest key
  end.

(** [obj[key]]: [None] is [undefined]. *)
Definition get_property (obj : list (string * string)) (key : string) : option Value :=
  match own_property obj key with
  | Some v => Some (VString v)
  | None =>
      if bool_decide (key ∈ object_prototype_names)
      then Some (VInherited key) else None
  end.

(** [x ?? d] *)
Definition nullish {A : Type} (x : option A) (d : A) : A :=
  match x with Some v => v | None => d end.

(* ===================================================================== *)
(** ** Helpers (main.js, "Helpers") *)
(* ===================================================================== *)

(** The six values of the status enumeration, as they travel in JSON. *)
Definition statuses : list string :=
  [ "NotStarted"; "Playing"; "Completed"; "Dropped"; "Backlog"; "Wishlist" ].

Definition statusClass_table : list (string * string) :=
  [ ("Playing", "status--playing"); ("Completed", "status--completed");
    ("Dropped", "status--dropped"); ("Backlog", "status--backlog");
    ("Wishlist", "status--wishlist"); ("NotStarted", "status--notstarted") ].

Definition statusLabel_table : list (string * string) :=
  [ ("NotStarted", "Not Started"); ("Playing", "Playing");
    ("Completed", "Completed"); ("Dropped", "Dropped");
    ("Backlog", "Backlog"); ("Wishlist", "Wishlist") ].

Definition statusClass (status : string) : Value :=
  nullish (get_property statusClass_table status) (VString "status--notstarted").

Definition statusLabel (status : string) : Value :=
  nullish (get_property statusLabel_table status) (VString status).

(** A remote URL, as [resolveCover] and [openModal] test it. *)
Definition is_remote (path : string) : bool :=
  Js.startsWith path "http://" || Js.startsWith path "https://".

Section Cover.

(** [window.__TAURI__.core.convertFileSrc], supplied by the host. *)
Variable convertFileSrc : string -> string.

(** [path] is a string, or [None] for null/undefined. *)
Definition resolveCover (path : option string) : option string :=
  match path with
  | None => None
  | Some p =>
      if negb (Js.truthy p) then None
      else if is_remote p then Some p
      else Some (convertFileSrc p)
  end.

End Cover.

(* ===================================================================== *)
(** ** Data crossing the IPC bridge *)
(* ===================================================================== *)

(** A promise settled: resolved with a value or rejected with an error. *)
Inductive Result (A : Type) : Type :=
| Ok (a : A)
| Err (e : string).
Arguments Ok {A} a.
Arguments Err {A} e.

Module Game.
Record t : Type := mk {
  id : Z;
  title : string;
  franchise : option string;
  sequence_in_franchise : option Js.Number;
  platform : string;
  release_date : option string;
  developer : option string;
  publisher : option string;
  status : string;
  progress_percent : option Js.Number;
  playtime_hours : option Js.Number;
  rating : option Js.Number;
  notes : option string;
  cover_art_path : option string;
  screenshots : list string;
  genres : list string;
  created_at : string;
  updated_at : string;
}.
End Game.

(** [game.cover_art_path ? resolveCover(game.cover_art_path) : null]: the
    source of the cover image on a card and in the detail panel, [None]
    where the placeholder is shown instead. *)
Definition coverSrc (convertFileSrc : string -> string) (game : Game.t) : option string :=
  match Game.cover_art_path game with
  | Some p => if Js.truthy p then resolveCover convertFileSrc (Some p) else None
  | None => None
  end.

(** The [input] object built by the form's submit handler. *)
Module Input.
Record t : Type := mk {
  title : string;
  franchise : option string;
  sequence_in_franchise : option Js.Number;
  release_date : option string;
  platform : string;
  status : string;
  progress_percent : option Js.Number;
  playtime_hours : option Js.Number;
  rating : option Js.Number;
  notes : option string;
  cover_art_path : option string;
  screenshots : list string;
  developer : option string;
  publisher : option string;
  genres : list string;
}.

(** [input.cover_art_path = p] *)
Definition set_cover_art_path (p : option string) (i : t) : t :=
  mk (title i) (franchise i) (sequence_in_franchise i) (release_date i)
     (platform i) (status i) (progress_percent i) (playtime_hours i)
     (rating i) (notes i) p (screenshots i) (developer i) (publisher i)
     (genres i).

(** The input as [invoke] serialises it: JSON has no [NaN] and no
    infinity, a number that is one travels as [null]. *)
Definition wire (i : t) : t :=
  mk (title i) (franchise i) (sequence_in_franchise i ≫= Js.json_number)
     (release_date i) (platform i) (status i)
     (progress_percent i ≫= Js.json_number)
     (playtime_hours i ≫= Js.json_number)
     (rating i ≫= Js.json_number) (notes i) (cover_art_path i)
     (screenshots i) (developer i) (publisher i) (genres i).
End Input.

(** The [filter] argument of [search_games]. *)
Module Filter.
Record t : Type := mk {
  query : option string;
  status : option string;
  platform : option string;
  franchise : option string;
  genre : option string;
  sort_by : string;
  sort_asc : bool;
}.
End Filter.

(** The object [get_stats] resolves to. [by_status] is a JSON object. *)
Module Stats.
Record t : Type := mk {
  total_games : nat;
  total_playtime_hours : Js.Number;
  average_rating : option Js.Number;
  completion_rate : Js.Number;
  by_status : gmap string nat;
  games_by_platform : list (string * nat);
  games_by_genre : list (string * nat);
  games_by_franchise : list (string * nat);
  recent_completions : list string;
}.
End Stats.

(** The commands the script invokes, indexed by what they resolve to. *)
Inductive Command : Type -> Type :=
| SearchGames (filter : Filter.t) : Command (list Game.t)
| GetPlatforms : Command (list string)
| GetFranchises : Command (list string)
| GetGenres : Command (list string)
| GetStats : Command Stats.t
| ProcessCoverImage (input : string) : Command string
| AddGame (input : Input.t) : Command Game.t
| UpdateGame (id : Z) (input : Input.t) : Command Game.t
| DeleteGame (id : Z) : Command unit.

(** Effects a user or the backend can observe. *)
Inductive Event : Type :=
| EInvoke {A : Type} (c : Command A)
| EConsoleError (msg detail : string)
| EToast (msg kind : string).

(** The filter of a [search_games] call. *)
Definition search_filter (e : Event) : option Filter.t :=
  match e with
  | EInvoke c =>
      match c with
      | SearchGames f => Some f
      | _ => None
      end
  | _ => None
  end.

(** The target id ([None] for [add_game]) and input of a save call. *)
Definition saved_input (e : Event) : option (option Z * Input.t) :=
  match e with
  | EInvoke c =>
      match c with
      | AddGame i => Some (None, i)
      | UpdateGame id i => Some (Some id, i)
      | _ => None
      end
  | _ => None
  end.

(* ===================================================================== *)
(** ** State (main.js, "State") and the page *)
(* ===================================================================== *)

Module CurrentFilter.
Record t : Type := mk {
  query : string;
  status : string;
  platform : string;
  franchise : string;
  genre : string;
  sortBy : string;
  sortAsc : bool;
}.
End CurrentFilter.

(** The [state] object. An id is a number or [null]. *)
Record State : Type := mkState {
  games : list Game.t;
  allPlatforms : list string;
  allFranchises : list string;
  allGenres : list string;
  currentFilter : CurrentFilter.t;
  activeView : string;
  selectedGameId : option Z;
  editingGameId : option Z;
  pendingDeleteId : option Z;
  formGenres : list string;
  formRating : option Js.Number;
  isListView : bool;
}.

Definition set_games (gs : list Game.t) (s : State) : State :=
  mkState gs (allPlatforms s) (allFranchises s) (allGenres s) (currentFilter s)
    (activeView s) (selectedGameId s) (editingGameId s) (pendingDeleteId s)
    (formGenres s) (formRating s) (isListView s).

Definition set_meta (ps fs gs : list string) (s : State) : State :=
  mkState (games s) ps fs gs (currentFilter s)
    (activeView s) (selectedGameId s) (editingGameId s) (pendingDeleteId s)
    (formGenres s) (formRating s) (isListView s).

Definition set_editingGameId (id : option Z) (s : State) : State :=
  mkState (games s) (allPlatforms s) (allFranchises s) (allGenres s)
    (currentFilter s) (activeView s) (selectedGameId s) id (pendingDeleteId s)
    (formGenres s) (formRating s) (isListView s).

Definition set_formGenres (gs : list string) (s : State) : State :=
  mkState (games s) (allPlatforms s) (allFranchises s) (allGenres s)
    (currentFilter s) (activeView s) (selectedGameId s) (editingGameId s)
    (pendingDeleteId s) gs (formRating s) (isListView s).

Definition set_formRating (r : option Js.Number) (s : State) : State :=
  mkState (games s) (allPlatforms s) (allFranchises s) (allGenres s)
    (currentFilter s) (activeView s) (selectedGameId s) (editingGameId s)
    (pendingDeleteId s) (formGenres s) r (isListView s).

(** A [.status-opt] button of the status picker: its [data-val] attribute
    (absent: [None]) and whether it carries the class [active]. *)
Module StatusOpt.
Record t : Type := mk { val : option string; active : bool }.
End StatusOpt.

(** Values of the controls of [#gameForm] that the submit handler reads. *)
Record FormFields : Type := mkForm {
  f_title : string;
  f_franchise : string;
  f_sequence : string;
  f_platform : string;
  f_release_date : string;
  f_developer : string;
  f_publisher : string;
  f_progress : string;
  f_playtime : string;
  f_notes : string;
  f_cover_art_path : string;
}.

(** A rendered card: the layout chosen and the game it was rendered from. *)
Record Card : Type := mkCard { card_list : bool; card_game : Game.t }.

(** Content of [#statsGrid]: the "By Status" card is kept as its six
    (label, text) rows together with the total; the remaining cards only
    format numbers and lists. *)
Inductive StatsGrid : Type :=
| StatsLoading
| StatsError
| StatsCards (total_games : nat) (breakdown : list (string * string)).

(** The part of the document the handlers write and read back.
    [form_defaults] are the values the markup gives the controls, restored
    by [form.reset()]. *)
Record Page : Type := mkPage {
  form : FormFields;
  form_defaults : FormFields;
  statusPicker : list StatusOpt.t;
  genreInput : string;
  coverUrlInput : string;
  genreTags : list string;
  modalOpen : bool;
  gameCount : string;
  gameGrid : list Card;
  gridListView : bool;
  emptyHidden : bool;
  statsGrid : StatsGrid;
}.

Definition set_form (x : FormFields) (p : Page) : Page :=
  mkPage x (form_defaults p) (statusPicker p) (genreInput p) (coverUrlInput p)
    (genreTags p) (modalOpen p) (gameCount p) (gameGrid p) (gridListView p)
    (emptyHidden p) (statsGrid p).

Definition set_statusPicker (x : list StatusOpt.t) (p : Page) : Page :=
  mkPage (form p) (form_defaults p) x (genreInput p) (coverUrlInput p)
    (genreTags p) (modalOpen p) (gameCount p) (gameGrid p) (gridListView p)
    (emptyHidden p) (statsGrid p).

Definition set_genreInput (x : string) (p : Page) : Page :=
  mkPage (form p) (form_defaults p) (statusPicker p) x (coverUrlInput p)
    (genreTags p) (modalOpen p) (gameCount p) (gameGrid p) (gridListView p)
    (emptyHidden p) (statsGrid p).

Definition set_coverUrlInput (x : string) (p : Page) : Page :=
  mkPage (form p) (form_defaults p) (statusPicker p) (genreInput p) x
    (genreTags p) (modalOpen p) (gameCount p) (gameGrid p) (gridListView p)
    (emptyHidden p) (statsGrid p).

Definition set_genreTags (x : list string) (p : Page) : Page :=
  mkPage (form p) (form_defaults p) (statusPicker p) (genreInput p)
    (coverUrlInput p) x (modalOpen p) (gameCount p) (gameGrid p)
    (gridListView p) (emptyHidden p) (statsGrid p).

Definition set_modalOpen (x : bool) (p : Page) : Page :=
  mkPage (form p) (form_defaults p) (statusPicker p) (genreInput p)
    (coverUrlInput p) (genreTags p) x (gameCount p) (gameGrid p)
    (gridListView p) (emptyHidden p) (statsGrid p).

Definition set_gameCount (x : string) (p : Page) : Page :=
  mkPage (form p) (form_defaults p) (statusPicker p) (genreInput p)
    (coverUrlInput p) (genreTags p) (modalOpen p) x (gameGrid p)
    (gridListView p) (emptyHidden p) (statsGrid p).

Definition set_gameGrid (x : list Card) (p : Page) : Page :=
  mkPage (form p) (form_defaults p) (statusPicker p) (genreInput p)
    (coverUrlInput p) (genreTags p) (modalOpen p) (gameCount p) x
    (gridListView p) (emptyHidden p) (statsGrid p).

Definition set_gridListView (x : bool) (p : Page) : Page :=
  mkPage (form p) (form_defaults p) (statusPicker p) (genreInput p)
    (coverUrlInput p) (genreTags p) (modalOpen p) (gameCount p) (gameGrid p)
    x (emptyHidden p) (statsGrid p).

Definition set_emptyHidden (x : bool) (p : Page) : Page :=
  mkPage (form p) (form_defaults p) (statusPicker p) (genreInput p)
    (coverUrlInput p) (genreTags p) (modalOpen p) (gameCount p) (gameGrid p)
    (gridListView p) x (statsGrid p).

Definition set_statsGrid (x : StatsGrid) (p : Page) : Page :=
  mkPage (form p) (form_defaults p) (statusPicker p) (genreInput p)
    (coverUrlInput p) (genreTags p) (modalOpen p) (gameCount p) (gameGrid p)
    (gridListView p) (emptyHidden p) x.

(** Truthiness of an id: [null], [0] are falsy. *)
Definition truthy_id (id : option Z) : option Z :=
  match id with
  | Some n => if Z.eqb n 0 then None else Some n
  | None => None
  end.

(* ===================================================================== *)
(** ** Handlers *)
(* ===================================================================== *)

(** The Rust side: any state type with a transition per command. *)
Definition Backend (B : Type) : Type :=
  forall A : Type, Command A -> B -> Result A * B.

Section Handlers.

Context {B : Type}.
Variable serve : Backend B.

Record World : Type := mkWorld { app : State; page : Page; backend : B }.

(** A handler transforms the world, returns a value and emits events. *)
Definition M (A : Type) : Type := World -> A * World * list Event.

#[global] Instance M_ret : MRet M := fun A a w => (a, w, []).
#[global] Instance M_bind : MBind M := fun A C k m w =>
  let '(a, w1, l1) := m w in
  let '(c, w2, l2) := k a w1 in
  (c, w2, (l1 ++ l2)%list).

Definition get_app : M State := fun w => (app w, w, []).
Definition get_page : M Page := fun w => (page w, w, []).
Definition update_app (f : State -> State) : M unit :=
  fun w => (tt, mkWorld (f (app w)) (page w) (backend w), []).
Definition update_page (f : Page -> Page) : M unit :=
  fun w => (tt, mkWorld (app w) (f (page w)) (backend w), []).
Definition emit (e : Event) : M unit := fun w => (tt, w, [e]).

(** [await invoke(cmd, args)], with the rejection made explicit. *)
Definition invoke {A : Type} (c : Command A) : M (Result A) :=
  fun w =>
    let '(r, b) := serve A c (backend w) in
    (r, mkWorld (app w) (page w) b, [EInvoke c]).

Definition console_error (msg detail : string) : M unit :=
  emit (EConsoleError msg detail).

Definition showToast (msg kind : string) : M unit := emit (EToast msg kind).

(** The events a handler emits and the world it leaves. *)
Definition events {A : Type} (m : M A) (w : World) : list Event := snd (m w).
Definition after {A : Type} (m : M A) (w : World) : World := snd (fst (m w)).

(** *** API calls *)

Definition loadGames_filter (f : CurrentFilter.t) : Filter.t :=
  {| Filter.query := Js.or_null (CurrentFilter.query f);
     Filter.status := Js.or_null (CurrentFilter.status f);
     Filter.platform := Js.or_null (CurrentFilter.platform f);
     Filter.franchise := Js.or_null (CurrentFilter.franchise f);
     Filter.genre := Js.or_null (CurrentFilter.genre f);
     Filter.sort_by := CurrentFilter.sortBy f;
     Filter.sort_asc := CurrentFilter.sortAsc f |}.

Definition loadGames : M unit :=
  st ← get_app;
  r ← invoke (SearchGames (loadGames_filter (currentFilter st)));
  match r with
  | Ok gs => update_app (set_games gs)
  | Err e =>
      console_error "search_games failed:" e;;
      showToast "Failed to load games" "error";;
      update_app (set_games [])
  end.

(** The three calls of [Promise.all] are all issued; the destructuring
    assignment happens only when all resolve. This is the function up to
    the end of its [try]; what it renders afterwards (the sidebar chips and
    the data lists, not part of [Page]) is added by [loadMeta_render]. *)
Definition loadMeta : M unit :=
  rp ← invoke GetPlatforms;
  rf ← invoke GetFranchises;
  rg ← invoke GetGenres;
  match rp, rf, rg with
  | Ok ps, Ok fs, Ok gs => update_app (set_meta ps fs gs)
  | Err e, _, _ => console_error "loadMeta failed:" e
  | Ok _, Err e, _ => console_error "loadMeta failed:" e
  | Ok _, Ok _, Err e => console_error "loadMeta failed:" e
  end.

(** *** Render: game grid / list *)

(** The secondary, view-level filter of [renderGames]. *)
Definition view_games (view : string) (gs : list Game.t) : list Game.t :=
  let gs1 := if bool_decide (view = "backlog")
             then filter (fun g => Game.status g = "Backlog") gs else gs in
  if bool_decide (view = "wishlist")
  then filter (fun g => Game.status g = "Wishlist") gs1 else gs1.

Definition count_text (n : nat) : string :=
  pretty n ++ " game" ++ (if bool_decide (n ≠ 1) then "s" else "").

Definition renderGames : M unit :=
  st ← get_app;
  let gs := view_games (activeView st) (games st) in
  update_page (set_gameCount (count_text (length gs)));;
  if bool_decide (length gs = 0) then
    update_page (set_gameGrid []);;
    update_page (set_emptyHidden false)
  else
    update_page (set_emptyHidden true);;
    update_page (set_gridListView (isListView st));;
    update_page (set_gameGrid (map (mkCard (isListView st)) gs)).

(** *** Main refresh cycle *)

Definition refresh (reloadMeta : bool) : M unit :=
  loadGames;;
  renderGames;;
  if reloadMeta then loadMeta else mret tt.

(** *** Stats view *)

(** Text of [${obj.key}] in a template literal. *)
Definition show_count (c : option nat) : string :=
  match c with Some n => pretty n | None => "undefined" end.

Definition status_breakdown (by_status : gmap string nat) : list (string * string) :=
  [ ("Playing", show_count (by_status !! "playing"));
    ("Completed", show_count (by_status !! "completed"));
    ("Backlog", show_count (by_status !! "backlog"));
    ("Wishlist", show_count (by_status !! "wishlist"));
    ("Dropped", show_count (by_status !! "dropped"));
    ("Not Started", show_count (by_status !! "not_started")) ].

Definition renderStats : M unit :=
  update_page (set_statsGrid StatsLoading);;
  r ← invoke GetStats;
  match r with
  | Err e =>
      console_error "get_stats failed:" e;;
      update_page (set_statsGrid StatsError)
  | Ok stats =>
      update_page (set_statsGrid
        (StatsCards (Stats.total_games stats)
                    (status_breakdown (Stats.by_status stats))))
  end.

(** *** Add / edit modal *)

(** The tags are built by interpolating each genre, unescaped, into the
    markup; [genreTags] keeps the genres interpolated, in order, not what
    the parser reads back from them. *)
Definition renderFormGenres : M unit :=
  st ← get_app;
  update_page (set_genreTags (formGenres st)).

(** [b.classList.toggle("active", b.dataset.val === v)] over the picker. *)
Definition toggle_status (v : string) (opts : list StatusOpt.t) : list StatusOpt.t :=
  map (fun b => StatusOpt.mk (StatusOpt.val b)
                  (bool_decide (StatusOpt.val b = Some v))) opts.

(** The texts [openModal] assigns to the form controls for [game]. A
    control holds the text assigned to it; what a control of the markup
    makes of a text it does not accept (a line break in a single-line
    control, a malformed date) is not modelled. *)
Definition fill_form (game : Game.t) : FormFields :=
  {| f_title := Game.title game;
     f_franchise := Js.or_empty (Game.franchise game);
     f_sequence :=
       match Game.sequence_in_franchise game with
       | Some n => if Js.truthy_number n then Js.number_to_string n else ""
       | None => ""
       end;
     f_platform := Game.platform game;
     f_release_date := Js.or_empty (Game.release_date game);
     f_developer := Js.or_empty (Game.developer game);
     f_publisher := Js.or_empty (Game.publisher game);
     f_progress := Js.number_to_string (nullish (Game.progress_percent game) Js.zero);
     f_playtime :=
       match Game.playtime_hours game with
       | Some h => Js.number_to_string h
       | None => ""
       end;
     f_notes := Js.or_empty (Game.notes game);
     f_cover_art_path := Js.or_empty (Game.cover_art_path game) |}.

(** [o || ""] keeps a non-empty string and maps [null] and [""] to [""]:
    on string-or-null values it is [Js.or_empty]. Titles, star widgets, the
    cover preview and its tabs are written but never read back. *)
Definition openModal (id : option Z) : M unit :=
  update_app (set_editingGameId id);;
  update_page (fun p => set_form (form_defaults p) p);;
  update_app (set_formGenres []);;
  update_app (set_formRating None);;
  renderFormGenres;;
  update_page (set_coverUrlInput "");;
  update_page (fun p => set_statusPicker (toggle_status "NotStarted" (statusPicker p)) p);;
  match truthy_id id with
  | Some n =>
      st ← get_app;
      match List.find (fun g => Z.eqb (Game.id g) n) (games st) with
      | None => mret tt
      | Some game =>
          update_page (set_form (fill_form game));;
          (if Js.truthy (Js.or_empty (Game.cover_art_path game))
              && is_remote (Js.or_empty (Game.cover_art_path game))
           then update_page (set_coverUrlInput (Js.or_empty (Game.cover_art_path game)))
           else mret tt);;
          update_page (fun p => set_statusPicker (toggle_status (Game.status game) (statusPicker p)) p);;
          update_app (set_formGenres (Game.genres game));;
          renderFormGenres;;
          (match Game.rating game with
           | Some r => update_app (set_formRating (Some r))
           | None => mret tt
           end);;
          update_page (set_modalOpen true)
      end
  | None => update_page (set_modalOpen true)
  end.

Definition closeModal : M unit :=
  update_page (set_modalOpen false);;
  update_app (set_editingGameId None).

(** Click inside the status picker; [target] is the position of the
    [.status-opt] the click landed in, if any. *)
Definition statusPicker_click (target : option nat) : M unit :=
  match target with
  | None => mret tt
  | Some i =>
      p ← get_page;
      if bool_decide (i < length (statusPicker p)) then
        update_page (set_statusPicker
          (imap (fun j b => StatusOpt.mk (StatusOpt.val b) (bool_decide (j = i)))
                (statusPicker p)))
      else mret tt
  end.

(** Click on a [.tag-remove]; [genre] is its [data-genre] value. *)
Definition tag_remove_click (genre : string) : M unit :=
  update_app (fun st => set_formGenres (filter (fun x => x ≠ genre) (formGenres st)) st);;
  renderFormGenres.

(** [keydown] in [#genreInput]. *)
Definition genreInput_keydown (key : string) : M unit :=
  if bool_decide (key = "Enter") || bool_decide (key = ",") then
    p ← get_page;
    st ← get_app;
    let val := Js.trim (genreInput p) in
    (if Js.truthy val && negb (bool_decide (val ∈ formGenres st)) then
       update_app (set_formGenres (formGenres st ++ [val])%list);;
       renderFormGenres
     else mret tt);;
    update_page (set_genreInput "")
  else mret tt.

(** *** Form submit *)

(** [querySelector(".status-opt.active")?.dataset.val ?? "NotStarted"] *)
Definition picked_status (opts : list StatusOpt.t) : string :=
  nullish (List.find StatusOpt.active opts ≫= StatusOpt.val) "NotStarted".

(** The object literal [input] of the submit handler. *)
Definition form_input (st : State) (p : Page) : Input.t :=
  let f := form p in
  {| Input.title := Js.trim (f_title f);
     Input.franchise := Js.or_null (Js.trim (f_franchise f));
     Input.sequence_in_franchise :=
       if Js.truthy (f_sequence f) then Some (Js.parseInt (f_sequence f)) else None;
     Input.release_date := Js.or_null (f_release_date f);
     Input.platform := Js.trim (f_platform f);
     Input.status := picked_status (statusPicker p);
     Input.progress_percent := Some (Js.parseFloat (f_progress f));
     Input.playtime_hours :=
       if Js.truthy (f_playtime f) then Some (Js.parseFloat (f_playtime f)) else None;
     Input.rating := formRating st;
     Input.notes := Js.or_null (Js.trim (f_notes f));
     Input.cover_art_path := Js.or_null (f_cover_art_path f);
     Input.screenshots := [];
     Input.developer := Js.or_null (Js.trim (f_developer f));
     Input.publisher := Js.or_null (Js.trim (f_publisher f));
     Input.genres := formGenres st |}.

(** The cover image is processed first; on failure the save continues
    without cover art. *)
Definition process_cover (input : Input.t) : M Input.t :=
  match Input.cover_art_path input with
  | Some path =>
      r ← invoke (ProcessCoverImage path);
      match r with
      | Ok processedPath =>
          mret (Input.set_cover_art_path (Some processedPath) input)
      | Err imgErr =>
          console_error "Image processing failed:" imgErr;;
          showToast "Warning: Could not process cover image" "error";;
          mret (Input.set_cover_art_path None input)
      end
  | None => mret input
  end.

Definition save_failed (err : string) : M unit :=
  console_error "save failed:" err;;
  showToast "Failed to save game" "error".

Definition gameForm_submit : M unit :=
  st ← get_app;
  p ← get_page;
  input ← process_cover (form_input st p);
  st' ← get_app;
  match truthy_id (editingGameId st') with
  | Some id =>
      r ← invoke (UpdateGame id input);
      match r with
      | Ok _ => showToast "Game updated!" "success";; closeModal;; refresh true
      | Err err => save_failed err
      end
  | None =>
      r ← invoke (AddGame input);
      match r with
      | Ok _ => showToast "Game added!" "success";; closeModal;; refresh true
      | Err err => save_failed err
      end
  end.

End Handlers.

Arguments World : clear implicits.
Arguments M : clear implicits.

(** *** What a user does in the open modal *)

Inductive FormAction : Type :=
| TypeGenre (text : string)
| GenreKey (key : string)
| RemoveTag (genre : string)
| PickStatus (target : option nat)
| EditForm (f : FormFields).

Definition form_action {B : Type} (a : FormAction) : M B unit :=
  match a with
  | TypeGenre text => update_page (set_genreInput text)
  | GenreKey key => genreInput_keydown key
  | RemoveTag genre => tag_remove_click genre
  | PickStatus target => statusPicker_click target
  | EditForm f => update_page (set_form f)
  end.

Fixpoint form_actions {B : Type} (l : list FormAction) : M B unit :=
  match l with
  | [] => mret tt
  | a :: l' => form_action a;; form_actions l'
  end.

(** The game [openModal(id)] loads into the form, if any. *)
Definition edited_game (id : option Z) (st : State) : option Game.t :=
  n ← truthy_id id; List.find (fun g => Z.eqb (Game.id g) n) (games st).

(* ===================================================================== *)
(** ** Repository (Rust side of the bridge) *)
(* ===================================================================== *)

Module Repository.

(** Modelled from the spec: the error taxonomy of section 7; the Rust error
    type is missing from the sources. *)
Inductive Error : Type :=
| NotFoundError
| ValidationError (field : string)
| StorageError.

(** Modelled from the spec: a bounded optional field of section 3
    ("optional numeric in [0,100]", "in [1,10]"): absent, or within the
    bounds. *)
Definition bounded (lo hi : Js.Number) (x : option Js.Number) : bool :=
  match x with
  | Some v => Js.le lo v && Js.le v hi
  | None => true
  end.

(** Modelled from the spec: "optional non-negative numeric" (section 3). *)
Definition non_negative (x : option Js.Number) : bool :=
  match x with
  | Some v => Js.le Js.zero v
  | None => true
  end.

(** Modelled from the spec: the checks made "before any persistence
    attempt" (sections 3 and 7): [title] and [platform] required and
    non-empty, [status] one of the six values, [progress_percent] in
    [0,100], [playtime_hours] non-negative, [rating] in [1,10]. The result
    is the offending field, [None] for a valid input; the Rust validation
    is missing from the sources. *)
Definition validate (input : Input.t) : option string :=
  if negb (Js.truthy (Input.title input)) then Some "title"
  else if negb (Js.truthy (Input.platform input)) then Some "platform"
  else if negb (bool_decide (Input.status input ∈ statuses)) then Some "status"
  else if negb (bounded Js.zero (Js.Dec false 100 0) (Input.progress_percent input))
  then Some "progress_percent"
  else if negb (non_negative (Input.playtime_hours input)) then Some "playtime_hours"
  else if negb (bounded (Js.Dec false 1 0) (Js.Dec false 10 0) (Input.rating input))
  then Some "rating"
  else None.

(** Modelled from the spec: the record [update] leaves under [id] (section
    4.1, "replaces all mutable fields wholesale with input's values ...
    sets updated_at = now, replaces the genre set"); the genres are a set
    (section 3, "no duplicate entries per game"), kept here without
    repetition. The Rust command is missing from the sources. [id] and
    [created_at] are the immutable fields. *)
Definition replaced (id : Z) (created_at now : string) (input : Input.t) : Game.t :=
  {| Game.id := id;
     Game.title := Input.title input;
     Game.franchise := Input.franchise input;
     Game.sequence_in_franchise := Input.sequence_in_franchise input;
     Game.platform := Input.platform input;
     Game.release_date := Input.release_date input;
     Game.developer := Input.developer input;
     Game.publisher := Input.publisher input;
     Game.status := Input.status input;
     Game.progress_percent := Input.progress_percent input;
     Game.playtime_hours := Input.playtime_hours input;
     Game.rating := Input.rating input;
     Game.notes := Input.notes input;
     Game.cover_art_path := Input.cover_art_path input;
     Game.screenshots := Input.screenshots input;
     Game.genres := remove_dups (Input.genres input);
     Game.created_at := created_at;
     Game.updated_at := now |}.

(** Modelled from the spec: [update(id, input)] of section 4.1 over a store
    keyed by id ("fails with NotFoundError if id absent. Otherwise replaces
    all mutable fields wholesale"), with the rejection of an invalid input
    of section 7 ("rejecting the write before any persistence attempt");
    the store is a finite map whose writes succeed, so no [StorageError]
    arises. The Rust command [update_game] is missing from the sources,
    which hold only its caller. *)
Definition update (id : Z) (input : Input.t) (now : string)
    (db : gmap Z Game.t) : Error + Game.t * gmap Z Game.t :=
  match db !! id with
  | None => inl NotFoundError
  | Some old =>
      match validate input with
      | Some field => inl (ValidationError field)
      | None =>
          let g := replaced id (Game.created_at old) now input in
          inr (g, <[id := g]> db)
      end
  end.

(** The JSON name of a status in [by_status], as [renderStats] reads it. *)
Definition status_key (s : string) : string :=
  nullish (own_property
    [ ("NotStarted", "not_started"); ("Playing", "playing");
      ("Completed", "completed"); ("Dropped", "dropped");
      ("Backlog", "backlog"); ("Wishlist", "wishlist") ] s) s.

(** Modelled from the spec: the count of the games whose status is [s]
    (section 4.3, "count per each of the six status values"). *)
Definition count_status (s : string) (games : list Game.t) : nat :=
  length (filter (fun g => Game.status g = s) games).

(** Modelled from the spec: the [by_status] field of [compute_stats]
    (section 4.3, "count per each of the six status values (all six always
    present, zero-filled)"); the Rust command [get_stats] is missing from the
    sources. *)
Definition by_status (games : list Game.t) : gmap string nat :=
  list_to_map (map (fun s => (status_key s, count_status s games)) statuses).

End Repository.

(* ===================================================================== *)
(** ** Search, sort, view toggle, stars and cover art *)
(* ===================================================================== *)

Module CurrentFilterSet.
Definition query (x : string) (f : CurrentFilter.t) : CurrentFilter.t :=
  CurrentFilter.mk x (CurrentFilter.status f) (CurrentFilter.platform f)
    (CurrentFilter.franchise f) (CurrentFilter.genre f)
    (CurrentFilter.sortBy f) (CurrentFilter.sortAsc f).
Definition status (x : string) (f : CurrentFilter.t) : CurrentFilter.t :=
  CurrentFilter.mk (CurrentFilter.query f) x (CurrentFilter.platform f)
    (CurrentFilter.franchise f) (CurrentFilter.genre f)
    (CurrentFilter.sortBy f) (CurrentFilter.sortAsc f).
Definition platform (x : string) (f : CurrentFilter.t) : CurrentFilter.t :=
  CurrentFilter.mk (CurrentFilter.query f) (CurrentFilter.status f) x
    (CurrentFilter.franchise f) (CurrentFilter.genre f)
    (CurrentFilter.sortBy f) (CurrentFilter.sortAsc f).
Definition genre (x : string) (f : CurrentFilter.t) : CurrentFilter.t :=
  CurrentFilter.mk (CurrentFilter.query f) (CurrentFilter.status f)
    (CurrentFilter.platform f) (CurrentFilter.franchise f) x
    (CurrentFilter.sortBy f) (CurrentFilter.sortAsc f).
Definition sortBy (x : string) (f : CurrentFilter.t) : CurrentFilter.t :=
  CurrentFilter.mk (CurrentFilter.query f) (CurrentFilter.status f)
    (CurrentFilter.platform f) (CurrentFilter.franchise f)
    (CurrentFilter.genre f) x (CurrentFilter.sortAsc f).
End CurrentFilterSet.

Definition set_currentFilter (f : CurrentFilter.t) (s : State) : State :=
  mkState (games s) (allPlatforms s) (allFranchises s) (allGenres s) f
    (activeView s) (selectedGameId s) (editingGameId s) (pendingDeleteId s)
    (formGenres s) (formRating s) (isListView s).

Definition set_activeView (v : string) (s : State) : State :=
  mkState (games s) (allPlatforms s) (allFranchises s) (allGenres s)
    (currentFilter s) v (selectedGameId s) (editingGameId s) (pendingDeleteId s)
    (formGenres s) (formRating s) (isListView s).

Definition set_selectedGameId (id : option Z) (s : State) : State :=
  mkState (games s) (allPlatforms s) (allFranchises s) (allGenres s)
    (currentFilter s) (activeView s) id (editingGameId s) (pendingDeleteId s)
    (formGenres s) (formRating s) (isListView s).

Definition set_pendingDeleteId (id : option Z) (s : State) : State :=
  mkState (games s) (allPlatforms s) (allFranchises s) (allGenres s)
    (currentFilter s) (activeView s) (selectedGameId s) (editingGameId s) id
    (formGenres s) (formRating s) (isListView s).

Definition set_isListView (b : bool) (s : State) : State :=
  mkState (games s) (allPlatforms s) (allFranchises s) (allGenres s)
    (currentFilter s) (activeView s) (selectedGameId s) (editingGameId s)
    (pendingDeleteId s) (formGenres s) (formRating s) b.

Definition set_f_cover_art_path (x : string) (f : FormFields) : FormFields :=
  mkForm (f_title f) (f_franchise f) (f_sequence f) (f_platform f)
    (f_release_date f) (f_developer f) (f_publisher f) (f_progress f)
    (f_playtime f) (f_notes f) x.

(** [x === y] on numbers: equal values, with [0 === -0] and [NaN] equal to
    nothing. *)
Definition number_eq (x y : Js.Number) : bool :=
  match x, y with
  | Js.Dec a m e, Js.Dec b m' e' =>
      let lo := Z.min e e' in
      let v := (m * 10 ^ Z.to_N (e - lo))%N in
      let v' := (m' * 10 ^ Z.to_N (e' - lo))%N in
      N.eqb v v' && (N.eqb v 0 || Bool.eqb a b)
  | Js.Infinity a, Js.Infinity b => Bool.eqb a b
  | _, _ => false
  end.

(** A file dropped on the cover zone: its MIME type, its [path] when the
    host exposes one, and its name. *)
Record DroppedFile : Type := mkDropped {
  file_type : string;
  file_path : option string;
  file_name : string;
}.

Section Controls.

Context {B : Type}.
Variable serve : Backend B.

(** The callback the search box arms with [setTimeout]; [value] is the
    text of the box when the timer fires. *)
Definition searchInput_fire (value : string) : M B unit :=
  update_app (fun st =>
    set_currentFilter (CurrentFilterSet.query (Js.trim value) (currentFilter st)) st);;
  refresh serve false.

(** [change] on the sort select; [value] is the option chosen. *)
Definition sortSelect_change (value : string) : M B unit :=
  update_app (fun st =>
    set_currentFilter (CurrentFilterSet.sortBy value (currentFilter st)) st);;
  refresh serve false.

(** Click in [#statusFilters]; [chip] is the [data-status] of the chip the
    click landed in, if any. The chips are part of the markup. *)
Definition statusFilters_click (chip : option string) : M B unit :=
  match chip with
  | None => mret tt
  | Some status =>
      update_app (fun st =>
        set_currentFilter (CurrentFilterSet.status status (currentFilter st)) st);;
      refresh serve false
  end.

Definition gridViewBtn_click : M B unit :=
  update_app (set_isListView false);;
  renderGames.

Definition listViewBtn_click : M B unit :=
  update_app (set_isListView true);;
  renderGames.

(** Click in [#starRating]; [star] is the [data-v] of the star the click
    landed in ([Some None] when the star carries none, read as the text
    "undefined" by [parseFloat]). *)
Definition starRating_click (star : option (option string)) : M B unit :=
  match star with
  | None => mret tt
  | Some data_v =>
      let v := Js.parseFloat (nullish data_v "undefined") in
      update_app (fun st =>
        set_formRating
          (match formRating st with
           | Some r => if number_eq r v then None else Some v
           | None => Some v
           end) st)
  end.

(** Click on "Load Image". *)
Definition loadUrlBtn_click : M B unit :=
  p ← get_page;
  let url := Js.trim (coverUrlInput p) in
  if negb (Js.truthy url) then
    showToast "Please enter a URL" "error"
  else if negb (Js.startsWith url "http://") && negb (Js.startsWith url "https://") then
    showToast "URL must start with http:// or https://" "error"
  else
    update_page (fun p => set_form (set_f_cover_art_path url (form p)) p);;
    showToast "Image loaded" "success".

(** Click on the cover zone; [selected] is what the native file dialog
    resolved to (a path, or [None] when cancelled) or its rejection. *)
Definition coverDrop_click (selected : Result (option string)) : M B unit :=
  match selected with
  | Ok sel =>
      if Js.truthy (Js.or_empty sel) then
        update_page (fun p =>
          set_form (set_f_cover_art_path (Js.or_empty sel) (form p)) p)
      else mret tt
  | Err e =>
      console_error "File dialog failed:" e;;
      showToast "Could not open file picker" "error"
  end.

(** [drop] on the cover zone; [file] is [e.dataTransfer.files[0]]. *)
Definition coverDrop_drop (file : option DroppedFile) : M B unit :=
  match file with
  | None => mret tt
  | Some f =>
      if Js.startsWith (file_type f) "image/" then
        update_page (fun p =>
          set_form (set_f_cover_art_path (nullish (file_path f) (file_name f)) (form p)) p)
      else mret tt
  end.

End Controls.

(* ===================================================================== *)
(** ** Sidebar chips, navigation, detail panel and delete dialog *)
(* ===================================================================== *)

(** A filter chip: its [data-platform] / [data-genre] value and whether it
    carries the class [active]. *)
Record Chip : Type := mkChip { chip_value : string; chip_active : bool }.

(** The rest of the document the handlers below write: the chips rendered
    by the script, which of the two views is shown, the delete dialog, the
    detail panel (the game its content was rendered from) and the three
    data lists of the form (the values interpolated into their options). *)
Record Shell : Type := mkShell {
  platformFilters : list Chip;
  genreFilters : list Chip;
  statsViewActive : bool;
  confirmHidden : bool;
  confirmGameTitle : string;
  detailGame : option Game.t;
  detailOpen : bool;
  franchiseList : list string;
  platformList : list string;
  genreList : list string;
}.

Definition set_platformFilters (x : list Chip) (s : Shell) : Shell :=
  mkShell x (genreFilters s) (statsViewActive s) (confirmHidden s)
    (confirmGameTitle s) (detailGame s) (detailOpen s) (franchiseList s)
    (platformList s) (genreList s).

Definition set_genreFilters (x : list Chip) (s : Shell) : Shell :=
  mkShell (platformFilters s) x (statsViewActive s) (confirmHidden s)
    (confirmGameTitle s) (detailGame s) (detailOpen s) (franchiseList s)
    (platformList s) (genreList s).

Definition set_statsViewActive (x : bool) (s : Shell) : Shell :=
  mkShell (platformFilters s) (genreFilters s) x (confirmHidden s)
    (confirmGameTitle s) (detailGame s) (detailOpen s) (franchiseList s)
    (platformList s) (genreList s).

Definition set_confirmHidden (x : bool) (s : Shell) : Shell :=
  mkShell (platformFilters s) (genreFilters s) (statsViewActive s) x
    (confirmGameTitle s) (detailGame s) (detailOpen s) (franchiseList s)
    (platformList s) (genreList s).

Definition set_confirmGameTitle (x : string) (s : Shell) : Shell :=
  mkShell (platformFilters s) (genreFilters s) (statsViewActive s)
    (confirmHidden s) x (detailGame s) (detailOpen s) (franchiseList s)
    (platformList s) (genreList s).

Definition set_detailGame (x : option Game.t) (s : Shell) : Shell :=
  mkShell (platformFilters s) (genreFilters s) (statsViewActive s)
    (confirmHidden s) (confirmGameTitle s) x (detailOpen s)
    (franchiseList s) (platformList s) (genreList s).

Definition set_detailOpen (x : bool) (s : Shell) : Shell :=
  mkShell (platformFilters s) (genreFilters s) (statsViewActive s)
    (confirmHidden s) (confirmGameTitle s) (detailGame s) x
    (franchiseList s) (platformList s) (genreList s).

Definition set_franchiseList (x : list string) (s : Shell) : Shell :=
  mkShell (platformFilters s) (genreFilters s) (statsViewActive s)
    (confirmHidden s) (confirmGameTitle s) (detailGame s) (detailOpen s) x
    (platformList s) (genreList s).

Definition set_platformList (x : list string) (s : Shell) : Shell :=
  mkShell (platformFilters s) (genreFilters s) (statsViewActive s)
    (confirmHidden s) (confirmGameTitle s) (detailGame s) (detailOpen s)
    (franchiseList s) x (genreList s).

Definition set_genreList (x : list string) (s : Shell) : Shell :=
  mkShell (platformFilters s) (genreFilters s) (statsViewActive s)
    (confirmHidden s) (confirmGameTitle s) (detailGame s) (detailOpen s)
    (franchiseList s) (platformList s) x.

(** The chips [renderPlatformFilters] and [renderGenreFilters] build: an
    "All" chip with the empty value, then one chip per name. *)
Definition filter_chips (current : string) (names : list string) : list Chip :=
  mkChip "" (negb (Js.truthy current))
  :: map (fun n => mkChip n (bool_decide (current = n))) names.

(** [wrap.querySelectorAll(".chip").forEach(b => b.classList.toggle("active", b === btn))] *)
Definition activate_chip (i : nat) (chips : list Chip) : list Chip :=
  imap (fun j c => mkChip (chip_value c) (bool_decide (j = i))) chips.

Section Desk.

Context {B : Type}.
Variable serve : Backend B.

Record Ui : Type := mkUi { world : World B; shell : Shell }.

Definition U (A : Type) : Type := Ui -> A * Ui * list Event.

#[global] Instance U_ret : MRet U := fun A a u => (a, u, []).
#[global] Instance U_bind : MBind U := fun A C k m u =>
  let '(a, u1, l1) := m u in
  let '(c, u2, l2) := k a u1 in
  (c, u2, (l1 ++ l2)%list).

(** A handler of the form and the grid, run inside the whole page. *)
Definition lift {A : Type} (m : M B A) : U A :=
  fun u =>
    let '(a, w, l) := m (world u) in
    (a, mkUi w (shell u), l).

Definition get_shell : U Shell := fun u => (shell u, u, []).

Definition update_shell (f : Shell -> Shell) : U unit :=
  fun u => (tt, mkUi (world u) (f (shell u)), []).

Definition ui_events {A : Type} (m : U A) (u : Ui) : list Event := snd (m u).
Definition ui_after {A : Type} (m : U A) (u : Ui) : Ui := snd (fst (m u)).

(** *** Sidebar filter rendering *)

Definition renderPlatformFilters : U unit :=
  st ← lift get_app;
  update_shell (set_platformFilters
    (filter_chips (CurrentFilter.platform (currentFilter st)) (allPlatforms st))).

Definition renderGenreFilters : U unit :=
  st ← lift get_app;
  update_shell (set_genreFilters
    (filter_chips (CurrentFilter.genre (currentFilter st)) (take 12 (allGenres st)))).

(** Click on the platform chip at position [i]. *)
Definition platformChip_click (i : nat) : U unit :=
  s ← get_shell;
  match platformFilters s !! i with
  | None => mret tt
  | Some btn =>
      lift (update_app (fun st =>
        set_currentFilter
          (CurrentFilterSet.platform (chip_value btn) (currentFilter st)) st));;
      update_shell (fun s => set_platformFilters (activate_chip i (platformFilters s)) s);;
      lift (refresh serve false)
  end.

(** Click on the genre chip at position [i]. *)
Definition genreChip_click (i : nat) : U unit :=
  s ← get_shell;
  match genreFilters s !! i with
  | None => mret tt
  | Some btn =>
      lift (update_app (fun st =>
        set_currentFilter
          (CurrentFilterSet.genre (chip_value btn) (currentFilter st)) st));;
      update_shell (fun s => set_genreFilters (activate_chip i (genreFilters s)) s);;
      lift (refresh serve false)
  end.

(** The options of the three data lists, one per known name. *)
Definition populateDataLists : U unit :=
  st ← lift get_app;
  update_shell (set_franchiseList (allFranchises st));;
  update_shell (set_platformList (allPlatforms st));;
  update_shell (set_genreList (allGenres st)).

(** [loadMeta] with what it renders at its end, whether or not the three
    calls resolved. *)
Definition loadMeta_render : U unit :=
  lift (loadMeta serve);;
  renderPlatformFilters;;
  renderGenreFilters;;
  populateDataLists.

(** [refresh(reloadMeta)] over the whole page. *)
Definition refresh_render (reloadMeta : bool) : U unit :=
  lift (loadGames serve);;
  lift renderGames;;
  if reloadMeta then loadMeta_render else mret tt.

(** *** Navigation *)

(** Click on a [.nav-item]; [view] is its [data-view]. *)
Definition navItem_click (view : string) : U unit :=
  lift (update_app (set_activeView view));;
  update_shell (set_statsViewActive (bool_decide (view = "stats")));;
  if bool_decide (view = "stats") then lift (renderStats serve)
  else lift renderGames.

(** *** Detail panel *)

Definition openDetail (id : Z) : U unit :=
  st ← lift get_app;
  match List.find (fun g => Z.eqb (Game.id g) id) (games st) with
  | None => mret tt
  | Some game =>
      lift (update_app (set_selectedGameId (Some id)));;
      update_shell (set_detailGame (Some game));;
      update_shell (set_detailOpen true)
  end.

Definition closeDetail : U unit :=
  update_shell (set_detailOpen false);;
  lift (update_app (set_selectedGameId None)).

(** *** Delete *)

Definition promptDelete (id : Z) : U unit :=
  st ← lift get_app;
  match List.find (fun g => Z.eqb (Game.id g) id) (games st) with
  | None => mret tt
  | Some game =>
      lift (update_app (set_pendingDeleteId (Some id)));;
      update_shell (set_confirmGameTitle (Game.title game));;
      update_shell (set_confirmHidden false)
  end.

Definition confirmCancel_click : U unit :=
  update_shell (set_confirmHidden true);;
  lift (update_app (set_pendingDeleteId None)).

Definition confirmDelete_click : U unit :=
  st ← lift get_app;
  match truthy_id (pendingDeleteId st) with
  | None => mret tt
  | Some id =>
      r ← lift (invoke serve (DeleteGame id));
      match r with
      | Ok _ =>
          lift (showToast "Game deleted" "info");;
          update_shell (set_confirmHidden true);;
          lift (update_app (set_pendingDeleteId None));;
          refresh_render true
      | Err e =>
          lift (console_error "delete failed:" e);;
          lift (showToast "Failed to delete game" "error")
      end
  end.

(** The submit handler over the whole page: [refresh(true)] after a save
    renders the sidebar again. *)
Definition gameForm_submit_render : U unit :=
  st ← lift get_app;
  p ← lift get_page;
  input ← lift (process_cover serve (form_input st p));
  st' ← lift get_app;
  match truthy_id (editingGameId st') with
  | Some id =>
      r ← lift (invoke serve (UpdateGame id input));
      match r with
      | Ok _ =>
          lift (showToast "Game updated!" "success");;
          lift closeModal;;
          refresh_render true
      | Err err => lift (save_failed err)
      end
  | None =>
      r ← lift (invoke serve (AddGame input));
      match r with
      | Ok _ =>
          lift (showToast "Game added!" "success");;
          lift closeModal;;
          refresh_render true
      | Err err => lift (save_failed err)
      end
  end.

(** The buttons of the detail panel. *)
Definition detailEditBtn_click (id : Z) : U unit :=
  closeDetail;;
  lift (openModal (Some id)).

Definition detailDeleteBtn_click (id : Z) : U unit :=
  closeDetail;;
  promptDelete id.

(** [keydown] with the key Escape. *)
Definition escape_keydown : U unit :=
  closeDetail;;
  lift closeModal;;
  update_shell (set_confirmHidden true).

End Desk.

Arguments Ui : clear implicits.
Arguments U : clear implicits.

(* ===================================================================== *)
(** ** Everything a user can do *)
(* ===================================================================== *)

(** The listeners the script registers, as the actions that trigger them.
    A card is addressed by its position in the grid; only the cards of the
    list layout carry edit and delete buttons. The buttons of the detail
    panel act on the game the panel was rendered from. *)
Inductive UiAction : Type :=
| ASearch (value : string)
| ASort (value : string)
| AStatusChip (chip : option string)
| APlatformChip (i : nat)
| AGenreChip (i : nat)
| AGridView
| AListView
| ANav (view : string)
| ACardClick (i : nat)
| ACardEdit (i : nat)
| ACardDelete (i : nat)
| ADetailEdit
| ADetailDelete
| ACloseDetail
| AAddGame
| ACloseModal
| AForm (a : FormAction)
| AStar (star : option (option string))
| ATypeCoverUrl (text : string)
| ALoadUrl
| ACoverPick (selected : Result (option string))
| ACoverDrop (file : option DroppedFile)
| ASubmit
| AConfirmCancel
| AConfirmDelete
| AEscape.

Section Dispatch.

Context {B : Type}.
Variable serve : Backend B.

(** The card at position [i], when it has the buttons of a list card. *)
Definition list_card (i : nat) (p : Page) : option Card :=
  c ← gameGrid p !! i; if card_list c then Some c else None.

Definition ui_action (a : UiAction) : U B unit :=
  match a with
  | ASearch value => lift (searchInput_fire serve value)
  | ASort value => lift (sortSelect_change serve value)
  | AStatusChip chip => lift (statusFilters_click serve chip)
  | APlatformChip i => platformChip_click serve i
  | AGenreChip i => genreChip_click serve i
  | AGridView => lift gridViewBtn_click
  | AListView => lift listViewBtn_click
  | ANav view => navItem_click serve view
  | ACardClick i =>
      p ← lift get_page;
      match gameGrid p !! i with
      | Some c => openDetail (Game.id (card_game c))
      | None => mret tt
      end
  | ACardEdit i =>
      p ← lift get_page;
      match list_card i p with
      | Some c => lift (openModal (Some (Game.id (card_game c))))
      | None => mret tt
      end
  | ACardDelete i =>
      p ← lift get_page;
      match list_card i p with
      | Some c => promptDelete (Game.id (card_game c))
      | None => mret tt
      end
  | ADetailEdit =>
      s ← get_shell;
      match detailGame s with
      | Some g => detailEditBtn_click (Game.id g)
      | None => mret tt
      end
  | ADetailDelete =>
      s ← get_shell;
      match detailGame s with
      | Some g => detailDeleteBtn_click (Game.id g)
      | None => mret tt
      end
  | ACloseDetail => closeDetail
  | AAddGame => lift (openModal None)
  | ACloseModal => lift closeModal
  | AForm a => lift (form_action a)
  | AStar star => lift (starRating_click star)
  | ATypeCoverUrl text => lift (update_page (set_coverUrlInput text))
  | ALoadUrl => lift loadUrlBtn_click
  | ACoverPick selected => lift (coverDrop_click selected)
  | ACoverDrop file => lift (coverDrop_drop file)
  | ASubmit => gameForm_submit_render serve
  | AConfirmCancel => confirmCancel_click
  | AConfirmDelete => confirmDelete_click serve
  | AEscape => escape_keydown
  end.

Fixpoint ui_actions (l : list UiAction) : U B unit :=
  match l with
  | [] => mret tt
  | a :: l' => ui_action a;; ui_actions l'
  end.

End Dispatch.

(* ===================================================================== *)
(** ** Boot *)
(* ===================================================================== *)

Section Boot.

Context {B : Type}.
Variable serve : Backend B.

(** [loadGames] from the point where [search_games] has settled with [r]. *)
Definition loadGames_settled (r : Result (list Game.t)) : M B unit :=
  match r with
  | Ok gs => update_app (set_games gs)
  | Err e =>
      console_error "search_games failed:" e;;
      showToast "Failed to load games" "error";;
      update_app (set_games [])
  end.

(** [loadMeta] from the point where its three calls have settled. *)
Definition loadMeta_settled (rp rf rg : Result (list string)) : U B unit :=
  lift (match rp, rf, rg with
        | Ok ps, Ok fs, Ok gs => update_app (set_meta ps fs gs)
        | Err e, _, _ => console_error "loadMeta failed:" e
        | Ok _, Err e, _ => console_error "loadMeta failed:" e
        | Ok _, Ok _, Err e => console_error "loadMeta failed:" e
        end);;
  renderPlatformFilters;;
  renderGenreFilters;;
  populateDataLists.



End Boot.

(* ===================================================================== *)
(** ** Vocabulary of the statements *)
(* ===================================================================== *)

(** A status is refused for display when it is neither passed through as a
    label nor normalised to the class of [NotStarted]. *)
Definition refused_for_display (s : string) : Prop :=
  statusLabel s ≠ VString s /\ statusClass s ≠ statusClass "NotStarted".

(** The asset URL of a path, without percent-encoding. *)
Definition asset_url (p : string) : string := "asset://localhost/" ++ p.

(** What a filter field carries for a [currentFilter] field: null exactly
    for the empty string, the field's value otherwise. *)
Definition carries (field : string) (sent : option string) : Prop :=
  (sent = None <-> field = "") /\ (field ≠ "" -> sent = Some field).

(** A predicate that can be supplied: absent, or a non-empty string. *)
Definition suppliable (o : option string) : Prop := o ≠ Some "".

(** The games behind the cards of the grid, in document order. *)
Definition displayed_games (p : Page) : list Game.t := map card_game (gameGrid p).

(** Every mutable field of [g] holds the value [input] gives it; a field
    that is null or empty in [input] is null or empty in [g]. The genres
    of [g] are the set of those of [input]. *)
Definition holds_input (g : Game.t) (input : Input.t) : Prop :=
  Game.title g = Input.title input
  /\ Game.franchise g = Input.franchise input
  /\ Game.sequence_in_franchise g = Input.sequence_in_franchise input
  /\ Game.platform g = Input.platform input
  /\ Game.release_date g = Input.release_date input
  /\ Game.developer g = Input.developer input
  /\ Game.publisher g = Input.publisher input
  /\ Game.status g = Input.status input
  /\ Game.progress_percent g = Input.progress_percent input
  /\ Game.playtime_hours g = Input.playtime_hours input
  /\ Game.rating g = Input.rating input
  /\ Game.notes g = Input.notes input
  /\ Game.cover_art_path g = Input.cover_art_path input
  /\ Game.screenshots g = Input.screenshots input
  /\ NoDup (Game.genres g)
  /\ forall x, x ∈ Game.genres g <-> x ∈ Input.genres input.
(* ===================================================================== *)
(** ** Vocabulary of the further statements *)
(* ===================================================================== *)

(** The commands that write to the store of the backend. *)
Definition mutates {A : Type} (c : Command A) : bool :=
  match c with
  | AddGame _ => true
  | UpdateGame _ _ => true
  | DeleteGame _ => true
  | _ => false
  end.

(** Modelled from the spec: a backend that keeps a store of games and a
    clock and runs the command [update_game] of section 6 ("id, full Game
    fields" to "updated Game") as [Repository.update] on the input as JSON
    carried it, resolving with the updated game or rejecting with the
    error, and whose reading commands leave the store alone. The Rust
    commands are missing from the sources. *)
Definition serves_update {B : Type} (serve : Backend B)
    (store : B -> gmap Z Game.t) (clock : B -> string) : Prop :=
  (forall b id input,
      match Repository.update id (Input.wire input) (clock b) (store b) with
      | inr (g, db') =>
          (serve Game.t (UpdateGame id input) b).1 = Ok g
          /\ store (serve Game.t (UpdateGame id input) b).2 = db'
      | inl _ =>
          (exists e, (serve Game.t (UpdateGame id input) b).1 = Err e)
          /\ store (serve Game.t (UpdateGame id input) b).2 = store b
      end)
  /\ (forall A (c : Command A) b,
        mutates c = false -> store (serve A c b).2 = store b).

(** A handler that leaves the store of the backend as it was. *)
Definition reads_only {B A : Type} (store : B -> gmap Z Game.t) (m : M B A) : Prop :=
  forall w, store (backend (after m w)) = store (backend w).

(** A text without a line break: what a single-line text control keeps
    unchanged when the text is assigned to it. *)
Fixpoint single_line (s : string) : bool :=
  match s with
  | EmptyString => true
  | String c r =>
      negb (Nat.eqb (nat_of_ascii c) 10) && negb (Nat.eqb (nat_of_ascii c) 13)
      && single_line r
  end.

Definition single_line_opt (o : option string) : Prop :=
  forall s, o = Some s -> single_line s = true.

(** The days of month [m] in year [y] of the proleptic Gregorian calendar. *)
Definition days_in_month (y m : N) : N :=
  if (N.eqb m 4 || N.eqb m 6 || N.eqb m 9 || N.eqb m 11)%bool then 30
  else if negb (N.eqb m 2) then 31
  else if (N.eqb (y mod 400) 0
           || (N.eqb (y mod 4) 0 && negb (N.eqb (y mod 100) 0)))%bool then 29
  else 28.

(** A date as a date control holds it: a year of four or more digits that
    is not zero, a month and a day of two digits each, separated by
    hyphens and naming a day that exists. A date control keeps such a
    text unchanged when it is assigned to it. *)
Definition valid_date_string (s : string) : bool :=
  let '(y, ny, r) := Js.take_digits Js.digit_of 10 s 0%N 0 in
  match r with
  | String h1 (String m1 (String m2 (String h2 (String d1 (String d2 EmptyString))))) =>
      match Js.digit_of m1, Js.digit_of m2, Js.digit_of d1, Js.digit_of d2 with
      | Some a, Some b, Some c, Some d =>
          let m := (10 * a + b)%N in
          let day := (10 * c + d)%N in
          Ascii.eqb h1 "-" && Ascii.eqb h2 "-"
          && Nat.leb 4 ny && N.ltb 0 y
          && N.leb 1 m && N.leb m 12
          && N.leb 1 day && N.leb day (days_in_month y m)
      | _, _, _, _ => false
      end
  | _ => false
  end.

(** A text made of white space only. *)
Fixpoint all_space (s : string) : bool :=
  match s with
  | EmptyString => true
  | String c r => Js.is_space c && all_space r
  end.

(** The command name of a call, as passed to [invoke]. *)
Definition call_name (e : Event) : option string :=
  match e with
  | EInvoke c =>
      Some match c with
           | SearchGames _ => "search_games"
           | GetPlatforms => "get_platforms"
           | GetFranchises => "get_franchises"
           | GetGenres => "get_genres"
           | GetStats => "get_stats"
           | ProcessCoverImage _ => "process_cover_image"
           | AddGame _ => "add_game"
           | UpdateGame _ _ => "update_game"
           | DeleteGame _ => "delete_game"
           end
  | _ => None
  end.

(** The toast of an event, if it is one. *)
Definition toast (e : Event) : option (string * string) :=
  match e with
  | EToast msg kind => Some (msg, kind)
  | _ => None
  end.

(** The id a [delete_game] call names. *)
Definition deleted_id (e : Event) : option Z :=
  match e with
  | EInvoke c =>
      match c with
      | DeleteGame id => Some id
      | _ => None
      end
  | _ => None
  end.

(** A text field as the form leaves it: trimmed. An optional field as the
    form leaves it: null, or a trimmed non-empty text. *)
Definition trimmed (s : string) : Prop := Js.trim s = s.

Definition trimmed_opt (o : option string) : Prop :=
  forall s, o = Some s -> s ≠ "" /\ Js.trim s = s.

(** The console entry of an event, if it is one. *)
Definition console (e : Event) : option (string * string) :=
  match e with
  | EConsoleError msg detail => Some (msg, detail)
  | _ => None
  end.



(** The submit handler from the save on, for the input [input]. *)
Definition save_input {B : Type} (serve : Backend B) (input : Input.t) : M B unit :=
  st' ← get_app;
  match truthy_id (editingGameId st') with
  | Some id =>
      r ← invoke serve (UpdateGame id input);
      match r with
      | Ok _ => showToast "Game updated!" "success";; closeModal;; refresh serve true
      | Err err => save_failed err
      end
  | None =>
      r ← invoke serve (AddGame input);
      match r with
      | Ok _ => showToast "Game added!" "success";; closeModal;; refresh serve true
      | Err err => save_failed err
      end
  end.


(** The call the submit handler makes for the cover, if any. *)
Definition cover_call (p : Page) : list string :=
  if Js.truthy (f_cover_art_path (form p)) then ["process_cover_image"] else [].

(** The cards of the grid show games of [state.games]. *)
Definition grid_listed {B : Type} (w : World B) : Prop :=
  forall c, c ∈ gameGrid (page w) -> card_game c ∈ games (app w).

(** A step from [w] to [w'] that emitted [evs] is steady when it leaves
    the direction of the sort and the franchise of [currentFilter] alone,
    every search it sent carries the two, and it keeps the cards of the
    grid among the games. *)
Definition steady {B : Type} (w w' : World B) (evs : list Event) : Prop :=
  CurrentFilter.sortAsc (currentFilter (app w'))
  = CurrentFilter.sortAsc (currentFilter (app w))
  /\ CurrentFilter.franchise (currentFilter (app w'))
     = CurrentFilter.franchise (currentFilter (app w))
  /\ (forall F, F ∈ omap search_filter evs ->
        Filter.sort_asc F = CurrentFilter.sortAsc (currentFilter (app w))
        /\ Filter.franchise F
           = Js.or_null (CurrentFilter.franchise (currentFilter (app w))))
  /\ (grid_listed w -> grid_listed w').

Definition steadyM {B A : Type} (m : M B A) : Prop :=
  forall w, steady w (after m w) (events m w).

Definition steadyU {B A : Type} (m : U B A) : Prop :=
  forall u, steady (world u) (world (ui_after m u)) (ui_events m u).

(* ===================================================================== *)
(** ** Sample data *)
(* ===================================================================== *)

Definition blank_form : FormFields :=
  mkForm "" "" "" "" "" "" "" "0" "" "" "".

Definition sample_picker : list StatusOpt.t :=
  map (fun s => StatusOpt.mk (Some s) (bool_decide (s = "NotStarted"))) statuses.

Definition sample_game : Game.t :=
  {| Game.id := 7;
     Game.title := "Hollow Knight";
     Game.franchise := None;
     Game.sequence_in_franchise := None;
     Game.platform := "Switch";
     Game.release_date := Some "2017-02-24";
     Game.developer := Some "Team Cherry";
     Game.publisher := None;
     Game.status := "Backlog";
     Game.progress_percent := Some (Js.Dec false 375 (-1));
     Game.playtime_hours := None;
     Game.rating := Some (Js.Dec false 9 0);
     Game.notes := None;
     Game.cover_art_path := None;
     Game.screenshots := ["shots/hk-1.png"; "shots/hk-2.png"];
     Game.genres := ["Metroidvania"; "Indie"];
     Game.created_at := "2024-01-01T00:00:00Z";
     Game.updated_at := "2024-01-02T00:00:00Z" |}.

Definition sample_state : State :=
  {| games := [sample_game];
     allPlatforms := ["Switch"];
     allFranchises := [];
     allGenres := ["Indie"; "Metroidvania"];
     currentFilter := CurrentFilter.mk "" "" "" "" "" "UpdatedAt" false;
     activeView := "library";
     selectedGameId := None;
     editingGameId := None;
     pendingDeleteId := None;
     formGenres := [];
     formRating := None;
     isListView := false |}.

Definition sample_page : Page :=
  {| form := blank_form;
     form_defaults := blank_form;
     statusPicker := sample_picker;
     genreInput := "";
     coverUrlInput := "";
     genreTags := [];
     modalOpen := false;
     gameCount := "";
     gameGrid := [];
     gridListView := false;
     emptyHidden := false;
     statsGrid := StatsLoading |}.

(** A backend whose every command is rejected. *)
Definition failing_backend : Backend unit :=
  fun A c b => (Err "database is locked", b).

Definition sample_world : World unit := mkWorld sample_state sample_page tt.

Definition sample_actions : list FormAction :=
  [ TypeGenre " Indie "; GenreKey "Enter"; TypeGenre "RPG"; GenreKey ",";
    TypeGenre "RPG"; GenreKey "Enter"; RemoveTag "Metroidvania" ].

Definition editing_world : World unit := after (openModal (Some 7%Z)) sample_world.

Definition sample_db : gmap Z Game.t := {[ 7%Z := sample_game ]}.

(** Modelled from the spec: a backend over a store of games whose
    [update_game] is [Repository.update] at a fixed time (section 4.1); its
    reading commands resolve and leave the store alone, [add_game] and
    [delete_game] are not served. *)
Definition repository_backend : Backend (gmap Z Game.t) :=
  fun A c db =>
    match c in Command T return Result T * gmap Z Game.t with
    | SearchGames _ => (Ok (map snd (map_to_list db)), db)
    | GetPlatforms => (Ok (map (fun kv => Game.platform kv.2) (map_to_list db)), db)
    | GetFranchises => (Ok (omap (fun kv => Game.franchise kv.2) (map_to_list db)), db)
    | GetGenres => (Ok (concat (map (fun kv => Game.genres kv.2) (map_to_list db))), db)
    | GetStats => (Err "unavailable", db)
    | ProcessCoverImage input => (Ok input, db)
    | AddGame _ => (Err "unavailable", db)
    | UpdateGame id input =>
        match Repository.update id (Input.wire input) "2024-03-01T00:00:00Z" db with
        | inr (g, db') => (Ok g, db')
        | inl _ => (Err "rejected", db)
        end
    | DeleteGame _ => (Err "unavailable", db)
    end.

(** The edit form open on the stored game. *)
Definition stored_world : World (gmap Z Game.t) :=
  after (openModal (Some 7%Z)) (mkWorld sample_state sample_page sample_db).

(** A form whose slider holds a text beyond the range of binary64, and a
    page whose markup gives the slider the default 50. *)
Definition overflow_world : World unit :=
  mkWorld sample_state
    (set_form (mkForm "Celeste" "" "" "PC" "" "" "" "1e400" "" "" "") sample_page) tt.


(** A backend that resolves [get_stats] with [stats]. *)
Definition stats_backend (stats : Stats.t) : Backend unit :=
  fun A c b =>
    match c in Command T return Result T * unit with
    | GetStats => (Ok stats, b)
    | _ => (Err "unavailable", b)
    end.

Definition sample_stats : Stats.t :=
  {| Stats.total_games := 1;
     Stats.total_playtime_hours := Js.zero;
     Stats.average_rating := Some (Js.Dec false 9 0);
     Stats.completion_rate := Js.zero;
     Stats.by_status := Repository.by_status [sample_game];
     Stats.games_by_platform := [("Switch", 1)];
     Stats.games_by_genre := [("Indie", 1); ("Metroidvania", 1)];
     Stats.games_by_franchise := [];
     Stats.recent_completions := [] |}.

(** Worlds used below: the wishlist option active in the picker; the backlog
    view over a backlog game and a game being played. *)
Definition wishlist_world : World unit :=
  mkWorld sample_state
    (set_statusPicker (toggle_status "Wishlist" sample_picker) sample_page) tt.

Definition playing_game : Game.t :=
  {| Game.id := 8;
     Game.title := "Celeste";
     Game.franchise := None;
     Game.sequence_in_franchise := None;
     Game.platform := "PC";
     Game.release_date := None;
     Game.developer := None;
     Game.publisher := None;
     Game.status := "Playing";
     Game.progress_percent := None;
     Game.playtime_hours := Some (Js.Dec false 45 (-1));
     Game.rating := None;
     Game.notes := None;
     Game.cover_art_path := Some "https://img.example/celeste.png";
     Game.screenshots := [];
     Game.genres := ["Platformer"];
     Game.created_at := "2024-02-01T00:00:00Z";
     Game.updated_at := "2024-02-01T00:00:00Z" |}.


(** A backend over the stored games: every command resolves;
    [search_games] returns the stored games and [delete_game] removes the
    id from them. *)
Definition listing_backend : Backend (list Game.t) :=
  fun A c b =>
    match c in Command T return Result T * list Game.t with
    | SearchGames _ => (Ok b, b)
    | GetPlatforms => (Ok (map Game.platform b), b)
    | GetFranchises => (Ok (omap Game.franchise b), b)
    | GetGenres => (Ok (concat (map Game.genres b)), b)
    | GetStats => (Ok sample_stats, b)
    | ProcessCoverImage input => (Ok input, b)
    | AddGame _ => (Ok sample_game, (b ++ [sample_game])%list)
    | UpdateGame _ _ => (Ok sample_game, b)
    | DeleteGame id => (Ok tt, filter (fun g => Game.id g ≠ id) b)
    end.

Definition listing_world : World (list Game.t) :=
  mkWorld sample_state sample_page [playing_game; sample_game].

Definition sample_shell : Shell :=
  {| platformFilters := [];
     genreFilters := [];
     statsViewActive := false;
     confirmHidden := true;
     confirmGameTitle := "";
     detailGame := None;
     detailOpen := false;
     franchiseList := [];
     platformList := [];
     genreList := [] |}.

Definition sample_ui : Ui (list Game.t) := mkUi listing_world sample_shell.

(* ===================================================================== *)
(** ** Proof automation *)
(* ===================================================================== *)

Create HintDb handlers.
#[local] Hint Unfold mbind mret M_bind M_ret get_app get_page update_app
  update_page emit invoke console_error showToast events after : handlers.

(** Unfolds the monad of a handler down to the calls of [serve]. *)
Ltac run_handler := autounfold with handlers; simpl.

(** Splits on the outcome of the next backend call. *)
Ltac next_call :=
  match goal with
  | |- context [ ?s ?A ?c ?b ] =>
      match type of (s A c b) with
      | (Result _ * _)%type =>
          let r := fresh "r" in
          let b' := fresh "b" in
          let E := fresh "Ecall" in
          destruct (s A c b) as [r b'] eqn:E; simpl
      end
  end.

(* ===================================================================== *)
(** ** Properties of the built-ins *)
(* ===================================================================== *)

Example parseFloat_samples :
  Js.parseFloat "37.5" = Js.Dec false 375 (-1)
  /\ Js.parseFloat "0" = Js.zero
  /\ Js.parseFloat "  -12e3px" = Js.Dec true 12 3
  /\ Js.parseFloat ".5" = Js.Dec false 5 (-1)
  /\ Js.parseFloat "5." = Js.Dec false 5 0
  /\ Js.parseFloat "1e" = Js.Dec false 1 0
  /\ Js.parseFloat "" = Js.NaN
  /\ Js.parseFloat "." = Js.NaN
  /\ Js.parseFloat "5.e2" = Js.Dec false 5 2
  /\ Js.parseFloat "-.25" = Js.Dec true 25 (-2)
  /\ Js.parseFloat "-Infinity" = Js.Infinity true
  /\ Js.parseFloat "abc" = Js.NaN
  /\ Js.parseFloat "1e400" = Js.Infinity false
  /\ Js.parseFloat "-2e308" = Js.Infinity true
  /\ Js.parseFloat "1.7976931348623157e308" = Js.Dec false 17976931348623157 292
  /\ Js.parseFloat "1e-400" = Js.zero
  /\ Js.parseFloat "0.00" = Js.zero.
Proof. repeat split; vm_compute; reflexivity. Qed.

Example binary64_bounds :
  Js.overflows 17976931348623158 292 = false
  /\ Js.overflows 17976931348623159 292 = true
  /\ Js.overflows 1 308 = false
  /\ Js.overflows 2 308 = true
  /\ Js.underflows 25 (-325) = false
  /\ Js.underflows 24 (-325) = true
  /\ Js.underflows 5 (-324) = false
  /\ Js.parseInt "0x1F" = Js.Dec false 31 0.
Proof. repeat split; vm_compute; reflexivity. Qed.

Example parseInt_samples :
  Js.parseInt "3" = Js.Dec false 3 0
  /\ Js.parseInt " 42nd" = Js.Dec false 42 0
  /\ Js.parseInt "0x1f" = Js.Dec false 31 0
  /\ Js.parseInt "-7.9" = Js.Dec true 7 0
  /\ Js.parseInt "x" = Js.NaN.
Proof. repeat split; vm_compute; reflexivity. Qed.

Example le_samples :
  Js.le Js.zero (Js.Dec false 375 (-1)) = true
  /\ Js.le (Js.Dec false 375 (-1)) (Js.Dec false 100 0) = true
  /\ Js.le (Js.Dec false 1001 (-1)) (Js.Dec false 100 0) = false
  /\ Js.le (Js.Dec false 1 0) (Js.Dec false 5 (-1)) = false
  /\ Js.le Js.zero (Js.Dec true 1 0) = false
  /\ Js.le Js.zero (Js.Dec true 0 0) = true
  /\ Js.le Js.NaN Js.NaN = false
  /\ Js.le (Js.Infinity false) (Js.Dec false 100 0) = false.
Proof. repeat split; vm_compute; reflexivity. Qed.

Example number_to_string_samples :
  Js.number_to_string (Js.Dec false 375 (-1)) = "37.5"
  /\ Js.number_to_string Js.zero = "0"
  /\ Js.number_to_string (Js.Dec false 100 0) = "100"
  /\ Js.number_to_string (Js.Dec true 5 (-1)) = "-0.5"
  /\ Js.number_to_string (Js.Dec false 12 3) = "12000"
  /\ Js.number_to_string (Js.Dec false 1 21) = "1e+21"
  /\ Js.number_to_string (Js.Dec false 15 (-8)) = "1.5e-7".
Proof. repeat split; vm_compute; reflexivity. Qed.

Example trim_samples :
  Js.trim "  RPG " = "RPG" /\ Js.trim "   " = "" /\ Js.trim "a b" = "a b".
Proof. repeat split; reflexivity. Qed.





(* ===================================================================== *)
(** ** Properties of the helpers *)
(* ===================================================================== *)

Lemma own_property_absent (obj : list (string * string)) (key : string) :
  key ∉ obj.*1 -> own_property obj key = None.
Proof.
  induction obj as [|[k v] rest IH]; intros Hk; [reflexivity|].
  simpl in *. apply not_elem_of_cons in Hk as [Hne Hrest].
  destruct (String.eqb_spec k key) as [->|_]; [contradiction|].
  now apply IH.
Qed.

Lemma statuses_statusClass_keys (s : string) :
  s ∈ statusClass_table.*1 <-> s ∈ statuses.
Proof. unfold statuses. simpl. rewrite !elem_of_cons, !elem_of_nil. tauto. Qed.

Lemma statuses_statusLabel_keys (s : string) :
  s ∈ statusLabel_table.*1 <-> s ∈ statuses.
Proof. unfold statuses. simpl. rewrite !elem_of_cons, !elem_of_nil. tauto. Qed.

(** C3, as stated, fails: the unrecognised status "Paused" is not refused;
    [statusLabel] hands it back and [statusClass] gives it the class of
    NotStarted. *)
Lemma unrecognized_status_not_refused :
  ("Paused" ∉ statuses)
  /\ statusLabel "Paused" = VString "Paused"
  /\ statusClass "Paused" = VString "status--notstarted"
  /\ ~ refused_for_display "Paused".
Proof.
  split; [|split; [|split]].
  - unfold statuses. intros H. repeat (apply elem_of_cons in H as [H|H]; [discriminate|]).
    now apply elem_of_nil in H.
  - reflexivity.
  - reflexivity.
  - intros [H _]. now apply H.
Qed.

(** C3 (amended): a string that is not one of the six status values (and
    does not name a member inherited from Object.prototype) is not refused:
    [statusClass] falls back to "status--notstarted" and [statusLabel]
    returns the string itself. *)
Theorem unrecognized_status_display (s : string) :
  s ∉ statuses ->
  s ∉ object_prototype_names ->
  statusClass s = VString "status--notstarted" /\ statusLabel s = VString s.
Proof.
  intros Hs Hp. unfold statusClass, statusLabel, get_property.
  rewrite !own_property_absent.
  - rewrite bool_decide_eq_false_2 by assumption. now split.
  - now rewrite statuses_statusLabel_keys.
  - now rewrite statuses_statusClass_keys.
Qed.

Lemma unrecognized_status_display_witness :
  statusClass "Paused" = VString "status--notstarted"
  /\ statusLabel "Paused" = VString "Paused".
Proof.
  apply (unrecognized_status_display "Paused").
  - unfold statuses. intros H.
    repeat (apply elem_of_cons in H as [H|H]; [discriminate|]).
    now apply elem_of_nil in H.
  - unfold object_prototype_names. intros H.
    repeat (apply elem_of_cons in H as [H|H]; [discriminate|]).
    now apply elem_of_nil in H.
Defined.

(** The six status values each have their own class and label. *)
Lemma recognized_status_display (s : string) :
  s ∈ statuses ->
  exists c l, statusClass s = VString c /\ statusLabel s = VString l
              /\ (c = "status--notstarted" <-> s = "NotStarted").
Proof.
  unfold statuses. intros H.
  repeat (apply elem_of_cons in H as [->|H];
          [eexists _, _; split; [reflexivity|split; [reflexivity|]];
           split; intros; congruence|]).
  now apply elem_of_nil in H.
Qed.

(** A name inherited from Object.prototype is looked up, not defaulted. *)
Lemma inherited_name_display (s : string) :
  s ∈ object_prototype_names ->
  statusClass s = VInherited s /\ statusLabel s = VInherited s.
Proof.
  unfold object_prototype_names. intros H.
  repeat (apply elem_of_cons in H as [->|H]; [now split|]).
  now apply elem_of_nil in H.
Qed.

Example statusClass_samples :
  statusClass "Wishlist" = VString "status--wishlist"
  /\ statusLabel "NotStarted" = VString "Not Started"
  /\ statusClass "" = VString "status--notstarted"
  /\ statusLabel "playing" = VString "playing"
  /\ statusClass "constructor" = VInherited "constructor"
  /\ statusLabel "toString" = VInherited "toString".
Proof. repeat split; reflexivity. Qed.

Lemma truthy_nonempty (s : string) : Js.truthy s = true <-> s ≠ "".
Proof. destruct s; simpl; split; intros H; try discriminate; try reflexivity; now destruct H. Qed.

Lemma or_null_None (s : string) : Js.or_null s = None <-> s = "".
Proof. destruct s; simpl; split; intros H; try discriminate; reflexivity. Qed.

Lemma or_null_Some (s : string) : s ≠ "" -> Js.or_null s = Some s.
Proof. destruct s; simpl; intros H; [now destruct H|reflexivity]. Qed.

Lemma string_length_app (s1 s2 : string) :
  String.length (s1 ++ s2) = String.length s1 + String.length s2.
Proof.
  induction s1 as [|a s1 IH]; [reflexivity|].
  change (String a s1 ++ s2) with (String a (s1 ++ s2)).
  simpl. now rewrite IH.
Qed.

Lemma asset_url_fresh (p : string) : asset_url p ≠ p.
Proof.
  intros H. apply (f_equal String.length) in H.
  unfold asset_url in H. rewrite string_length_app in H. simpl in H. lia.
Qed.

Example resolveCover_samples :
  resolveCover asset_url (Some "https://img.example/a.png") = Some "https://img.example/a.png"
  /\ resolveCover asset_url (Some "/home/u/a.png") = Some "asset://localhost//home/u/a.png"
  /\ resolveCover asset_url (Some "httpx") = Some "asset://localhost/httpx".
Proof. repeat split; reflexivity. Qed.

(* ===================================================================== *)
(** ** Properties of the handlers *)
(* ===================================================================== *)

(** *** loadGames *)

Lemma or_null_carries (s : string) : carries s (Js.or_null s).
Proof. split; [apply or_null_None | apply or_null_Some]. Qed.

Lemma or_null_or_empty (o : option string) :
  suppliable o -> Js.or_null (Js.or_empty o) = o.
Proof.
  destruct o as [s|]; [|reflexivity]. intros H. simpl.
  apply or_null_Some. intros ->. now apply H.
Qed.

Lemma loadGames_events {B : Type} (serve : Backend B) (w : World B) :
  omap search_filter (events (loadGames serve) w)
  = [loadGames_filter (currentFilter (app w))].
Proof.
  unfold loadGames. run_handler. next_call.
  destruct r as [gs|e]; reflexivity.
Qed.

(** C1: the filter [loadGames] passes to [search_games] carries null in
    [query], [status], [platform], [franchise], [genre] exactly when the
    field of [currentFilter] is the empty string and the field's value
    otherwise, and always [sort_by] and [sort_asc]; every combination of
    supplied and omitted predicates is the filter of some [currentFilter]. *)
Theorem loadGames_sends_filter {B : Type}
    (serve : Backend B) :
  (forall w : World B, exists F : Filter.t,
      omap search_filter (events (loadGames serve) w) = [F]
      /\ carries (CurrentFilter.query (currentFilter (app w))) (Filter.query F)
      /\ carries (CurrentFilter.status (currentFilter (app w))) (Filter.status F)
      /\ carries (CurrentFilter.platform (currentFilter (app w))) (Filter.platform F)
      /\ carries (CurrentFilter.franchise (currentFilter (app w))) (Filter.franchise F)
      /\ carries (CurrentFilter.genre (currentFilter (app w))) (Filter.genre F)
      /\ Filter.sort_by F = CurrentFilter.sortBy (currentFilter (app w))
      /\ Filter.sort_asc F = CurrentFilter.sortAsc (currentFilter (app w)))
  /\ (forall (q s p f g : option string) (sort_by : string) (sort_asc : bool),
      suppliable q -> suppliable s -> suppliable p -> suppliable f ->
      suppliable g ->
      exists cf : CurrentFilter.t,
        loadGames_filter cf = Filter.mk q s p f g sort_by sort_asc).
Proof.
  split.
  - intros w. exists (loadGames_filter (currentFilter (app w))).
    split; [apply loadGames_events|].
    repeat split; try apply or_null_None; try apply or_null_Some.
  - intros q s p f g sb sa Hq Hs Hp Hf Hg.
    exists (CurrentFilter.mk (Js.or_empty q) (Js.or_empty s) (Js.or_empty p)
              (Js.or_empty f) (Js.or_empty g) sb sa).
    unfold loadGames_filter. simpl.
    now rewrite !or_null_or_empty.
Qed.

Example loadGames_filter_sample :
  loadGames_filter (CurrentFilter.mk "zelda" "" "Switch" "" "" "Title" true)
  = Filter.mk (Some "zelda") None (Some "Switch") None None "Title" true.
Proof. reflexivity. Qed.

(** *** renderGames *)

Lemma renderGames_displayed {B : Type} (w : World B) :
  displayed_games (page (after renderGames w))
  = view_games (activeView (app w)) (games (app w))
  /\ gameCount (page (after renderGames w))
     = count_text (length (view_games (activeView (app w)) (games (app w))))
  /\ app (after renderGames w) = app w
  /\ events renderGames w = [].
Proof.
  unfold renderGames. run_handler.
  case_bool_decide as Hlen; simpl; unfold displayed_games; simpl.
  - apply nil_length_inv in Hlen. now rewrite Hlen.
  - rewrite map_map. simpl. now rewrite map_id.
Qed.

Lemma view_games_nil (view : string) : view_games view [] = [].
Proof. unfold view_games. now repeat case_bool_decide. Qed.


Example count_text_samples :
  count_text 0 = "0 games" /\ count_text 1 = "1 game" /\ count_text 12 = "12 games".
Proof. repeat split; vm_compute; reflexivity. Qed.

Example view_games_samples :
  view_games "backlog" [playing_game; sample_game] = [sample_game]
  /\ view_games "wishlist" [playing_game; sample_game] = []
  /\ view_games "library" [playing_game; sample_game] = [playing_game; sample_game]
  /\ view_games "stats" [playing_game; sample_game] = [playing_game; sample_game].
Proof. repeat split; vm_compute; reflexivity. Qed.

Lemma renderGames_backlog_member {B : Type} (w : World B) (g : Game.t) :
  activeView (app w) = "backlog" ->
  g ∈ displayed_games (page (after renderGames w))
  <-> g ∈ games (app w) /\ Game.status g = "Backlog".
Proof.
  intros Hv. destruct (renderGames_displayed w) as (-> & _).
  unfold view_games. rewrite Hv. simpl.
  rewrite list_elem_of_filter. tauto.
Qed.

(** *** Sequencing *)

Lemma after_bind {B A C : Type} (m : M B A) (k : A -> M B C) (w : World B) :
  after (m ≫= k) w = after (k (m w).1.1) (after m w).
Proof.
  unfold after, mbind, M_bind.
  destruct (m w) as [[a w1] l1]. simpl.
  now destruct (k a w1) as [[c w2] l2].
Qed.

Lemma events_bind {B A C : Type} (m : M B A) (k : A -> M B C) (w : World B) :
  events (m ≫= k) w = (events m w ++ events (k (m w).1.1) (after m w))%list.
Proof.
  unfold events, after, mbind, M_bind.
  destruct (m w) as [[a w1] l1]. simpl.
  now destruct (k a w1) as [[c w2] l2].
Qed.

(** *** loadGames, on rejection *)

Lemma loadGames_rejected {B : Type} (serve : Backend B) (w : World B) (e : string) (b' : B) :
  serve (list Game.t)
        (SearchGames (loadGames_filter (currentFilter (app w)))) (backend w)
  = (Err e, b') ->
  events (loadGames serve) w
  = [ EInvoke (SearchGames (loadGames_filter (currentFilter (app w))));
      EConsoleError "search_games failed:" e;
      EToast "Failed to load games" "error" ]
  /\ app (after (loadGames serve) w) = set_games [] (app w).
Proof.
  intros H. unfold loadGames. run_handler. rewrite H. now split.
Qed.


(** C8: when [search_games] rejects, [loadGames] logs the error, shows the
    error toast and empties [state.games]; the render that follows shows no
    card and a count of zero, so no stale result is displayed. *)
Theorem loadGames_reject_reported {B : Type}
    (serve : Backend B)
    (w : World B) (e : string) (b' : B) :
  serve (list Game.t)
        (SearchGames (loadGames_filter (currentFilter (app w)))) (backend w)
  = (Err e, b') ->
  events (loadGames serve) w
  = [ EInvoke (SearchGames (loadGames_filter (currentFilter (app w))));
      EConsoleError "search_games failed:" e;
      EToast "Failed to load games" "error" ]
  /\ games (app (after (loadGames serve) w)) = []
  /\ displayed_games (page (after (refresh serve false) w)) = []
  /\ gameCount (page (after (refresh serve false) w)) = "0 games".
Proof.
  intros H. destruct (loadGames_rejected serve w e b' H) as [Hev Happ].
  split; [exact Hev|]. split; [now rewrite Happ|].
  unfold refresh. rewrite !after_bind.
  change (after (mret ()) ?x) with x.
  destruct (renderGames_displayed (after (loadGames serve) w)) as (-> & -> & _).
  rewrite Happ. simpl. rewrite view_games_nil. now split.
Qed.

Lemma loadGames_reject_reported_witness :
  events (loadGames failing_backend) sample_world
  = [ EInvoke (SearchGames (loadGames_filter (currentFilter sample_state)));
      EConsoleError "search_games failed:" "database is locked";
      EToast "Failed to load games" "error" ]
  /\ games (app (after (loadGames failing_backend) sample_world)) = []
  /\ displayed_games (page (after (refresh failing_backend false) sample_world)) = []
  /\ gameCount (page (after (refresh failing_backend false) sample_world)) = "0 games".
Proof.
  exact (loadGames_reject_reported failing_backend sample_world
           "database is locked" tt eq_refl).
Defined.

(** Every rejected call of the modelled handlers leaves a console entry:
    [loadMeta] and [renderStats] log, the submit handler logs and toasts. *)
Lemma renderStats_rejected {B : Type} (serve : Backend B) (w : World B) (e : string) (b' : B) :
  serve Stats.t GetStats (backend w) = (Err e, b') ->
  events (renderStats serve) w
  = [EInvoke GetStats; EConsoleError "get_stats failed:" e]
  /\ statsGrid (page (after (renderStats serve) w)) = StatsError.
Proof.
  intros H. unfold renderStats. run_handler. rewrite H. now split.
Qed.

(** *** Genre tags of the form *)

Lemma genreInput_keydown_formGenres {B : Type} (w : World B) (key : string) :
  formGenres (app (after (genreInput_keydown key) w)) = formGenres (app w)
  \/ ((Js.trim (genreInput (page w)) ∉ formGenres (app w))
      /\ formGenres (app (after (genreInput_keydown key) w))
         = (formGenres (app w) ++ [Js.trim (genreInput (page w))])%list).
Proof.
  unfold genreInput_keydown.
  destruct (bool_decide (key = "Enter") || bool_decide (key = ",")); [|now left].
  run_handler.
  destruct (Js.truthy (Js.trim (genreInput (page w)))); simpl; [|now left].
  case_bool_decide as Hin; simpl; [now left|].
  right. now split.
Qed.

Lemma tag_remove_click_formGenres {B : Type} (w : World B) (genre : string) :
  formGenres (app (after (tag_remove_click genre) w))
  = filter (fun x => x ≠ genre) (formGenres (app w)).
Proof. reflexivity. Qed.

Lemma statusPicker_click_app {B : Type} (w : World B) (target : option nat) :
  app (after (statusPicker_click target) w) = app w.
Proof.
  destruct target as [i|]; [|reflexivity].
  unfold statusPicker_click. run_handler. now case_bool_decide.
Qed.

Lemma form_action_NoDup {B : Type} (w : World B) (a : FormAction) :
  NoDup (formGenres (app w)) ->
  NoDup (formGenres (app (after (form_action a) w))).
Proof.
  intros Hnd. destruct a as [text|key|genre|target|f]; cbn [form_action].
  - exact Hnd.
  - destruct (genreInput_keydown_formGenres w key) as [->|[Hnew ->]]; [exact Hnd|].
    apply NoDup_app. split; [exact Hnd|]. split; [|apply NoDup_singleton].
    intros x Hx Hx'. apply list_elem_of_singleton in Hx'. now subst.
  - rewrite tag_remove_click_formGenres. now apply NoDup_filter.
  - now rewrite statusPicker_click_app.
  - exact Hnd.
Qed.

Lemma form_actions_NoDup {B : Type} (acts : list FormAction) (w : World B) :
  NoDup (formGenres (app w)) ->
  NoDup (formGenres (app (after (form_actions acts) w))).
Proof.
  revert w. induction acts as [|a acts IH]; intros w Hnd; [exact Hnd|].
  cbn [form_actions]. rewrite after_bind. apply IH. now apply form_action_NoDup.
Qed.

Lemma openModal_formGenres {B : Type} (w : World B) (id : option Z) :
  formGenres (app (after (openModal id) w))
  = match edited_game id (app w) with
    | Some game => Game.genres game
    | None => []
    end.
Proof.
  unfold openModal, edited_game, renderFormGenres. run_handler.
  destruct (truthy_id id) as [n|]; simpl; [|reflexivity].
  destruct (List.find _ _) as [game|]; simpl; [|reflexivity].
  destruct (_ && _); simpl; destruct (Game.rating game); reflexivity.
Qed.

(** A value already present is never appended again. *)
Lemma genreInput_keydown_present {B : Type} (w : World B) (key : string) :
  Js.trim (genreInput (page w)) ∈ formGenres (app w) ->
  formGenres (app (after (genreInput_keydown key) w)) = formGenres (app w).
Proof.
  intros Hin.
  destruct (genreInput_keydown_formGenres w key) as [H|[Hnew _]]; [exact H|].
  contradiction.
Qed.

(** *** Form submit *)

Lemma set_cover_art_path_same (i : Input.t) :
  Input.set_cover_art_path (Input.cover_art_path i) i = i.
Proof. now destruct i. Qed.

Lemma process_cover_result {B : Type} (serve : Backend B) (w : World B)
    (input : Input.t) :
  (exists c, (process_cover serve input w).1.1 = Input.set_cover_art_path c input)
  /\ app (after (process_cover serve input) w) = app w
  /\ page (after (process_cover serve input) w) = page w
  /\ omap saved_input (events (process_cover serve input) w) = [].
Proof.
  unfold process_cover.
  destruct (Input.cover_art_path input) as [path|] eqn:Hc.
  - run_handler. next_call. destruct r as [p'|e]; simpl; eauto 6.
  - run_handler. repeat split; trivial.
    exists None. rewrite <- Hc. symmetry. apply set_cover_art_path_same.
Qed.

Lemma loadMeta_saves_nothing {B : Type} (serve : Backend B) (w : World B) :
  omap saved_input (events (loadMeta serve) w) = [].
Proof.
  unfold loadMeta. run_handler. do 3 next_call.
  destruct r as [?|?], r0 as [?|?], r1 as [?|?]; reflexivity.
Qed.

Lemma loadGames_saves_nothing {B : Type} (serve : Backend B) (w : World B) :
  omap saved_input (events (loadGames serve) w) = [].
Proof.
  unfold loadGames. run_handler. next_call. destruct r as [?|?]; reflexivity.
Qed.

Lemma refresh_saves_nothing {B : Type} (serve : Backend B) (w : World B)
    (reloadMeta : bool) :
  omap saved_input (events (refresh serve reloadMeta) w) = [].
Proof.
  unfold refresh. rewrite !events_bind, !omap_app.
  rewrite loadGames_saves_nothing.
  destruct (renderGames_displayed (after (loadGames serve) w)) as (_ & _ & _ & ->).
  destruct reloadMeta; [now rewrite loadMeta_saves_nothing|reflexivity].
Qed.

Lemma events_invoke {B A : Type} (serve : Backend B) (c : Command A) (w : World B) :
  events (invoke serve c) w = [EInvoke c].
Proof. unfold events, invoke. now destruct (serve A c (backend w)). Qed.

(** The submit handler issues exactly one save: [update_game] on the id
    being edited, [add_game] when there is none, with the form's input
    (its cover path possibly replaced by the processed one). *)
Lemma gameForm_submit_saves {B : Type} (serve : Backend B) (w : World B) :
  exists c,
    omap saved_input (events (gameForm_submit serve) w)
    = [ (truthy_id (editingGameId (app w)),
         Input.set_cover_art_path c (form_input (app w) (page w))) ].
Proof.
  unfold gameForm_submit.
  rewrite events_bind. change (events get_app w) with (@nil Event).
  change (after get_app w) with w. change ((get_app w).1.1) with (app w).
  rewrite events_bind. change (events get_page w) with (@nil Event).
  change (after get_page w) with w. change ((get_page w).1.1) with (page w).
  rewrite events_bind.
  destruct (process_cover_result serve w (form_input (app w) (page w)))
    as ((c & ->) & Happ & _ & Hev).
  exists c. rewrite !omap_app, Hev. simpl.
  set (w1 := after (process_cover serve (form_input (app w) (page w))) w) in *.
  rewrite events_bind. change (events get_app w1) with (@nil Event).
  change (after get_app w1) with w1. change ((get_app w1).1.1) with (app w1).
  rewrite Happ. simpl.
  destruct (truthy_id (editingGameId (app w))) as [id|].
  - rewrite events_bind, omap_app.
    rewrite events_invoke. cbn [omap list_omap saved_input].
    destruct ((invoke serve (UpdateGame id _) w1).1.1) as [g|err].
    + rewrite !events_bind, !omap_app, refresh_saves_nothing. reflexivity.
    + reflexivity.
  - rewrite events_bind, omap_app.
    rewrite events_invoke. cbn [omap list_omap saved_input].
    destruct ((invoke serve (AddGame _) w1).1.1) as [g|err].
    + rewrite !events_bind, !omap_app, refresh_saves_nothing. reflexivity.
    + reflexivity.
Qed.

Lemma openModal_form {B : Type} (w : World B) (id : option Z) :
  form (page (after (openModal id) w))
  = match edited_game id (app w) with
    | Some game => fill_form game
    | None => form_defaults (page w)
    end.
Proof.
  unfold openModal, edited_game, renderFormGenres. run_handler.
  destruct (truthy_id id) as [n|]; simpl; [|reflexivity].
  destruct (List.find _ _) as [game|]; simpl; [|reflexivity].
  destruct (_ && _); simpl; destruct (Game.rating game); reflexivity.
Qed.

Lemma openModal_editingGameId {B : Type} (w : World B) (id : option Z) :
  editingGameId (app (after (openModal id) w)) = id.
Proof.
  unfold openModal, renderFormGenres. run_handler.
  destruct (truthy_id id) as [n|]; simpl; [|reflexivity].
  destruct (List.find _ _) as [game|]; simpl; [|reflexivity].
  destruct (_ && _); simpl; destruct (Game.rating game); reflexivity.
Qed.

Lemma openModal_statusPicker {B : Type} (w : World B) (id : option Z) :
  statusPicker (page (after (openModal id) w))
  = match edited_game id (app w) with
    | Some game =>
        toggle_status (Game.status game)
          (toggle_status "NotStarted" (statusPicker (page w)))
    | None => toggle_status "NotStarted" (statusPicker (page w))
    end.
Proof.
  unfold openModal, edited_game, renderFormGenres. run_handler.
  destruct (truthy_id id) as [n|]; simpl; [|reflexivity].
  destruct (List.find _ _) as [game|]; simpl; [|reflexivity].
  destruct (_ && _); simpl; destruct (Game.rating game); reflexivity.
Qed.

(** C5: after [openModal] and any sequence of actions in the form, among
    them genre additions and removals, [state.formGenres] has no duplicate,
    and so has the [genres] list the submit handler sends, provided the
    genres of the game loaded into the form were distinct. *)
Theorem formGenres_NoDup {B : Type} (serve : Backend B) (w : World B)
    (id : option Z) (acts : list FormAction) :
  (forall game, edited_game id (app w) = Some game -> NoDup (Game.genres game)) ->
  NoDup (formGenres (app (after (openModal id;; form_actions acts) w)))
  /\ exists oid inp,
       omap saved_input
         (events (gameForm_submit serve) (after (openModal id;; form_actions acts) w))
       = [(oid, inp)]
       /\ NoDup (Input.genres inp).
Proof.
  intros Hgame.
  assert (Hnd : NoDup (formGenres (app (after (openModal id;; form_actions acts) w)))).
  { rewrite after_bind. apply form_actions_NoDup.
    rewrite openModal_formGenres.
    destruct (edited_game id (app w)) as [game|]; [now apply Hgame|constructor]. }
  split; [exact Hnd|].
  destruct (gameForm_submit_saves serve (after (openModal id;; form_actions acts) w))
    as (c & ->).
  eexists _, _. split; [reflexivity|]. exact Hnd.
Qed.

Example sample_actions_formGenres :
  formGenres (app (after (openModal (Some 7%Z);; form_actions sample_actions) sample_world))
  = ["Indie"; "RPG"].
Proof. vm_compute. reflexivity. Qed.

Lemma formGenres_NoDup_witness :
  NoDup (formGenres
           (app (after (openModal (Some 7%Z);; form_actions sample_actions) sample_world)))
  /\ exists oid inp,
       omap saved_input
         (events (gameForm_submit failing_backend)
            (after (openModal (Some 7%Z);; form_actions sample_actions) sample_world))
       = [(oid, inp)]
       /\ NoDup (Input.genres inp).
Proof.
  apply (formGenres_NoDup failing_backend sample_world (Some 7%Z) sample_actions).
  intros game Hg. vm_compute in Hg. injection Hg as <-. simpl.
  apply (bool_decide_unpack _). vm_compute. exact I.
Defined.

(** *** Status picker *)

Lemma picked_status_none (opts : list StatusOpt.t) :
  (forall b, b ∈ opts -> StatusOpt.active b = false) ->
  picked_status opts = "NotStarted".
Proof.
  intros Hall. unfold picked_status.
  destruct (List.find StatusOpt.active opts) as [b|] eqn:Hf; [|reflexivity].
  apply List.find_some in Hf as [Hin Hact].
  apply list_elem_of_In, Hall in Hin. congruence.
Qed.

Lemma picked_status_first (opts : list StatusOpt.t) (b : StatusOpt.t) (v : string) :
  List.find StatusOpt.active opts = Some b ->
  StatusOpt.val b = Some v ->
  picked_status opts = v.
Proof. intros Hf Hv. unfold picked_status. rewrite Hf. simpl. now rewrite Hv. Qed.

Lemma picked_status_only (opts : list StatusOpt.t) (b : StatusOpt.t) (v : string) :
  b ∈ opts -> StatusOpt.active b = true -> StatusOpt.val b = Some v ->
  (forall b', b' ∈ opts -> StatusOpt.active b' = true -> b' = b) ->
  picked_status opts = v.
Proof.
  intros Hin Hact Hv Honly.
  destruct (List.find StatusOpt.active opts) as [b'|] eqn:Hf.
  - pose proof Hf as Hf'. apply List.find_some in Hf' as [Hin' Hact'].
    apply list_elem_of_In in Hin'. rewrite (Honly b' Hin' Hact') in Hf.
    now apply (picked_status_first opts b v).
  - apply list_elem_of_In in Hin.
    pose proof (List.find_none _ _ Hf b Hin). congruence.
Qed.

(** C6: the status of the input the submit handler sends is "NotStarted"
    when no option of the picker is active, and the [data-val] of the active
    option when there is one (the first in document order, which is the only
    one when a single option is active). *)
Theorem submit_status_default {B : Type} (serve : Backend B) (w : World B) :
  exists oid inp,
    omap saved_input (events (gameForm_submit serve) w) = [(oid, inp)]
    /\ ((forall b, b ∈ statusPicker (page w) -> StatusOpt.active b = false) ->
        Input.status inp = "NotStarted")
    /\ (forall b v,
          List.find StatusOpt.active (statusPicker (page w)) = Some b ->
          StatusOpt.val b = Some v ->
          Input.status inp = v)
    /\ (forall b v,
          b ∈ statusPicker (page w) ->
          StatusOpt.active b = true ->
          StatusOpt.val b = Some v ->
          (forall b', b' ∈ statusPicker (page w) ->
                      StatusOpt.active b' = true -> b' = b) ->
          Input.status inp = v).
Proof.
  destruct (gameForm_submit_saves serve w) as (c & ->).
  eexists _, _. split; [reflexivity|]. simpl.
  split; [apply picked_status_none|].
  split; [apply picked_status_first|apply picked_status_only].
Qed.

Example submit_status_samples :
  picked_status sample_picker = "NotStarted"
  /\ picked_status (toggle_status "Wishlist" sample_picker) = "Wishlist"
  /\ picked_status (toggle_status "Paused" sample_picker) = "NotStarted"
  /\ picked_status [StatusOpt.mk None true; StatusOpt.mk (Some "Playing") true]
     = "NotStarted".
Proof. repeat split; reflexivity. Qed.

(** *** Progress *)





Example submit_progress_samples :
  Js.parseFloat "62" = Js.Dec false 62 0
  /\ Js.literal "62" = Some (false, 62%N, 0%Z)
  /\ Js.literal "" = None
  /\ Js.json_number (Js.parseFloat "") = None
  /\ Js.literal "1e400" = Some (false, 1%N, 400%Z)
  /\ Js.overflows 1 400 = true.
Proof. repeat split; vm_compute; reflexivity. Qed.

(* ===================================================================== *)
(** ** Statistics *)
(* ===================================================================== *)

Lemma by_status_lookup (games : list Game.t) (s : string) :
  s ∈ statuses ->
  Repository.by_status games !! Repository.status_key s
  = Some (Repository.count_status s games).
Proof.
  unfold statuses, Repository.by_status. intros H. simpl.
  repeat (apply elem_of_cons in H as [->|H]; [now simplify_map_eq|]).
  now apply elem_of_nil in H.
Qed.

Lemma renderStats_resolved {B : Type} (serve : Backend B) (w : World B)
    (stats : Stats.t) (b' : B) :
  serve Stats.t GetStats (backend w) = (Ok stats, b') ->
  statsGrid (page (after (renderStats serve) w))
  = StatsCards (Stats.total_games stats) (status_breakdown (Stats.by_status stats)).
Proof. intros H. unfold renderStats. run_handler. now rewrite H. Qed.

(** C7: the [by_status] object of the statistics holds a count for each of
    the six status values, zero when no game has it, and [renderStats]
    displays exactly these six counts. *)
Theorem by_status_six_counts {B : Type} (serve : Backend B) (w : World B)
    (games : list Game.t) (stats : Stats.t) (b' : B) :
  Stats.by_status stats = Repository.by_status games ->
  serve Stats.t GetStats (backend w) = (Ok stats, b') ->
  (forall s, s ∈ statuses ->
     Stats.by_status stats !! Repository.status_key s
     = Some (Repository.count_status s games))
  /\ (games = [] ->
      forall s, s ∈ statuses ->
        Stats.by_status stats !! Repository.status_key s = Some 0)
  /\ statsGrid (page (after (renderStats serve) w))
     = StatsCards (Stats.total_games stats)
         [ ("Playing", pretty (Repository.count_status "Playing" games));
           ("Completed", pretty (Repository.count_status "Completed" games));
           ("Backlog", pretty (Repository.count_status "Backlog" games));
           ("Wishlist", pretty (Repository.count_status "Wishlist" games));
           ("Dropped", pretty (Repository.count_status "Dropped" games));
           ("Not Started", pretty (Repository.count_status "NotStarted" games)) ].
Proof.
  intros Hby Hserve. split; [|split].
  - intros s Hs. rewrite Hby. now apply by_status_lookup.
  - intros -> s Hs. rewrite Hby. now rewrite by_status_lookup.
  - rewrite (renderStats_resolved serve w stats b' Hserve), Hby.
    unfold status_breakdown.
    change "playing" with (Repository.status_key "Playing").
    change "completed" with (Repository.status_key "Completed").
    change "backlog" with (Repository.status_key "Backlog").
    change "wishlist" with (Repository.status_key "Wishlist").
    change "dropped" with (Repository.status_key "Dropped").
    change "not_started" with (Repository.status_key "NotStarted").
    rewrite !by_status_lookup;
      [reflexivity|unfold statuses; rewrite !elem_of_cons; tauto..].
Qed.

Lemma by_status_six_counts_witness :
  (forall s, s ∈ statuses ->
     Stats.by_status sample_stats !! Repository.status_key s
     = Some (Repository.count_status s [sample_game]))
  /\ ([sample_game] = [] ->
      forall s, s ∈ statuses ->
        Stats.by_status sample_stats !! Repository.status_key s = Some 0)
  /\ statsGrid (page (after (renderStats (stats_backend sample_stats)) sample_world))
     = StatsCards (Stats.total_games sample_stats)
         [ ("Playing", pretty (Repository.count_status "Playing" [sample_game]));
           ("Completed", pretty (Repository.count_status "Completed" [sample_game]));
           ("Backlog", pretty (Repository.count_status "Backlog" [sample_game]));
           ("Wishlist", pretty (Repository.count_status "Wishlist" [sample_game]));
           ("Dropped", pretty (Repository.count_status "Dropped" [sample_game]));
           ("Not Started", pretty (Repository.count_status "NotStarted" [sample_game])) ].
Proof.
  exact (by_status_six_counts (stats_backend sample_stats) sample_world
           [sample_game] sample_stats tt eq_refl eq_refl).
Defined.

Example renderStats_sample :
  statsGrid (page (after (renderStats (stats_backend sample_stats)) sample_world))
  = StatsCards 1
      [ ("Playing", "0"); ("Completed", "0"); ("Backlog", "1");
        ("Wishlist", "0"); ("Dropped", "0"); ("Not Started", "0") ].
Proof. vm_compute. reflexivity. Qed.

(** The keys of [by_status] are the six names and no other. *)
Lemma by_status_keys (games : list Game.t) (k : string) :
  is_Some (Repository.by_status games !! k)
  <-> k ∈ map Repository.status_key statuses.
Proof.
  unfold Repository.by_status.
  rewrite <- elem_of_dom, dom_list_to_map_L, elem_of_list_to_set.
  reflexivity.
Qed.

(** A missing key would be rendered as the text "undefined". *)
Example status_breakdown_missing :
  status_breakdown (delete "dropped" (Repository.by_status []))
  = [ ("Playing", "0"); ("Completed", "0"); ("Backlog", "0");
      ("Wishlist", "0"); ("Dropped", "undefined"); ("Not Started", "0") ].
Proof. vm_compute. reflexivity. Qed.

Lemma loadGames_sends_filter_witness :
  exists cf : CurrentFilter.t,
    loadGames_filter cf
    = Filter.mk (Some "zelda") None (Some "Switch") None None "Title" true.
Proof.
  apply (proj2 (loadGames_sends_filter failing_backend));
    unfold suppliable; discriminate.
Defined.


Lemma submit_status_default_witness :
  exists oid inp,
    omap saved_input (events (gameForm_submit failing_backend) wishlist_world)
    = [(oid, inp)]
    /\ Input.status inp = "Wishlist".
Proof.
  destruct (submit_status_default failing_backend wishlist_world)
    as (oid & inp & Hev & _ & Hfirst & _).
  exists oid, inp. split; [exact Hev|].
  apply (Hfirst (StatusOpt.mk (Some "Wishlist") true)); reflexivity.
Defined.

(** A click on the option at position [i] leaves it the only active one,
    so its [data-val] is the status submitted. *)
Lemma find_active_imap (opts : list StatusOpt.t) (i : nat) :
  List.find StatusOpt.active
    (imap (fun j b => StatusOpt.mk (StatusOpt.val b) (bool_decide (j = i))) opts)
  = (fun b => StatusOpt.mk (StatusOpt.val b) true) <$> opts !! i.
Proof.
  revert i. induction opts as [|x l IH]; intros i; [reflexivity|].
  rewrite imap_cons. destruct i as [|i]; [reflexivity|].
  cbn [List.find StatusOpt.active]. rewrite bool_decide_eq_false_2 by discriminate.
  cbn [lookup list_lookup]. rewrite <- IH.
  f_equal. apply imap_ext. intros j b _. simpl. f_equal.
  apply bool_decide_ext. lia.
Qed.

Lemma statusPicker_click_picks {B : Type} (w : World B) (i : nat)
    (b : StatusOpt.t) (v : string) :
  statusPicker (page w) !! i = Some b ->
  StatusOpt.val b = Some v ->
  picked_status (statusPicker (page (after (statusPicker_click (Some i)) w))) = v.
Proof.
  intros Hi Hv. unfold statusPicker_click. run_handler.
  rewrite bool_decide_eq_true_2 by (now apply lookup_lt_Some in Hi).
  simpl. unfold picked_status. rewrite find_active_imap, Hi. simpl.
  now rewrite Hv.
Qed.

(* ===================================================================== *)
(** ** Every outcome is reported *)
(* ===================================================================== *)

(** [loadMeta] either stores the three lists or logs the rejection. *)
Lemma loadMeta_reported {B : Type} (serve : Backend B) (w : World B) :
  (exists ps fs gs,
      app (after (loadMeta serve) w) = set_meta ps fs gs (app w)
      /\ events (loadMeta serve) w
         = [EInvoke GetPlatforms; EInvoke GetFranchises; EInvoke GetGenres])
  \/ (exists e,
      app (after (loadMeta serve) w) = app w
      /\ events (loadMeta serve) w
         = [ EInvoke GetPlatforms; EInvoke GetFranchises; EInvoke GetGenres;
             EConsoleError "loadMeta failed:" e ]).
Proof.
  unfold loadMeta. run_handler. do 3 next_call.
  destruct r as [ps|e], r0 as [fs|e0], r1 as [gs|e1]; simpl; eauto 8.
Qed.

(** The submit handler ends with a success toast, or with a console entry
    and the failure toast. *)
Lemma gameForm_submit_reported {B : Type} (serve : Backend B) (w : World B) :
  (exists msg, EToast msg "success" ∈ events (gameForm_submit serve) w)
  \/ (exists err,
        EConsoleError "save failed:" err ∈ events (gameForm_submit serve) w
        /\ EToast "Failed to save game" "error" ∈ events (gameForm_submit serve) w).
Proof.
  unfold gameForm_submit.
  rewrite events_bind. change (events get_app w) with (@nil Event).
  change (after get_app w) with w. change ((get_app w).1.1) with (app w).
  rewrite events_bind. change (events get_page w) with (@nil Event).
  change (after get_page w) with w. change ((get_page w).1.1) with (page w).
  rewrite events_bind.
  set (w1 := after (process_cover serve (form_input (app w) (page w))) w).
  set (input := (process_cover serve (form_input (app w) (page w)) w).1.1).
  rewrite events_bind. change (events get_app w1) with (@nil Event).
  change (after get_app w1) with w1. change ((get_app w1).1.1) with (app w1).
  destruct (truthy_id (editingGameId (app w1))) as [id|].
  - rewrite events_bind.
    destruct ((invoke serve (UpdateGame id input) w1).1.1) as [g|err].
    + left. exists "Game updated!". rewrite events_bind.
      change (events (showToast "Game updated!" "success") ?x)
        with [EToast "Game updated!" "success"].
      rewrite !elem_of_app, !list_elem_of_singleton. auto 8.
    + right. exists err. unfold save_failed.
      rewrite !elem_of_app. split; right; right; right; right; run_handler;
        rewrite !elem_of_cons; auto.
  - rewrite events_bind.
    destruct ((invoke serve (AddGame input) w1).1.1) as [g|err].
    + left. exists "Game added!". rewrite events_bind.
      change (events (showToast "Game added!" "success") ?x)
        with [EToast "Game added!" "success"].
      rewrite !elem_of_app, !list_elem_of_singleton. auto 8.
    + right. exists err. unfold save_failed.
      rewrite !elem_of_app. split; right; right; right; right; run_handler;
        rewrite !elem_of_cons; auto.
Qed.

(* ===================================================================== *)
(** ** Sequencing over the whole page *)
(* ===================================================================== *)

Lemma ui_after_bind {B A C : Type} (m : U B A) (k : A -> U B C) (u : Ui B) :
  ui_after (m ≫= k) u = ui_after (k (m u).1.1) (ui_after m u).
Proof.
  unfold ui_after, mbind, U_bind.
  destruct (m u) as [[a u1] l1]. simpl.
  now destruct (k a u1) as [[c u2] l2].
Qed.

Lemma ui_events_bind {B A C : Type} (m : U B A) (k : A -> U B C) (u : Ui B) :
  ui_events (m ≫= k) u
  = (ui_events m u ++ ui_events (k (m u).1.1) (ui_after m u))%list.
Proof.
  unfold ui_events, ui_after, mbind, U_bind.
  destruct (m u) as [[a u1] l1]. simpl.
  now destruct (k a u1) as [[c u2] l2].
Qed.

Lemma lift_after {B A : Type} (m : M B A) (u : Ui B) :
  ui_after (lift m) u = mkUi (after m (world u)) (shell u).
Proof. unfold ui_after, lift, after. now destruct (m (world u)) as [[a w] l]. Qed.

Lemma lift_events {B A : Type} (m : M B A) (u : Ui B) :
  ui_events (lift m) u = events m (world u).
Proof. unfold ui_events, lift, events. now destruct (m (world u)) as [[a w] l]. Qed.

Lemma lift_value {B A : Type} (m : M B A) (u : Ui B) :
  (lift m u).1.1 = (m (world u)).1.1.
Proof. unfold lift. now destruct (m (world u)) as [[a w] l]. Qed.

(* ===================================================================== *)
(** ** What a refresh changes *)
(* ===================================================================== *)

Lemma set_meta_same (s : State) :
  set_meta (allPlatforms s) (allFranchises s) (allGenres s) s = s.
Proof. now destruct s. Qed.

Lemma loadGames_app {B : Type} (serve : Backend B) (w : World B) :
  exists gs, app (after (loadGames serve) w) = set_games gs (app w).
Proof.
  unfold loadGames. run_handler. next_call.
  destruct r as [gs|e]; simpl; eauto.
Qed.

Lemma loadGames_page {B : Type} (serve : Backend B) (w : World B) :
  page (after (loadGames serve) w) = page w.
Proof.
  unfold loadGames. run_handler. next_call. now destruct r as [gs|e].
Qed.

Lemma loadMeta_app {B : Type} (serve : Backend B) (w : World B) :
  exists ps fs gs, app (after (loadMeta serve) w) = set_meta ps fs gs (app w).
Proof.
  destruct (loadMeta_reported serve w) as [(ps & fs & gs & -> & _)|(e & -> & _)].
  - eauto.
  - eexists _, _, _. symmetry. apply set_meta_same.
Qed.

Lemma loadMeta_page {B : Type} (serve : Backend B) (w : World B) :
  page (after (loadMeta serve) w) = page w.
Proof.
  unfold loadMeta. run_handler. do 3 next_call.
  now destruct r as [?|?], r0 as [?|?], r1 as [?|?].
Qed.

Lemma loadMeta_searches_nothing {B : Type} (serve : Backend B) (w : World B) :
  omap search_filter (events (loadMeta serve) w) = [].
Proof.
  unfold loadMeta. run_handler. do 3 next_call.
  destruct r as [?|?], r0 as [?|?], r1 as [?|?]; reflexivity.
Qed.

Lemma renderGames_page {B : Type} (w : World B) :
  page (after renderGames w)
  = if bool_decide (length (view_games (activeView (app w)) (games (app w))) = 0)
    then set_emptyHidden false
           (set_gameGrid []
              (set_gameCount
                 (count_text (length (view_games (activeView (app w)) (games (app w)))))
                 (page w)))
    else set_gameGrid
           (map (mkCard (isListView (app w)))
                (view_games (activeView (app w)) (games (app w))))
           (set_gridListView (isListView (app w))
              (set_emptyHidden true
                 (set_gameCount
                    (count_text (length (view_games (activeView (app w)) (games (app w)))))
                    (page w)))).
Proof. unfold renderGames. run_handler. now case_bool_decide. Qed.

(** After a refresh the state differs from the one before in [games] and
    the three lists only, and the grid shows the view's share of the games
    just stored. *)
Lemma refresh_app {B : Type} (serve : Backend B) (w : World B) (reloadMeta : bool) :
  exists gs ps fs ags,
    app (after (refresh serve reloadMeta) w)
    = set_meta ps fs ags (set_games gs (app w)).
Proof.
  unfold refresh. rewrite !after_bind.
  destruct (loadGames_app serve w) as (gs & Hg).
  set (w1 := after (loadGames serve) w) in *.
  destruct (renderGames_displayed w1) as (_ & _ & Hr & _).
  set (w2 := after renderGames w1) in *.
  destruct reloadMeta.
  - destruct (loadMeta_app serve w2) as (ps & fs & ags & ->).
    rewrite Hr, Hg. eauto.
  - change (after (mret ()) w2) with w2. rewrite Hr, Hg.
    eexists _, _, _, _. symmetry. apply set_meta_same.
Qed.

Lemma refresh_page {B : Type} (serve : Backend B) (w : World B) (reloadMeta : bool) :
  page (after (refresh serve reloadMeta) w)
  = page (after renderGames (after (loadGames serve) w)).
Proof.
  unfold refresh. rewrite !after_bind.
  destruct reloadMeta; [apply loadMeta_page|reflexivity].
Qed.

Lemma refresh_searches {B : Type} (serve : Backend B) (w : World B) (reloadMeta : bool) :
  omap search_filter (events (refresh serve reloadMeta) w)
  = [loadGames_filter (currentFilter (app w))].
Proof.
  unfold refresh. rewrite !events_bind, !omap_app, loadGames_events.
  destruct (renderGames_displayed (after (loadGames serve) w)) as (_ & _ & _ & ->).
  destruct reloadMeta; [now rewrite loadMeta_searches_nothing|reflexivity].
Qed.

Lemma refresh_games {B : Type} (serve : Backend B) (w : World B) (reloadMeta : bool) :
  games (app (after (refresh serve reloadMeta) w))
  = games (app (after (loadGames serve) w)).
Proof.
  unfold refresh. rewrite !after_bind.
  set (w1 := after (loadGames serve) w).
  destruct (renderGames_displayed w1) as (_ & _ & Hr & _).
  destruct reloadMeta.
  - destruct (loadMeta_app serve (after renderGames w1)) as (ps & fs & ags & ->).
    simpl. now rewrite Hr.
  - change (after (mret ()) ?x) with x. now rewrite Hr.
Qed.

(* ===================================================================== *)
(** ** Search, sort and status filter *)
(* ===================================================================== *)

Lemma trimStart_all_space (s : string) : all_space s = true -> Js.trimStart s = "".
Proof.
  induction s as [|c r IH]; [reflexivity|]. simpl.
  intros [Hc Hr]%andb_true_iff. rewrite Hc. now apply IH.
Qed.

Lemma trimEnd_empty (s : string) : Js.trimEnd s = "" -> all_space s = true.
Proof.
  induction s as [|c r IH]; [reflexivity|]. simpl.
  destruct (Js.trimEnd r) as [|c' r'] eqn:Hr; [|discriminate].
  destruct (Js.is_space c); [|discriminate]. intros _. now apply IH.
Qed.

Lemma trimStart_head (s : string) :
  match Js.trimStart s with
  | EmptyString => all_space s = true
  | String c _ => Js.is_space c = false
  end.
Proof.
  induction s as [|c r IH]; [reflexivity|]. simpl.
  destruct (Js.is_space c) eqn:Hc; [|exact Hc].
  destruct (Js.trimStart r); [exact IH|exact IH].
Qed.

(** [trim] yields the empty text exactly on white space. *)
Lemma trim_empty_iff (s : string) : Js.trim s = "" <-> all_space s = true.
Proof.
  unfold Js.trim. split.
  - intros H. apply trimEnd_empty in H.
    pose proof (trimStart_head s) as Hh.
    destruct (Js.trimStart s) as [|c r]; [exact Hh|].
    simpl in H. apply andb_true_iff in H as [Hc _]. congruence.
  - intros H. now rewrite trimStart_all_space.
Qed.

(** A handler that rewrites the filter and refreshes issues one search,
    with the rewritten filter, and leaves that filter in the state. *)
Lemma set_filter_refresh {B : Type} (serve : Backend B) (w : World B)
    (g : CurrentFilter.t -> CurrentFilter.t) :
  omap search_filter
    (events (update_app (fun st => set_currentFilter (g (currentFilter st)) st);;
             refresh serve false) w)
  = [loadGames_filter (g (currentFilter (app w)))]
  /\ currentFilter
       (app (after (update_app (fun st => set_currentFilter (g (currentFilter st)) st);;
                    refresh serve false) w))
     = g (currentFilter (app w)).
Proof.
  rewrite events_bind, after_bind. split.
  - change (events (update_app ?f) w) with (@nil Event).
    rewrite app_nil_l, refresh_searches. reflexivity.
  - destruct (refresh_app serve
      (after (update_app (fun st => set_currentFilter (g (currentFilter st)) st)) w) false)
      as (gs & ps & fs & ags & ->).
    reflexivity.
Qed.

(** X1: when the search timer fires, one search is issued whose query is
    the trimmed text of the box, or null when the box holds white space
    only; the other predicates and the sort are those already set. *)
Theorem searchInput_fire_query {B : Type} (serve : Backend B) (w : World B)
    (value : string) :
  exists F,
    omap search_filter (events (searchInput_fire serve value) w) = [F]
    /\ (all_space value = true -> Filter.query F = None)
    /\ (all_space value = false -> Filter.query F = Some (Js.trim value))
    /\ Filter.status F = Js.or_null (CurrentFilter.status (currentFilter (app w)))
    /\ Filter.platform F = Js.or_null (CurrentFilter.platform (currentFilter (app w)))
    /\ Filter.franchise F = Js.or_null (CurrentFilter.franchise (currentFilter (app w)))
    /\ Filter.genre F = Js.or_null (CurrentFilter.genre (currentFilter (app w)))
    /\ Filter.sort_by F = CurrentFilter.sortBy (currentFilter (app w))
    /\ Filter.sort_asc F = CurrentFilter.sortAsc (currentFilter (app w))
    /\ CurrentFilter.query
         (currentFilter (app (after (searchInput_fire serve value) w)))
       = Js.trim value.
Proof.
  unfold searchInput_fire.
  destruct (set_filter_refresh serve w (CurrentFilterSet.query (Js.trim value)))
    as [-> ->].
  eexists. split; [reflexivity|]. simpl.
  split; [|split]; [| |repeat split].
  - intros H. apply trim_empty_iff in H. now rewrite H.
  - intros H. apply or_null_Some. intros Ht. apply trim_empty_iff in Ht. congruence.
Qed.

(** X2: filters accumulate. A status chip and then a sort choice issue
    two searches. The first carries the status chosen and everything else
    as the filter had it; the second carries that same status together
    with the new sort key, and again the query, platform, franchise, genre
    and direction the filter had at the start. *)
Theorem filters_accumulate {B : Type} (serve : Backend B) (w : World B)
    (status sort : string) :
  exists F1 F2,
    omap search_filter
      (events (statusFilters_click serve (Some status);;
               sortSelect_change serve sort) w)
    = [F1; F2]
    /\ Filter.query F1 = Js.or_null (CurrentFilter.query (currentFilter (app w)))
    /\ Filter.status F1 = Js.or_null status
    /\ Filter.platform F1 = Js.or_null (CurrentFilter.platform (currentFilter (app w)))
    /\ Filter.franchise F1 = Js.or_null (CurrentFilter.franchise (currentFilter (app w)))
    /\ Filter.genre F1 = Js.or_null (CurrentFilter.genre (currentFilter (app w)))
    /\ Filter.sort_by F1 = CurrentFilter.sortBy (currentFilter (app w))
    /\ Filter.sort_asc F1 = CurrentFilter.sortAsc (currentFilter (app w))
    /\ Filter.query F2 = Js.or_null (CurrentFilter.query (currentFilter (app w)))
    /\ Filter.status F2 = Js.or_null status
    /\ Filter.platform F2 = Js.or_null (CurrentFilter.platform (currentFilter (app w)))
    /\ Filter.franchise F2 = Js.or_null (CurrentFilter.franchise (currentFilter (app w)))
    /\ Filter.genre F2 = Js.or_null (CurrentFilter.genre (currentFilter (app w)))
    /\ Filter.sort_by F2 = sort
    /\ Filter.sort_asc F2 = CurrentFilter.sortAsc (currentFilter (app w)).
Proof.
  rewrite events_bind, omap_app.
  unfold statusFilters_click, sortSelect_change.
  destruct (set_filter_refresh serve w (CurrentFilterSet.status status)) as [-> Hcf].
  destruct (set_filter_refresh serve
    (after (update_app (fun st =>
        set_currentFilter (CurrentFilterSet.status status (currentFilter st)) st);;
      refresh serve false) w) (CurrentFilterSet.sortBy sort)) as [-> _].
  rewrite Hcf. eexists _, _. split; [reflexivity|]. simpl. repeat split.
Qed.

(** A click outside every status chip does nothing. *)
Lemma statusFilters_click_outside {B : Type} (serve : Backend B) (w : World B) :
  after (statusFilters_click serve None) w = w
  /\ events (statusFilters_click serve None) w = [].
Proof. now destruct w. Qed.

(* ===================================================================== *)
(** ** Grid and list layout *)
(* ===================================================================== *)

Lemma layout_click {B : Type} (w : World B) (b : bool) :
  displayed_games (page (after (update_app (set_isListView b);; renderGames) w))
  = view_games (activeView (app w)) (games (app w))
  /\ gameCount (page (after (update_app (set_isListView b);; renderGames) w))
     = count_text (length (view_games (activeView (app w)) (games (app w))))
  /\ (forall c, c ∈ gameGrid (page (after (update_app (set_isListView b);; renderGames) w)) ->
        card_list c = b)
  /\ games (app (after (update_app (set_isListView b);; renderGames) w)) = games (app w)
  /\ events (update_app (set_isListView b);; renderGames) w = [].
Proof.
  rewrite after_bind, events_bind.
  set (w1 := after (update_app (set_isListView b)) w).
  destruct (renderGames_displayed w1) as (Hd & Hc & Ha & He).
  rewrite Hd, Hc, Ha, He. repeat split.
  intros c. rewrite renderGames_page. case_bool_decide as Hlen; simpl.
  - intros Hin. now apply elem_of_nil in Hin.
  - intros Hin. apply list_elem_of_fmap in Hin as (g & -> & _). reflexivity.
Qed.

(** X3: switching between the grid and the list layout calls nothing and
    keeps [state.games]; both layouts show the same games and the same
    count, and every card gets the layout chosen. *)
Theorem layout_toggle_same_games {B : Type} (w : World B) :
  displayed_games (page (after listViewBtn_click w))
  = displayed_games (page (after gridViewBtn_click w))
  /\ gameCount (page (after listViewBtn_click w))
     = gameCount (page (after gridViewBtn_click w))
  /\ (forall c, c ∈ gameGrid (page (after listViewBtn_click w)) -> card_list c = true)
  /\ (forall c, c ∈ gameGrid (page (after gridViewBtn_click w)) -> card_list c = false)
  /\ games (app (after listViewBtn_click w)) = games (app w)
  /\ games (app (after gridViewBtn_click w)) = games (app w)
  /\ events (@listViewBtn_click B) w = []
  /\ events (@gridViewBtn_click B) w = [].
Proof.
  unfold listViewBtn_click, gridViewBtn_click.
  destruct (layout_click w true) as (Hd & Hc & Hl & Hg & He).
  destruct (layout_click w false) as (Hd' & Hc' & Hl' & Hg' & He').
  rewrite Hd, Hd', Hc, Hc'. repeat split; assumption.
Qed.

(* ===================================================================== *)
(** ** Star rating *)
(* ===================================================================== *)

Lemma number_eq_refl (x : Js.Number) : x ≠ Js.NaN -> number_eq x x = true.
Proof.
  destruct x as [|neg|neg m e]; simpl; intros H.
  - now destruct H.
  - now destruct neg.
  - rewrite N.eqb_refl. destruct neg; simpl; now rewrite orb_true_r.
Qed.

Lemma number_eq_NaN_r (x : Js.Number) : number_eq x Js.NaN = false.
Proof. now destruct x. Qed.

Lemma starRating_click_rating {B : Type} (w : World B) (data_v : option string) :
  formRating (app (after (starRating_click (Some data_v)) w))
  = match formRating (app w) with
    | Some r =>
        if number_eq r (Js.parseFloat (nullish data_v "undefined")) then None
        else Some (Js.parseFloat (nullish data_v "undefined"))
    | None => Some (Js.parseFloat (nullish data_v "undefined"))
    end.
Proof. reflexivity. Qed.

(** X4: a click on a star whose value is a number selects that value
    when no rating is set, and clears the rating when it is the value
    already set, so a second click on the same star undoes the first. A star
    whose value is not a number sets NaN, which no further click on it
    clears. *)
Theorem starRating_click_toggles {B : Type} (w : World B) (data_v : option string) :
  formRating (app w) = None ->
  (Js.parseFloat (nullish data_v "undefined") ≠ Js.NaN ->
     formRating (app (after (starRating_click (Some data_v)) w))
     = Some (Js.parseFloat (nullish data_v "undefined"))
     /\ formRating
          (app (after (starRating_click (Some data_v);;
                       starRating_click (Some data_v)) w))
        = None)
  /\ (Js.parseFloat (nullish data_v "undefined") = Js.NaN ->
     formRating
       (app (after (starRating_click (Some data_v);;
                    starRating_click (Some data_v)) w))
     = Some Js.NaN).
Proof.
  intros Hnone. split.
  - intros Hv. split.
    + now rewrite starRating_click_rating, Hnone.
    + rewrite after_bind, starRating_click_rating, starRating_click_rating, Hnone.
      now rewrite number_eq_refl.
  - intros Hv.
    rewrite after_bind, starRating_click_rating, starRating_click_rating, Hnone.
    now rewrite Hv.
Qed.

Lemma starRating_click_toggles_witness :
  (Js.parseFloat "3" ≠ Js.NaN ->
     formRating (app (after (starRating_click (Some (Some "3"))) sample_world))
     = Some (Js.parseFloat "3")
     /\ formRating
          (app (after (starRating_click (Some (Some "3"));;
                       starRating_click (Some (Some "3"))) sample_world))
        = None)
  /\ (Js.parseFloat "3" = Js.NaN ->
     formRating
       (app (after (starRating_click (Some (Some "3"));;
                    starRating_click (Some (Some "3"))) sample_world))
     = Some Js.NaN).
Proof. exact (starRating_click_toggles sample_world (Some "3") eq_refl). Defined.

(* ===================================================================== *)
(** ** Cover art *)
(* ===================================================================== *)

Lemma startsWith_truthy (s p : string) :
  p ≠ "" -> Js.startsWith s p = true -> Js.truthy s = true.
Proof.
  destruct p as [|b p]; [now intros H|]. intros _.
  destruct s as [|a s]; [discriminate|reflexivity].
Qed.

Lemma is_remote_truthy (s : string) : is_remote s = true -> Js.truthy s = true.
Proof.
  unfold is_remote. intros [H|H]%orb_true_iff;
    eapply startsWith_truthy; try exact H; discriminate.
Qed.

(** X5: "Load Image" stores the trimmed text of the URL box as the cover
    path, with a success toast, exactly when that text starts with http://
    or https://, and [resolveCover] then shows it as it is; any other text,
    the empty one included, leaves the page untouched and shows an error
    toast. No call is made either way. *)
Theorem loadUrlBtn_click_remote_only {B : Type} (w : World B) :
  (is_remote (Js.trim (coverUrlInput (page w))) = true ->
     page (after loadUrlBtn_click w)
     = set_form (set_f_cover_art_path (Js.trim (coverUrlInput (page w)))
                   (form (page w))) (page w)
     /\ events (@loadUrlBtn_click B) w = [EToast "Image loaded" "success"]
     /\ forall convertFileSrc,
          resolveCover convertFileSrc
            (Some (f_cover_art_path (form (page (after loadUrlBtn_click w)))))
          = Some (Js.trim (coverUrlInput (page w))))
  /\ (is_remote (Js.trim (coverUrlInput (page w))) = false ->
     after loadUrlBtn_click w = w
     /\ exists msg, events (@loadUrlBtn_click B) w = [EToast msg "error"])
  /\ app (after loadUrlBtn_click w) = app w.
Proof.
  unfold loadUrlBtn_click. run_handler.
  set (url := Js.trim (coverUrlInput (page w))).
  rewrite <- negb_orb.
  change (Js.startsWith url "http://" || Js.startsWith url "https://")
    with (is_remote url).
  split; [|split].
  - intros Hr. pose proof (is_remote_truthy url Hr) as Ht. rewrite Ht, Hr. simpl.
    split; [reflexivity|]. split; [reflexivity|].
    intros cfs. unfold resolveCover. now rewrite Ht, Hr.
  - intros Hr. rewrite Hr.
    destruct (Js.truthy url); simpl; (split; [now destruct w|eauto]).
  - destruct (Js.truthy url); simpl; [|reflexivity].
    now destruct (is_remote url).
Qed.

(** X6: a cancelled file dialog and a dropped file that is not an image
    leave the page as it was; a picked path is stored as it is, and a
    dropped image is stored under its path, or under its name when the host
    gives no path. A failing dialog is logged and toasted. None of them
    calls the backend or touches the state. *)
Theorem cover_pick_and_drop {B : Type} (w : World B) :
  after (coverDrop_click (Ok None)) w = w
  /\ (forall path, path ≠ "" ->
        f_cover_art_path (form (page (after (coverDrop_click (Ok (Some path))) w)))
        = path)
  /\ (forall e,
        after (coverDrop_click (Err e)) w = w
        /\ events (@coverDrop_click B (Err e)) w
           = [ EConsoleError "File dialog failed:" e;
               EToast "Could not open file picker" "error" ])
  /\ (forall f, Js.startsWith (file_type f) "image/" = false ->
        after (coverDrop_drop (Some f)) w = w)
  /\ (forall f, Js.startsWith (file_type f) "image/" = true ->
        f_cover_art_path (form (page (after (coverDrop_drop (Some f)) w)))
        = match file_path f with Some p => p | None => file_name f end)
  /\ after (coverDrop_drop None) w = w
  /\ (forall sel, app (after (coverDrop_click sel) w) = app w
                  /\ omap call_name (events (@coverDrop_click B sel) w) = [])
  /\ (forall file, app (after (coverDrop_drop file) w) = app w
                   /\ events (@coverDrop_drop B file) w = []).
Proof.
  split; [now destruct w|].
  split.
  { intros path Hp. apply truthy_nonempty in Hp.
    unfold coverDrop_click. simpl. now rewrite Hp. }
  split; [intros e; split; [now destruct w|reflexivity]|].
  split.
  { intros f Hf. unfold coverDrop_drop. rewrite Hf. now destruct w. }
  split.
  { intros f Hf. unfold coverDrop_drop. rewrite Hf. now destruct (file_path f). }
  split; [now destruct w|].
  split.
  - intros [[path|]|e]; try (split; reflexivity).
    unfold coverDrop_click. simpl. now destruct (Js.truthy path).
  - intros [f|]; [|split; reflexivity].
    unfold coverDrop_drop. now destruct (Js.startsWith (file_type f) "image/").
Qed.

(* ===================================================================== *)
(** ** Genre tags and status picker *)
(* ===================================================================== *)

Lemma filter_ne_absent (l : list string) (x : string) :
  x ∉ l -> filter (fun y => y ≠ x) l = l.
Proof.
  induction l as [|a l IH]; [reflexivity|].
  intros [Hne Hl]%not_elem_of_cons.
  rewrite filter_cons_True by congruence. now rewrite IH.
Qed.

Lemma filter_ne_snoc (l : list string) (x : string) :
  x ∉ l -> filter (fun y => y ≠ x) (l ++ [x])%list = l.
Proof.
  intros Hl. rewrite filter_app, filter_ne_absent by exact Hl.
  rewrite filter_cons_False by (intros H; now apply H).
  now rewrite filter_nil, app_nil_r.
Qed.

Lemma filter_ne_keeps (l : list string) (x d : string) :
  d ≠ x -> filter (fun y => y ≠ d) (l ++ [x])%list
           = (filter (fun y => y ≠ d) l ++ [x])%list.
Proof.
  intros Hne. rewrite filter_app. f_equal.
  rewrite filter_cons_True by congruence. reflexivity.
Qed.

(** X7: typing a new genre and pressing Enter appends its trimmed text,
    renders it as the last tag and clears the box. The remove button of a
    tag carries as [data-genre] what the parser reads back from the genre
    interpolated, unescaped, into the markup; [d] stands for that value. A
    click on the button removes the entries equal to [d]: when [d] is the
    genre just added the list is as it was before; when it is not, the new
    genre stays and the click removes the entries equal to [d] instead.
    Enter on an empty or white-space box, or on a genre already listed,
    changes no genre; any other key does nothing at all. *)
Theorem genre_add_remove_round_trip {B : Type} (w : World B) (text key d : string) :
  (Js.trim text ≠ "" -> (Js.trim text ∉ formGenres (app w)) ->
     formGenres (app (after (form_actions [TypeGenre text; GenreKey "Enter"]) w))
     = (formGenres (app w) ++ [Js.trim text])%list
     /\ genreTags (page (after (form_actions [TypeGenre text; GenreKey "Enter"]) w))
        = (formGenres (app w) ++ [Js.trim text])%list
     /\ genreInput (page (after (form_actions [TypeGenre text; GenreKey "Enter"]) w)) = ""
     /\ formGenres
          (app (after (form_actions
                         [TypeGenre text; GenreKey "Enter"; RemoveTag d]) w))
        = filter (fun x => x ≠ d) (formGenres (app w) ++ [Js.trim text])%list
     /\ (d = Js.trim text ->
         formGenres
           (app (after (form_actions
                          [TypeGenre text; GenreKey "Enter"; RemoveTag d]) w))
         = formGenres (app w))
     /\ (d ≠ Js.trim text ->
         formGenres
           (app (after (form_actions
                          [TypeGenre text; GenreKey "Enter"; RemoveTag d]) w))
         = (filter (fun x => x ≠ d) (formGenres (app w)) ++ [Js.trim text])%list))
  /\ (all_space text = true \/ Js.trim text ∈ formGenres (app w) ->
     formGenres (app (after (form_actions [TypeGenre text; GenreKey "Enter"]) w))
     = formGenres (app w))
  /\ (key ≠ "Enter" -> key ≠ "," ->
     after (form_actions [TypeGenre text; GenreKey key]) w
     = after (form_actions [TypeGenre text]) w).
Proof.
  split; [|split].
  - intros Hne Hnew.
    assert (Hadd : formGenres (app (after (form_actions [TypeGenre text; GenreKey "Enter"]) w))
                   = (formGenres (app w) ++ [Js.trim text])%list
                   /\ genreTags (page (after (form_actions [TypeGenre text; GenreKey "Enter"]) w))
                      = (formGenres (app w) ++ [Js.trim text])%list
                   /\ genreInput (page (after (form_actions [TypeGenre text; GenreKey "Enter"]) w)) = "").
    { cbn [form_actions form_action]. unfold genreInput_keydown, renderFormGenres.
      run_handler.
      apply truthy_nonempty in Hne. rewrite Hne.
      rewrite bool_decide_eq_false_2 by exact Hnew. simpl. now repeat split. }
    destruct Hadd as (Hadd & Htags & Hin).
    split; [exact Hadd|]. split; [exact Htags|]. split; [exact Hin|].
    assert (Hrem : formGenres
                     (app (after (form_actions
                                    [TypeGenre text; GenreKey "Enter"; RemoveTag d]) w))
                   = filter (fun x => x ≠ d) (formGenres (app w) ++ [Js.trim text])%list).
    { revert Hadd. cbn [form_actions]. rewrite !after_bind.
      change (after (mret ()) ?x) with x. cbn [form_action]. intros Hadd.
      rewrite tag_remove_click_formGenres. now rewrite Hadd. }
    split; [exact Hrem|]. split.
    + intros ->. rewrite Hrem. now apply filter_ne_snoc.
    + intros Hd. rewrite Hrem. now apply filter_ne_keeps.
  - intros Hcase.
    cbn [form_actions form_action]. unfold genreInput_keydown. run_handler.
    destruct Hcase as [Hsp|Hin].
    + apply trim_empty_iff in Hsp. now rewrite Hsp.
    + rewrite (bool_decide_eq_true_2 _ Hin). simpl.
      now destruct (Js.truthy (Js.trim text)).
  - intros Hk1 Hk2. cbn [form_actions form_action]. unfold genreInput_keydown.
    rewrite !bool_decide_eq_false_2 by assumption. reflexivity.
Qed.

Example tag_remove_samples :
  formGenres
    (app (after (form_actions
                   [TypeGenre "Q&amp;A"; GenreKey "Enter"; RemoveTag "Q&A"])
            sample_world))
  = ["Q&amp;A"]
  /\ formGenres
       (app (after (form_actions
                      [TypeGenre "Indie"; GenreKey "Enter"; RemoveTag "Indie"])
               sample_world))
     = [].
Proof. repeat split; reflexivity. Qed.

Lemma activate_lookup (opts : list StatusOpt.t) (i j : nat) :
  imap (fun j b => StatusOpt.mk (StatusOpt.val b) (bool_decide (j = i))) opts !! j
  = (fun b => StatusOpt.mk (StatusOpt.val b) (bool_decide (j = i))) <$> opts !! j.
Proof. apply list_lookup_imap. Qed.

(** X8: after a click on an option of the status picker that option is
    active and no other is; the values of the options are untouched; a click
    outside the options changes nothing. *)
Theorem statusPicker_click_exclusive {B : Type} (w : World B) (i : nat) :
  i < length (statusPicker (page w)) ->
  (forall j b,
      statusPicker (page (after (statusPicker_click (Some i)) w)) !! j = Some b ->
      (StatusOpt.active b = true <-> j = i))
  /\ StatusOpt.val <$> statusPicker (page (after (statusPicker_click (Some i)) w))
     = StatusOpt.val <$> statusPicker (page w)
  /\ after (statusPicker_click None) w = w.
Proof.
  intros Hi. unfold statusPicker_click. run_handler.
  rewrite bool_decide_eq_true_2 by exact Hi. simpl.
  split; [|split].
  - intros j b. rewrite activate_lookup.
    destruct (statusPicker (page w) !! j) as [b0|]; [|discriminate].
    simpl. intros [= <-]. simpl. now rewrite bool_decide_eq_true.
  - apply list_eq. intros j. rewrite !list_lookup_fmap, activate_lookup.
    now destruct (statusPicker (page w) !! j).
  - now destruct w.
Qed.

Lemma statusPicker_click_exclusive_witness :
  (forall j b,
      statusPicker (page (after (statusPicker_click (Some 4)) sample_world)) !! j = Some b ->
      (StatusOpt.active b = true <-> j = 4))
  /\ StatusOpt.val <$> statusPicker (page (after (statusPicker_click (Some 4)) sample_world))
     = StatusOpt.val <$> statusPicker (page sample_world)
  /\ after (statusPicker_click None) sample_world = sample_world.
Proof.
  apply (statusPicker_click_exclusive sample_world 4).
  simpl. lia.
Defined.

(* ===================================================================== *)
(** ** The submit handler, step by step *)
(* ===================================================================== *)

Lemma bind_get_app {B A : Type} (k : State -> M B A) (w : World B) :
  (get_app ≫= k) w = k (app w) w.
Proof.
  unfold mbind, M_bind, get_app. now destruct (k (app w) w) as [[c w2] l2].
Qed.

Lemma bind_get_page {B A : Type} (k : Page -> M B A) (w : World B) :
  (get_page ≫= k) w = k (page w) w.
Proof.
  unfold mbind, M_bind, get_page. now destruct (k (page w) w) as [[c w2] l2].
Qed.

Lemma gameForm_submit_steps {B : Type} (serve : Backend B) (w : World B) :
  gameForm_submit serve w
  = (process_cover serve (form_input (app w) (page w)) ≫= save_input serve) w.
Proof. unfold gameForm_submit. now rewrite bind_get_app, bind_get_page. Qed.

Lemma gameForm_submit_after {B : Type} (serve : Backend B) (w : World B) :
  after (gameForm_submit serve) w
  = after (save_input serve (process_cover serve (form_input (app w) (page w)) w).1.1)
      (after (process_cover serve (form_input (app w) (page w))) w).
Proof. unfold after at 1. rewrite gameForm_submit_steps. apply after_bind. Qed.

Lemma gameForm_submit_events {B : Type} (serve : Backend B) (w : World B) :
  events (gameForm_submit serve) w
  = (events (process_cover serve (form_input (app w) (page w))) w
     ++ events (save_input serve (process_cover serve (form_input (app w) (page w)) w).1.1)
          (after (process_cover serve (form_input (app w) (page w))) w))%list.
Proof. unfold events at 1. rewrite gameForm_submit_steps. apply events_bind. Qed.

Lemma process_cover_calls {B : Type} (serve : Backend B) (w : World B) (st : State) :
  omap call_name (events (process_cover serve (form_input st (page w))) w)
  = cover_call (page w)
  /\ omap toast (events (process_cover serve (form_input st (page w))) w)
     = match omap console (events (process_cover serve (form_input st (page w))) w) with
       | [] => []
       | _ => [("Warning: Could not process cover image", "error")]
       end.
Proof.
  unfold process_cover, cover_call. simpl. unfold Js.or_null.
  destruct (Js.truthy (f_cover_art_path (form (page w)))).
  - run_handler. next_call. now destruct r.
  - now split.
Qed.


Lemma closeModal_refresh {B : Type} (serve : Backend B) (w : World B) :
  modalOpen (page (after (closeModal;; refresh serve true) w)) = false
  /\ editingGameId (app (after (closeModal;; refresh serve true) w)) = None
  /\ form (page (after (closeModal;; refresh serve true) w)) = form (page w)
  /\ displayed_games (page (after (closeModal;; refresh serve true) w))
     = view_games (activeView (app w))
         (games (app (after (closeModal;; refresh serve true) w)))
  /\ omap call_name (events (closeModal;; refresh serve true) w)
     = ["search_games"; "get_platforms"; "get_franchises"; "get_genres"].
Proof.
  rewrite after_bind, events_bind.
  set (w1 := after closeModal w).
  assert (Hw1 : app w1 = set_editingGameId None (app w)
                /\ page w1 = set_modalOpen false (page w)) by now split.
  destruct Hw1 as [Ha1 Hp1].
  destruct (refresh_app serve w1 true) as (gs & ps & fs & ags & Happ).
  rewrite refresh_page.
  pose proof (loadGames_page serve w1) as Hlp.
  destruct (loadGames_app serve w1) as (gs' & Hla).
  rewrite renderGames_page, Hlp, Hla, Hp1, Ha1.
  rewrite refresh_games, Hla, Ha1.
  split; [now case_bool_decide|]. split; [now rewrite Happ, Ha1|].
  split; [now case_bool_decide|]. split.
  - simpl. unfold displayed_games. case_bool_decide as Hlen; simpl.
    + apply nil_length_inv in Hlen. now rewrite Hlen.
    + rewrite map_map. simpl. now rewrite map_id.
  - change (events closeModal w) with (@nil Event). rewrite app_nil_l.
    unfold refresh. rewrite !events_bind, !omap_app.
    destruct (renderGames_displayed (after (loadGames serve) w1)) as (_ & _ & _ & ->).
    assert (Hlg : omap call_name (events (loadGames serve) w1) = ["search_games"]).
    { unfold loadGames. run_handler. next_call. now destruct r. }
    assert (Hlm : forall w', omap call_name (events (loadMeta serve) w')
                  = ["get_platforms"; "get_franchises"; "get_genres"]).
    { intros w'. unfold loadMeta. run_handler. do 3 next_call.
      now destruct r as [?|?], r0 as [?|?], r1 as [?|?]. }
    now rewrite Hlg, Hlm.
Qed.


Lemma invoke_resolved {B A : Type} (serve : Backend B) (c : Command A)
    (w : World B) (r : Result A) (b' : B) :
  serve A c (backend w) = (r, b') ->
  invoke serve c w = (r, mkWorld (app w) (page w) b', [EInvoke c]).
Proof. intros H. unfold invoke. now rewrite H. Qed.

Lemma success_toast_then {B : Type} (m : M B unit) (msg : string) (w : World B) :
  after (showToast msg "success";; m) w = after m w
  /\ events (showToast msg "success";; m) w = EToast msg "success" :: events m w.
Proof. now rewrite after_bind, events_bind. Qed.







Lemma process_cover_rejected {B : Type} (serve : Backend B) (w : World B)
    (input : Input.t) (path e : string) (b' : B) :
  Input.cover_art_path input = Some path ->
  serve string (ProcessCoverImage path) (backend w) = (Err e, b') ->
  process_cover serve input w
  = (Input.set_cover_art_path None input, mkWorld (app w) (page w) b',
     [ EInvoke (ProcessCoverImage path);
       EConsoleError "Image processing failed:" e;
       EToast "Warning: Could not process cover image" "error" ]).
Proof.
  intros Hc Hs. unfold process_cover. rewrite Hc. run_handler. now rewrite Hs.
Qed.

Lemma process_cover_resolved {B : Type} (serve : Backend B) (w : World B)
    (input : Input.t) (path processed : string) (b' : B) :
  Input.cover_art_path input = Some path ->
  serve string (ProcessCoverImage path) (backend w) = (Ok processed, b') ->
  process_cover serve input w
  = (Input.set_cover_art_path (Some processed) input, mkWorld (app w) (page w) b',
     [EInvoke (ProcessCoverImage path)]).
Proof.
  intros Hc Hs. unfold process_cover. rewrite Hc. run_handler. now rewrite Hs.
Qed.

(** X11: the cover path of the form is processed before the save. When
    the processing rejects, the save still goes out, without cover art,
    after a console entry and a warning toast; when it resolves, the save
    carries the processed path; a form without cover path makes no such
    call. Every other field of the input is sent as the form built it. *)
Theorem submit_processes_cover {B : Type} (serve : Backend B) (w : World B) :
  (forall e b',
      f_cover_art_path (form (page w)) ≠ "" ->
      serve string (ProcessCoverImage (f_cover_art_path (form (page w)))) (backend w)
      = (Err e, b') ->
      omap saved_input (events (gameForm_submit serve) w)
      = [ (truthy_id (editingGameId (app w)),
           Input.set_cover_art_path None (form_input (app w) (page w))) ]
      /\ exists rest,
           events (gameForm_submit serve) w
           = ([ EInvoke (ProcessCoverImage (f_cover_art_path (form (page w))));
                EConsoleError "Image processing failed:" e;
                EToast "Warning: Could not process cover image" "error" ]
              ++ rest)%list)
  /\ (forall processed b',
      f_cover_art_path (form (page w)) ≠ "" ->
      serve string (ProcessCoverImage (f_cover_art_path (form (page w)))) (backend w)
      = (Ok processed, b') ->
      omap saved_input (events (gameForm_submit serve) w)
      = [ (truthy_id (editingGameId (app w)),
           Input.set_cover_art_path (Some processed) (form_input (app w) (page w))) ])
  /\ (f_cover_art_path (form (page w)) = "" ->
      omap saved_input (events (gameForm_submit serve) w)
      = [ (truthy_id (editingGameId (app w)), form_input (app w) (page w)) ]
      /\ "process_cover_image" ∉ omap call_name (events (gameForm_submit serve) w)).
Proof.
  assert (Hsaved : forall input w1,
            omap saved_input (events (save_input serve input) w1)
            = [(truthy_id (editingGameId (app w1)), input)]).
  { intros input w1. unfold events, save_input. rewrite bind_get_app.
    destruct (truthy_id (editingGameId (app w1))) as [id|].
    - fold (events (invoke serve (UpdateGame id input) ≫=
        (fun r => match r with
                  | Ok _ => showToast "Game updated!" "success";; closeModal;; refresh serve true
                  | Err err => save_failed err
                  end)) w1).
      rewrite events_bind, omap_app, events_invoke.
      destruct ((invoke serve (UpdateGame id input) w1).1.1) as [g|err]; [|reflexivity].
      rewrite !events_bind, !omap_app, refresh_saves_nothing. reflexivity.
    - fold (events (invoke serve (AddGame input) ≫=
        (fun r => match r with
                  | Ok _ => showToast "Game added!" "success";; closeModal;; refresh serve true
                  | Err err => save_failed err
                  end)) w1).
      rewrite events_bind, omap_app, events_invoke.
      destruct ((invoke serve (AddGame input) w1).1.1) as [g|err]; [|reflexivity].
      rewrite !events_bind, !omap_app, refresh_saves_nothing. reflexivity. }
  assert (Hall : omap saved_input (events (gameForm_submit serve) w)
                 = [ (truthy_id (editingGameId (app w)),
                      (process_cover serve (form_input (app w) (page w)) w).1.1) ]).
  { rewrite gameForm_submit_events, omap_app, Hsaved.
    destruct (process_cover_result serve w (form_input (app w) (page w)))
      as (_ & -> & _ & ->). reflexivity. }
  split; [|split].
  - intros e b' Hne Hs. rewrite Hall, gameForm_submit_events.
    assert (Hc : Input.cover_art_path (form_input (app w) (page w))
                 = Some (f_cover_art_path (form (page w))))
      by (simpl; now apply or_null_Some).
    unfold events at 1.
    rewrite (process_cover_rejected serve w _ _ e b' Hc Hs). simpl. eauto.
  - intros p' b' Hne Hs. rewrite Hall.
    assert (Hc : Input.cover_art_path (form_input (app w) (page w))
                 = Some (f_cover_art_path (form (page w))))
      by (simpl; now apply or_null_Some).
    now rewrite (process_cover_resolved serve w _ _ p' b' Hc Hs).
  - intros Hempty. rewrite Hall. split.
    + unfold process_cover. cbn [Input.cover_art_path form_input].
      now rewrite Hempty.
    + rewrite gameForm_submit_events, omap_app.
      destruct (process_cover_calls serve w (app w)) as [-> _].
      unfold cover_call. rewrite Hempty. simpl.
      unfold events, save_input. rewrite bind_get_app.
      set (input := (process_cover serve (form_input (app w) (page w)) w).1.1).
      set (w1 := after (process_cover serve (form_input (app w) (page w))) w).
      destruct (truthy_id (editingGameId (app w1))) as [id|].
      * fold (events (invoke serve (UpdateGame id input) ≫=
          (fun r => match r with
                    | Ok _ => showToast "Game updated!" "success";; closeModal;; refresh serve true
                    | Err err => save_failed err
                    end)) w1).
        rewrite events_bind, omap_app, events_invoke.
        destruct ((invoke serve (UpdateGame id input) w1).1.1) as [g|err].
        -- destruct (success_toast_then (closeModal;; refresh serve true) "Game updated!"
                       (after (invoke serve (UpdateGame id input)) w1)) as [_ ->].
           cbn [omap list_omap call_name toast Datatypes.app].
           destruct (closeModal_refresh serve (after (invoke serve (UpdateGame id input)) w1))
             as (_ & _ & _ & _ & ->).
           rewrite !elem_of_cons, elem_of_nil. intros H.
           repeat (destruct H as [H|H]; [discriminate H|]). exact H.
        -- simpl. rewrite !elem_of_cons, elem_of_nil. intros H.
           repeat (destruct H as [H|H]; [discriminate H|]). exact H.
      * fold (events (invoke serve (AddGame input) ≫=
          (fun r => match r with
                    | Ok _ => showToast "Game added!" "success";; closeModal;; refresh serve true
                    | Err err => save_failed err
                    end)) w1).
        rewrite events_bind, omap_app, events_invoke.
        destruct ((invoke serve (AddGame input) w1).1.1) as [g|err].
        -- destruct (success_toast_then (closeModal;; refresh serve true) "Game added!"
                       (after (invoke serve (AddGame input)) w1)) as [_ ->].
           cbn [omap list_omap call_name toast Datatypes.app].
           destruct (closeModal_refresh serve (after (invoke serve (AddGame input)) w1))
             as (_ & _ & _ & _ & ->).
           rewrite !elem_of_cons, elem_of_nil. intros H.
           repeat (destruct H as [H|H]; [discriminate H|]). exact H.
        -- simpl. rewrite !elem_of_cons, elem_of_nil. intros H.
           repeat (destruct H as [H|H]; [discriminate H|]). exact H.
Qed.

(* ===================================================================== *)
(** ** The form against the repository *)
(* ===================================================================== *)

Lemma remove_dups_NoDup (l : list string) : NoDup l -> remove_dups l = l.
Proof.
  induction 1 as [|x l Hx Hl IH]; [reflexivity|].
  simpl. destruct (decide_rel elem_of x l) as [Hin|_]; [contradiction|].
  now rewrite IH.
Qed.

Lemma replaced_holds_input (id : Z) (created_at now : string) (input : Input.t) :
  holds_input (Repository.replaced id created_at now input) input.
Proof.
  unfold holds_input. cbn [Repository.replaced Game.title Game.franchise
    Game.sequence_in_franchise Game.platform Game.release_date Game.developer
    Game.publisher Game.status Game.progress_percent Game.playtime_hours
    Game.rating Game.notes Game.cover_art_path Game.screenshots Game.genres].
  repeat (split; [reflexivity|]). split; [apply NoDup_remove_dups|].
  intros x. apply elem_of_remove_dups.
Qed.

Lemma update_found (id : Z) (input : Input.t) (now : string)
    (db : gmap Z Game.t) (old : Game.t) :
  db !! id = Some old ->
  Repository.validate input = None ->
  Repository.update id input now db
  = inr (Repository.replaced id (Game.created_at old) now input,
         <[id := Repository.replaced id (Game.created_at old) now input]> db).
Proof. intros H Hv. unfold Repository.update. now rewrite H, Hv. Qed.

Lemma update_invalid (id : Z) (input : Input.t) (now : string)
    (db : gmap Z Game.t) (old : Game.t) (field : string) :
  db !! id = Some old ->
  Repository.validate input = Some field ->
  Repository.update id input now db = inl (Repository.ValidationError field).
Proof. intros H Hv. unfold Repository.update. now rewrite H, Hv. Qed.

Lemma update_not_found (id : Z) (input : Input.t) (now : string)
    (db : gmap Z Game.t) :
  db !! id = None -> Repository.update id input now db = inl Repository.NotFoundError.
Proof. intros H. unfold Repository.update. now rewrite H. Qed.

Lemma submitted_screenshots (c : option string) (st : State) (p : Page) :
  Input.screenshots (Input.set_cover_art_path c (form_input st p)) = [].
Proof. reflexivity. Qed.

(** The cover path is no part of what the repository checks. *)
Lemma validate_cover (c : option string) (input : Input.t) :
  Repository.validate (Input.wire (Input.set_cover_art_path c input))
  = Repository.validate (Input.wire input).
Proof. reflexivity. Qed.

Lemma invoke_served {B A : Type} (serve : Backend B) (c : Command A) (w : World B) :
  (invoke serve c w).1.1 = (serve A c (backend w)).1
  /\ backend (after (invoke serve c) w) = (serve A c (backend w)).2
  /\ app (after (invoke serve c) w) = app w
  /\ page (after (invoke serve c) w) = page w.
Proof. unfold after, invoke. now destruct (serve A c (backend w)). Qed.

Lemma save_input_saves {B : Type} (serve : Backend B) (input : Input.t) (w : World B) :
  omap saved_input (events (save_input serve input) w)
  = [(truthy_id (editingGameId (app w)), input)].
Proof.
  unfold save_input. unfold events at 1. rewrite bind_get_app.
  destruct (truthy_id (editingGameId (app w))) as [id|].
  - fold (events (invoke serve (UpdateGame id input) ≫=
      (fun r => match r with
                | Ok _ => showToast "Game updated!" "success";; closeModal;; refresh serve true
                | Err err => save_failed err
                end)) w).
    rewrite events_bind, omap_app, events_invoke. cbn [omap list_omap saved_input].
    destruct ((invoke serve (UpdateGame id input) w).1.1) as [g|err].
    + rewrite !events_bind, !omap_app, refresh_saves_nothing. reflexivity.
    + reflexivity.
  - fold (events (invoke serve (AddGame input) ≫=
      (fun r => match r with
                | Ok _ => showToast "Game added!" "success";; closeModal;; refresh serve true
                | Err err => save_failed err
                end)) w).
    rewrite events_bind, omap_app, events_invoke. cbn [omap list_omap saved_input].
    destruct ((invoke serve (AddGame input) w).1.1) as [g|err].
    + rewrite !events_bind, !omap_app, refresh_saves_nothing. reflexivity.
    + reflexivity.
Qed.

Lemma save_input_update {B : Type} (serve : Backend B) (input : Input.t)
    (w : World B) (id : Z) :
  truthy_id (editingGameId (app w)) = Some id ->
  after (save_input serve input) w
  = after (match (invoke serve (UpdateGame id input) w).1.1 with
           | Ok _ => showToast "Game updated!" "success";; closeModal;; refresh serve true
           | Err err => save_failed err
           end)
      (after (invoke serve (UpdateGame id input)) w).
Proof.
  intros Hid. unfold save_input. unfold after at 1. rewrite bind_get_app, Hid.
  fold (after (invoke serve (UpdateGame id input) ≫=
      (fun r => match r with
                | Ok _ => showToast "Game updated!" "success";; closeModal;; refresh serve true
                | Err err => save_failed err
                end)) w).
  now rewrite after_bind.
Qed.

Section Store.

Context {B : Type}.
Variable serve : Backend B.
Variable store : B -> gmap Z Game.t.
Hypothesis reads : forall A (c : Command A) b,
  mutates c = false -> store (serve A c b).2 = store b.

Lemma reads_only_ret {A : Type} (a : A) : reads_only store (mret a : M B A).
Proof. now intros w. Qed.

Lemma reads_only_bind {A C : Type} (m : M B A) (k : A -> M B C) :
  reads_only store m -> (forall a, reads_only store (k a)) ->
  reads_only store (m ≫= k).
Proof. intros Hm Hk w. rewrite after_bind. now rewrite Hk, Hm. Qed.

Lemma reads_only_get_app : reads_only store (@get_app B).
Proof. now intros w. Qed.

Lemma reads_only_get_page : reads_only store (@get_page B).
Proof. now intros w. Qed.

Lemma reads_only_update_app (f : State -> State) :
  reads_only store (update_app f : M B unit).
Proof. now intros w. Qed.

Lemma reads_only_update_page (f : Page -> Page) :
  reads_only store (update_page f : M B unit).
Proof. now intros w. Qed.

Lemma reads_only_emit (e : Event) : reads_only store (emit e : M B unit).
Proof. now intros w. Qed.

Lemma reads_only_invoke {A : Type} (c : Command A) :
  mutates c = false -> reads_only store (invoke serve c).
Proof.
  intros Hc w. destruct (invoke_served serve c w) as (_ & -> & _).
  now apply reads.
Qed.

(** Resolves [reads_only] for a handler built from the steps above. *)
Ltac reads_handler :=
  repeat first
    [ apply reads_only_ret
    | apply reads_only_get_app
    | apply reads_only_get_page
    | apply reads_only_update_app
    | apply reads_only_update_page
    | apply reads_only_emit
    | apply reads_only_invoke; reflexivity
    | apply reads_only_bind; [|intros ?]
    | match goal with
      | |- reads_only _ (if ?b then _ else _) => destruct b
      | |- reads_only _ (match ?x with _ => _ end) => destruct x
      end ].

Lemma reads_only_process_cover (input : Input.t) :
  reads_only store (process_cover serve input).
Proof. unfold process_cover, console_error, showToast. reads_handler. Qed.

Lemma reads_only_save_failed (err : string) :
  reads_only store (save_failed err : M B unit).
Proof. unfold save_failed, console_error, showToast. reads_handler. Qed.

Lemma reads_only_saved (msg : string) :
  reads_only store (showToast msg "success";; closeModal;; refresh serve true).
Proof.
  unfold showToast, closeModal, refresh, loadGames, renderGames, loadMeta,
    console_error.
  reads_handler.
Qed.

End Store.

(** C2: [update] on a stored id, given a valid input, replaces every
    mutable field by the input's value, whatever the record held (the
    genres as a set), and keeps id and creation time; an invalid input is
    rejected and an absent id not found, with nothing stored. Every
    submission of the form sends an empty [screenshots] list. So on a
    backend whose [update_game] is this [update], saving an edit through
    the form leaves the record without screenshots, whatever it held, when
    the form's input is valid, and leaves the store as it was when it is
    not. *)
Theorem update_replaces_wholesale {B : Type} (serve : Backend B)
    (store : B -> gmap Z Game.t) (clock : B -> string)
    (w : World B) (id : Z) (old : Game.t) :
  serves_update serve store clock ->
  store (backend w) !! id = Some old ->
  truthy_id (editingGameId (app w)) = Some id ->
  (forall db input now prev,
      db !! id = Some prev ->
      Repository.validate input = None ->
      exists g,
        Repository.update id input now db = inr (g, <[id := g]> db)
        /\ holds_input g input
        /\ Game.id g = id
        /\ Game.created_at g = Game.created_at prev
        /\ Game.updated_at g = now
        /\ (NoDup (Input.genres input) -> Game.genres g = Input.genres input))
  /\ (forall db input now prev field,
        db !! id = Some prev ->
        Repository.validate input = Some field ->
        Repository.update id input now db = inl (Repository.ValidationError field))
  /\ (forall db input now,
        db !! id = None ->
        Repository.update id input now db = inl Repository.NotFoundError)
  /\ (forall w' : World B, exists oid inp,
        omap saved_input (events (gameForm_submit serve) w') = [(oid, inp)]
        /\ Input.screenshots inp = []
        /\ Input.screenshots (Input.wire inp) = [])
  /\ (Repository.validate (Input.wire (form_input (app w) (page w))) = None ->
      exists inp g,
        omap saved_input (events (gameForm_submit serve) w) = [(Some id, inp)]
        /\ store (backend (after (gameForm_submit serve) w)) !! id = Some g
        /\ holds_input g (Input.wire inp)
        /\ Game.screenshots g = []
        /\ Game.id g = id
        /\ Game.created_at g = Game.created_at old)
  /\ (forall field,
        Repository.validate (Input.wire (form_input (app w) (page w))) = Some field ->
        store (backend (after (gameForm_submit serve) w)) = store (backend w)).
Proof.
  intros [Hupd Hreads] Hold Hid.
  split.
  { intros db input now prev Hprev Hv. eexists.
    split; [exact (update_found id input now db prev Hprev Hv)|].
    split; [apply replaced_holds_input|].
    do 3 (split; [reflexivity|]). apply remove_dups_NoDup. }
  split; [intros db input now prev field; apply update_invalid|].
  split; [intros db input now; apply update_not_found|].
  split.
  { intros w'. destruct (gameForm_submit_saves serve w') as (c & ->).
    eexists _, _. split; [reflexivity|]. now split. }
  set (inp0 := form_input (app w) (page w)).
  destruct (process_cover_result serve w inp0) as ((c & Hc) & Happ & Hpage & Hcev).
  pose proof (reads_only_process_cover serve store Hreads inp0 w) as Hs1.
  assert (Hsaved : omap saved_input (events (gameForm_submit serve) w)
                   = [(Some id, Input.set_cover_art_path c inp0)]).
  { rewrite gameForm_submit_events, omap_app. fold inp0. rewrite Hcev, Hc.
    rewrite save_input_saves, Happ, Hid. reflexivity. }
  assert (Hafter : after (gameForm_submit serve) w
                   = after (save_input serve (Input.set_cover_art_path c inp0))
                       (after (process_cover serve inp0) w)).
  { rewrite gameForm_submit_after. fold inp0. now rewrite Hc. }
  set (w1 := after (process_cover serve inp0) w) in *.
  assert (Hid1 : truthy_id (editingGameId (app w1)) = Some id) by now rewrite Happ.
  rewrite (save_input_update serve _ w1 id Hid1) in Hafter.
  set (inp := Input.set_cover_art_path c inp0) in *.
  destruct (invoke_served serve (UpdateGame id inp) w1) as (Hr & Hb & _ & _).
  pose proof (Hupd (backend w1) id inp) as Hrun.
  rewrite <- Hr, <- Hb, Hs1 in Hrun.
  split.
  - intros Hv.
    rewrite (update_found id (Input.wire inp) _ _ old Hold) in Hrun
      by (unfold inp; now rewrite validate_cover).
    destruct Hrun as [Hres Hst].
    exists inp. eexists. split; [exact Hsaved|].
    rewrite Hafter, Hres.
    rewrite (reads_only_saved serve store Hreads "Game updated!"), Hst.
    split; [apply lookup_insert_eq|].
    split; [apply replaced_holds_input|]. now repeat split.
  - intros field Hv.
    rewrite (update_invalid id (Input.wire inp) _ _ old field Hold) in Hrun
      by (unfold inp; now rewrite validate_cover).
    destruct Hrun as [[e Hres] Hst].
    rewrite Hafter, Hres.
    now rewrite (reads_only_save_failed store), Hst.
Qed.

Lemma repository_backend_serves :
  serves_update repository_backend (fun db => db) (fun _ => "2024-03-01T00:00:00Z").
Proof.
  split.
  - intros b id input. simpl.
    destruct (Repository.update id (Input.wire input) _ b) as [e|[g db']]; simpl; eauto.
  - intros A c b Hc. destruct c; try discriminate Hc; reflexivity.
Qed.

Lemma update_replaces_wholesale_witness :
  Game.screenshots sample_game = ["shots/hk-1.png"; "shots/hk-2.png"]
  /\ exists inp g,
       omap saved_input (events (gameForm_submit repository_backend) stored_world)
       = [(Some 7%Z, inp)]
       /\ backend (after (gameForm_submit repository_backend) stored_world) !! 7%Z
          = Some g
       /\ holds_input g (Input.wire inp)
       /\ Game.screenshots g = []
       /\ Game.id g = 7%Z
       /\ Game.created_at g = Game.created_at sample_game.
Proof.
  split; [reflexivity|].
  apply (update_replaces_wholesale repository_backend (fun db => db)
           (fun _ => "2024-03-01T00:00:00Z") stored_world 7 sample_game
           repository_backend_serves).
  - apply lookup_singleton_eq.
  - reflexivity.
  - vm_compute. reflexivity.
Defined.

Example edit_clears_screenshots_sample :
  Game.screenshots sample_game = ["shots/hk-1.png"; "shots/hk-2.png"]
  /\ truthy_id (editingGameId (app editing_world)) = Some 7%Z
  /\ Input.title (form_input (app editing_world) (page editing_world))
     = "Hollow Knight"
  /\ Input.progress_percent (form_input (app editing_world) (page editing_world))
     = Some (Js.Dec false 375 (-1))
  /\ Input.genres (form_input (app editing_world) (page editing_world))
     = ["Metroidvania"; "Indie"]
  /\ Input.status (form_input (app editing_world) (page editing_world))
     = "Backlog"
  /\ Input.screenshots (form_input (app editing_world) (page editing_world)) = []
  /\ Repository.validate
       (Input.wire (form_input (app editing_world) (page editing_world))) = None.
Proof. repeat split; vm_compute; reflexivity. Qed.

Example validate_samples :
  Repository.validate (Input.wire (form_input (app sample_world) (page sample_world)))
  = Some "title"
  /\ Repository.validate
       (Input.wire (form_input (app overflow_world) (page overflow_world))) = None
  /\ Input.progress_percent
       (Input.wire (form_input (app overflow_world) (page overflow_world))) = None.
Proof. repeat split; vm_compute; reflexivity. Qed.

(* ===================================================================== *)
(** ** Metadata and refresh *)
(* ===================================================================== *)




(* ===================================================================== *)
(** ** Opening the modal *)
(* ===================================================================== *)

Lemma openModal_modalOpen {B : Type} (w : World B) (id : option Z) :
  modalOpen (page (after (openModal id) w))
  = match truthy_id id, edited_game id (app w) with
    | Some _, None => modalOpen (page w)
    | _, _ => true
    end.
Proof.
  unfold openModal, edited_game, renderFormGenres. run_handler.
  destruct (truthy_id id) as [n|]; simpl; [|reflexivity].
  destruct (List.find _ _) as [game|]; simpl; [|reflexivity].
  destruct (_ && _); simpl; destruct (Game.rating game); reflexivity.
Qed.

Lemma openModal_formRating {B : Type} (w : World B) (id : option Z) :
  formRating (app (after (openModal id) w))
  = match edited_game id (app w) with
    | Some game => Game.rating game
    | None => None
    end.
Proof.
  unfold openModal, edited_game, renderFormGenres. run_handler.
  destruct (truthy_id id) as [n|]; simpl; [|reflexivity].
  destruct (List.find _ _) as [game|]; simpl; [|reflexivity].
  destruct (_ && _); simpl; destruct (Game.rating game); reflexivity.
Qed.

(** X14: an id of 0 counts as no id. [openModal(0)] opens the blank form
    of a new game even when a game with id 0 is listed, and submitting it
    calls [add_game], not [update_game]. An id that matches no listed game
    resets the form but does not open the modal. *)
Theorem openModal_falsy_and_missing_id {B : Type} (serve : Backend B) (w : World B) :
  (form (page (after (openModal (Some 0%Z)) w)) = form_defaults (page w)
   /\ modalOpen (page (after (openModal (Some 0%Z)) w)) = true
   /\ formGenres (app (after (openModal (Some 0%Z)) w)) = []
   /\ exists inp,
        omap saved_input
          (events (gameForm_submit serve) (after (openModal (Some 0%Z)) w))
        = [(None, inp)])
  /\ (forall id, id ≠ 0%Z ->
        (forall g, g ∈ games (app w) -> Game.id g ≠ id) ->
        modalOpen (page (after (openModal (Some id)) w)) = modalOpen (page w)
        /\ form (page (after (openModal (Some id)) w)) = form_defaults (page w)
        /\ editingGameId (app (after (openModal (Some id)) w)) = Some id).
Proof.
  split.
  - rewrite openModal_form, openModal_modalOpen, openModal_formGenres.
    repeat split.
    destruct (gameForm_submit_saves serve (after (openModal (Some 0%Z)) w)) as (c & ->).
    rewrite openModal_editingGameId. eauto.
  - intros id Hid Hmiss.
    assert (Hnone : edited_game (Some id) (app w) = None).
    { unfold edited_game. simpl. apply Z.eqb_neq in Hid. rewrite Hid. simpl.
      destruct (List.find _ _) as [g|] eqn:Hf; [|reflexivity].
      apply List.find_some in Hf as [Hin Heq]. apply Z.eqb_eq in Heq.
      apply list_elem_of_In in Hin. now apply Hmiss in Hin. }
    rewrite openModal_form, openModal_modalOpen, openModal_editingGameId, Hnone.
    simpl. apply Z.eqb_neq in Hid. now rewrite Hid.
Qed.

(* ===================================================================== *)
(** ** Editing without a change *)
(* ===================================================================== *)

Lemma toggle_status_twice (s t : string) (opts : list StatusOpt.t) :
  toggle_status s (toggle_status t opts) = toggle_status s opts.
Proof. unfold toggle_status. rewrite map_map. reflexivity. Qed.

Lemma picked_status_toggle_found (s : string) (opts : list StatusOpt.t) :
  (exists b, b ∈ opts /\ StatusOpt.val b = Some s) ->
  picked_status (toggle_status s opts) = s.
Proof.
  intros (b & Hin & Hv). unfold picked_status.
  induction opts as [|o opts IH]; [now apply elem_of_nil in Hin|].
  simpl. case_bool_decide as Ho; simpl.
  - now rewrite Ho.
  - apply elem_of_cons in Hin as [->|Hin]; [contradiction|]. now apply IH.
Qed.

Lemma picked_status_toggle_missing (s : string) (opts : list StatusOpt.t) :
  (forall b, b ∈ opts -> StatusOpt.val b ≠ Some s) ->
  picked_status (toggle_status s opts) = "NotStarted".
Proof.
  intros Hmiss. apply picked_status_none. intros b Hin.
  unfold toggle_status in Hin. apply list_elem_of_fmap in Hin as (o & -> & Ho).
  simpl. apply bool_decide_eq_false_2. now apply Hmiss.
Qed.

Lemma or_null_trim_or_empty (o : option string) :
  trimmed_opt o -> Js.or_null (Js.trim (Js.or_empty o)) = o.
Proof.
  destruct o as [s|]; intros H; [|reflexivity].
  destruct (H s eq_refl) as [Hne Ht]. simpl. rewrite Ht. now apply or_null_Some.
Qed.

(** X15: opening the edit form for a listed game and saving at once
    sends [update_game] on the same id with the game's title, platform,
    franchise, developer, publisher, notes, release date, rating and genres
    unchanged, provided the game holds values that the form keeps. The
    controls are part of the markup, which the sources do not hold, so the
    premises ask for what a control of any text type keeps when it is
    assigned (no line break, which a single-line control strips; a valid
    date for the release date) and for what the handler keeps when it
    reads (texts stored trimmed and, where optional, not empty). The
    status is sent unchanged when the picker has an option for it and as
    "NotStarted" when it has none. *)
Theorem edit_without_change {B : Type} (serve : Backend B) (w : World B)
    (id : option Z) (game : Game.t) :
  edited_game id (app w) = Some game ->
  trimmed (Game.title game) ->
  trimmed (Game.platform game) ->
  trimmed_opt (Game.franchise game) ->
  trimmed_opt (Game.developer game) ->
  trimmed_opt (Game.publisher game) ->
  trimmed_opt (Game.notes game) ->
  single_line (Game.title game) = true ->
  single_line (Game.platform game) = true ->
  single_line_opt (Game.franchise game) ->
  single_line_opt (Game.developer game) ->
  single_line_opt (Game.publisher game) ->
  single_line_opt (Game.notes game) ->
  (forall d, Game.release_date game = Some d -> valid_date_string d = true) ->
  exists inp,
    omap saved_input (events (gameForm_submit serve) (after (openModal id) w))
    = [(id, inp)]
    /\ Input.title inp = Game.title game
    /\ Input.platform inp = Game.platform game
    /\ Input.franchise inp = Game.franchise game
    /\ Input.developer inp = Game.developer game
    /\ Input.publisher inp = Game.publisher game
    /\ Input.notes inp = Game.notes game
    /\ Input.release_date inp = Game.release_date game
    /\ Input.rating inp = Game.rating game
    /\ Input.genres inp = Game.genres game
    /\ ((exists b, b ∈ statusPicker (page w) /\ StatusOpt.val b = Some (Game.status game)) ->
        Input.status inp = Game.status game)
    /\ ((forall b, b ∈ statusPicker (page w) -> StatusOpt.val b ≠ Some (Game.status game)) ->
        Input.status inp = "NotStarted").
Proof.
  intros Hgame Ht Hp Hf Hd Hpu Hn _ _ _ _ _ _ Hr.
  destruct (gameForm_submit_saves serve (after (openModal id) w)) as (c & ->).
  rewrite openModal_editingGameId.
  assert (Hid : truthy_id id = id).
  { unfold edited_game in Hgame. destruct id as [n|]; [|discriminate]. simpl in *.
    now destruct (Z.eqb n 0). }
  rewrite Hid. eexists. split; [reflexivity|].
  unfold form_input. cbn [Input.set_cover_art_path Input.title Input.platform
    Input.franchise Input.developer Input.publisher Input.notes Input.release_date
    Input.rating Input.genres Input.status].
  rewrite openModal_form, openModal_formRating, openModal_formGenres,
    openModal_statusPicker, Hgame. cbn [fill_form f_title f_platform f_franchise
    f_developer f_publisher f_notes f_release_date].
  rewrite Ht, Hp, !or_null_trim_or_empty by assumption.
  rewrite toggle_status_twice.
  repeat split.
  - destruct (Game.release_date game) as [d|]; [|reflexivity].
    simpl. apply or_null_Some. intros ->. now specialize (Hr "" eq_refl).
  - apply picked_status_toggle_found.
  - apply picked_status_toggle_missing.
Qed.

Lemma edit_without_change_witness :
  exists inp,
    omap saved_input
      (events (gameForm_submit failing_backend) (after (openModal (Some 7%Z)) sample_world))
    = [(Some 7%Z, inp)]
    /\ Input.title inp = Game.title sample_game
    /\ Input.platform inp = Game.platform sample_game
    /\ Input.franchise inp = Game.franchise sample_game
    /\ Input.developer inp = Game.developer sample_game
    /\ Input.publisher inp = Game.publisher sample_game
    /\ Input.notes inp = Game.notes sample_game
    /\ Input.release_date inp = Game.release_date sample_game
    /\ Input.rating inp = Game.rating sample_game
    /\ Input.genres inp = Game.genres sample_game
    /\ ((exists b, b ∈ statusPicker (page sample_world)
                   /\ StatusOpt.val b = Some (Game.status sample_game)) ->
        Input.status inp = Game.status sample_game)
    /\ ((forall b, b ∈ statusPicker (page sample_world) ->
                   StatusOpt.val b ≠ Some (Game.status sample_game)) ->
        Input.status inp = "NotStarted").
Proof.
  apply (edit_without_change failing_backend sample_world (Some 7%Z) sample_game).
  - reflexivity.
  - reflexivity.
  - reflexivity.
  - intros s Hs. discriminate Hs.
  - intros s Hs. injection Hs as <-. split; [discriminate|reflexivity].
  - intros s Hs. discriminate Hs.
  - intros s Hs. discriminate Hs.
  - reflexivity.
  - reflexivity.
  - intros s Hs. discriminate Hs.
  - intros s Hs. injection Hs as <-. reflexivity.
  - intros s Hs. discriminate Hs.
  - intros s Hs. discriminate Hs.
  - intros d Hd. injection Hd as <-. reflexivity.
Defined.

Example valid_date_string_samples :
  valid_date_string "2017-02-24" = true
  /\ valid_date_string "2024-02-29" = true
  /\ valid_date_string "2023-02-29" = false
  /\ valid_date_string "2017-13-01" = false
  /\ valid_date_string "17-02-24" = false
  /\ valid_date_string "2017-2-24" = false
  /\ valid_date_string "" = false
  /\ valid_date_string "2017-02-24T00:00" = false
  /\ single_line "Hollow Knight" = true
  /\ single_line (String (ascii_of_nat 10) "x") = false.
Proof. repeat split; vm_compute; reflexivity. Qed.

(* ===================================================================== *)
(** ** Navigation *)
(* ===================================================================== *)




(* ===================================================================== *)
(** ** Sidebar chips *)
(* ===================================================================== *)

Lemma filter_chips_values (current : string) (names : list string) :
  chip_value <$> filter_chips current names = "" :: names.
Proof.
  unfold filter_chips. rewrite fmap_cons. simpl. f_equal.
  rewrite <- list_fmap_compose. apply list_fmap_id.
Qed.

Lemma filter_chips_active (current : string) (names : list string) (c : Chip) :
  c ∈ filter_chips current names ->
  (chip_active c = true <-> chip_value c = current).
Proof.
  unfold filter_chips. intros [->|Hin]%elem_of_cons.
  - simpl. rewrite negb_true_iff. destruct current; simpl; split; congruence.
  - apply list_elem_of_fmap in Hin as (n & -> & _). simpl.
    rewrite bool_decide_eq_true. split; congruence.
Qed.

(** X17: the sidebar renders an "All" chip with the empty value followed
    by one chip per platform, and one per genre for the first twelve genres
    only; a chip is active exactly when its value is the current filter, so
    "All" is active exactly when the filter is empty. When the current genre
    is not among the first twelve, no chip is active although [loadGames]
    still sends that genre. *)
Theorem sidebar_chips_reflect_filter {B : Type} (serve : Backend B) (u : Ui B) :
  chip_value <$> platformFilters (shell (ui_after renderPlatformFilters u))
  = "" :: allPlatforms (app (world u))
  /\ (forall c, c ∈ platformFilters (shell (ui_after renderPlatformFilters u)) ->
        (chip_active c = true
         <-> chip_value c = CurrentFilter.platform (currentFilter (app (world u)))))
  /\ chip_value <$> genreFilters (shell (ui_after renderGenreFilters u))
     = "" :: take 12 (allGenres (app (world u)))
  /\ length (genreFilters (shell (ui_after renderGenreFilters u))) <= 13
  /\ (forall c, c ∈ genreFilters (shell (ui_after renderGenreFilters u)) ->
        (chip_active c = true
         <-> chip_value c = CurrentFilter.genre (currentFilter (app (world u)))))
  /\ (CurrentFilter.genre (currentFilter (app (world u))) ≠ "" ->
      (CurrentFilter.genre (currentFilter (app (world u)))
         ∉ take 12 (allGenres (app (world u)))) ->
      (forall c, c ∈ genreFilters (shell (ui_after renderGenreFilters u)) ->
         chip_active c = false)
      /\ omap search_filter (events (loadGames serve) (world u))
         ≫= (fun F => [Filter.genre F])
         = [Some (CurrentFilter.genre (currentFilter (app (world u))))]).
Proof.
  assert (Hp : platformFilters (shell (ui_after renderPlatformFilters u))
               = filter_chips (CurrentFilter.platform (currentFilter (app (world u))))
                   (allPlatforms (app (world u)))) by reflexivity.
  assert (Hg : genreFilters (shell (ui_after renderGenreFilters u))
               = filter_chips (CurrentFilter.genre (currentFilter (app (world u))))
                   (take 12 (allGenres (app (world u))))) by reflexivity.
  rewrite Hp, Hg, !filter_chips_values.
  split; [reflexivity|]. split; [apply filter_chips_active|].
  split; [reflexivity|]. split.
  { unfold filter_chips. simpl. rewrite length_map, length_take. lia. }
  split; [apply filter_chips_active|].
  intros Hne Hout. split.
  - intros c Hc. destruct (chip_active c) eqn:Ha; [|reflexivity].
    apply (filter_chips_active _ _ c Hc) in Ha.
    assert (Hv : chip_value c ∈ chip_value <$> filter_chips
              (CurrentFilter.genre (currentFilter (app (world u))))
              (take 12 (allGenres (app (world u))))) by (apply list_elem_of_fmap; eauto).
    rewrite filter_chips_values, Ha in Hv.
    apply elem_of_cons in Hv as [Hv|Hv]; contradiction.
  - rewrite loadGames_events. simpl. now rewrite (or_null_Some _ Hne).
Qed.

Lemma activate_chip_lookup (chips : list Chip) (i j : nat) :
  activate_chip i chips !! j
  = (fun c => mkChip (chip_value c) (bool_decide (j = i))) <$> chips !! j.
Proof. apply list_lookup_imap. Qed.

(** X18: a click on a platform chip stores the chip's value as the
    platform filter, leaves that chip the only active one, and issues one
    search whose platform is that value, or null for the "All" chip; the
    rest of the filter is kept. A position with no chip does nothing. *)
Theorem platformChip_click_filters {B : Type} (serve : Backend B) (u : Ui B)
    (i : nat) :
  (forall btn, platformFilters (shell u) !! i = Some btn ->
     CurrentFilter.platform
       (currentFilter (app (world (ui_after (platformChip_click serve i) u))))
     = chip_value btn
     /\ omap search_filter (ui_events (platformChip_click serve i) u)
        = [loadGames_filter
             (CurrentFilterSet.platform (chip_value btn) (currentFilter (app (world u))))]
     /\ (chip_value btn = "" ->
         omap search_filter (ui_events (platformChip_click serve i) u)
           ≫= (fun F => [Filter.platform F]) = [None])
     /\ (forall j c,
           platformFilters (shell (ui_after (platformChip_click serve i) u)) !! j = Some c ->
           (chip_active c = true <-> j = i)))
  /\ (platformFilters (shell u) !! i = None ->
      ui_after (platformChip_click serve i) u = u
      /\ ui_events (platformChip_click serve i) u = []).
Proof.
  split.
  - intros btn Hb. unfold platformChip_click.
    rewrite ui_after_bind, ui_events_bind.
    change (ui_after get_shell u) with u. change ((get_shell u).1.1) with (shell u).
    change (ui_events get_shell u) with (@nil Event). rewrite Hb, app_nil_l.
    rewrite !ui_after_bind, !ui_events_bind, !lift_after, !lift_events.
    change (events (update_app ?f) ?w) with (@nil Event).
    change (ui_events (update_shell ?f) ?x) with (@nil Event).
    rewrite !app_nil_l.
    set (f := fun st : State => set_currentFilter
                (CurrentFilterSet.platform (chip_value btn) (currentFilter st)) st).
    set (w1 := mkWorld (f (app (world u))) (page (world u)) (backend (world u))).
    change (world (ui_after (update_shell ?g) (mkUi (after (update_app f) (world u)) ?s)))
      with w1.
    destruct (refresh_app serve w1 false) as (gs & ps & fs & ags & Happ).
    rewrite refresh_searches.
    cbn [world shell]. rewrite Happ. split; [reflexivity|]. split; [reflexivity|].
    split.
    + intros Hv. simpl. now rewrite Hv.
    + intros j c. simpl. rewrite activate_chip_lookup.
      destruct (platformFilters (shell u) !! j) as [c0|]; [|discriminate].
      simpl. intros [= <-]. simpl. now rewrite bool_decide_eq_true.
  - intros Hn. unfold platformChip_click, ui_after, ui_events, mbind, U_bind, get_shell.
    rewrite Hn. now destruct u.
Qed.

(* ===================================================================== *)
(** ** Refresh over the whole page *)
(* ===================================================================== *)

(** What [loadMeta] renders, for the state its calls leave. *)
Lemma loadMeta_render_world {B : Type} (serve : Backend B) (u : Ui B) :
  world (ui_after (loadMeta_render serve) u) = after (loadMeta serve) (world u)
  /\ ui_events (loadMeta_render serve) u = events (loadMeta serve) (world u)
  /\ platformFilters (shell (ui_after (loadMeta_render serve) u))
     = filter_chips
         (CurrentFilter.platform (currentFilter (app (after (loadMeta serve) (world u)))))
         (allPlatforms (app (after (loadMeta serve) (world u))))
  /\ genreFilters (shell (ui_after (loadMeta_render serve) u))
     = filter_chips
         (CurrentFilter.genre (currentFilter (app (after (loadMeta serve) (world u)))))
         (take 12 (allGenres (app (after (loadMeta serve) (world u)))))
  /\ confirmHidden (shell (ui_after (loadMeta_render serve) u)) = confirmHidden (shell u)
  /\ detailOpen (shell (ui_after (loadMeta_render serve) u)) = detailOpen (shell u)
  /\ detailGame (shell (ui_after (loadMeta_render serve) u)) = detailGame (shell u)
  /\ franchiseList (shell (ui_after (loadMeta_render serve) u))
     = allFranchises (app (after (loadMeta serve) (world u)))
  /\ platformList (shell (ui_after (loadMeta_render serve) u))
     = allPlatforms (app (after (loadMeta serve) (world u)))
  /\ genreList (shell (ui_after (loadMeta_render serve) u))
     = allGenres (app (after (loadMeta serve) (world u)))
  /\ statsViewActive (shell (ui_after (loadMeta_render serve) u))
     = statsViewActive (shell u)
  /\ confirmGameTitle (shell (ui_after (loadMeta_render serve) u))
     = confirmGameTitle (shell u).
Proof.
  unfold loadMeta_render, renderPlatformFilters, renderGenreFilters, populateDataLists.
  unfold ui_after, ui_events, mbind, U_bind, lift, update_shell, get_app, after, events.
  destruct (loadMeta serve (world u)) as [[x w1] l]. simpl.
  now rewrite !app_nil_r.
Qed.


Lemma refresh_render_world {B : Type} (serve : Backend B) (u : Ui B)
    (reloadMeta : bool) :
  world (ui_after (refresh_render serve reloadMeta) u)
  = after (refresh serve reloadMeta) (world u)
  /\ ui_events (refresh_render serve reloadMeta) u
     = events (refresh serve reloadMeta) (world u)
  /\ confirmHidden (shell (ui_after (refresh_render serve reloadMeta) u))
     = confirmHidden (shell u)
  /\ detailOpen (shell (ui_after (refresh_render serve reloadMeta) u))
     = detailOpen (shell u)
  /\ detailGame (shell (ui_after (refresh_render serve reloadMeta) u))
     = detailGame (shell u).
Proof.
  unfold refresh_render, refresh.
  rewrite !ui_after_bind, !ui_events_bind, !after_bind, !events_bind,
    !lift_after, !lift_events.
  cbn [world shell].
  destruct reloadMeta.
  - set (u2 := mkUi (after renderGames (after (loadGames serve) (world u))) (shell u)).
    destruct (loadMeta_render_world serve u2) as (-> & -> & _ & _ & -> & -> & -> & _).
    repeat split.
  - repeat split.
Qed.

(* ===================================================================== *)
(** ** Delete *)
(* ===================================================================== *)

Lemma promptDelete_found {B : Type} (u : Ui B) (id : Z) (game : Game.t) :
  List.find (fun g => Z.eqb (Game.id g) id) (games (app (world u))) = Some game ->
  ui_after (promptDelete id) u
  = mkUi (mkWorld (set_pendingDeleteId (Some id) (app (world u))) (page (world u))
            (backend (world u)))
         (set_confirmHidden false (set_confirmGameTitle (Game.title game) (shell u)))
  /\ ui_events (promptDelete id) u = [].
Proof.
  intros Hf. unfold promptDelete.
  unfold ui_after, ui_events, mbind, U_bind, lift, update_shell, get_app, update_app.
  simpl. now rewrite Hf.
Qed.

Lemma promptDelete_missing {B : Type} (u : Ui B) (id : Z) :
  List.find (fun g => Z.eqb (Game.id g) id) (games (app (world u))) = None ->
  ui_after (promptDelete id) u = u /\ ui_events (promptDelete id) u = [].
Proof.
  intros Hf. unfold promptDelete.
  unfold ui_after, ui_events, mbind, U_bind, lift, update_shell, get_app, update_app.
  simpl. rewrite Hf. now destruct u as [[? ? ?] ?].
Qed.

Lemma confirmDelete_idle {B : Type} (serve : Backend B) (u : Ui B) :
  truthy_id (pendingDeleteId (app (world u))) = None ->
  ui_after (confirmDelete_click serve) u = u
  /\ ui_events (confirmDelete_click serve) u = [].
Proof.
  intros Hp. unfold confirmDelete_click.
  unfold ui_after, ui_events, mbind, U_bind, lift, get_app.
  simpl. rewrite Hp. simpl. now destruct u as [[? ? ?] ?].
Qed.

Lemma confirmDelete_rejected {B : Type} (serve : Backend B) (u : Ui B)
    (id : Z) (e : string) (b' : B) :
  truthy_id (pendingDeleteId (app (world u))) = Some id ->
  serve unit (DeleteGame id) (backend (world u)) = (Err e, b') ->
  ui_after (confirmDelete_click serve) u
  = mkUi (mkWorld (app (world u)) (page (world u)) b') (shell u)
  /\ ui_events (confirmDelete_click serve) u
     = [ EInvoke (DeleteGame id); EConsoleError "delete failed:" e;
         EToast "Failed to delete game" "error" ].
Proof.
  intros Hp Hs. unfold confirmDelete_click.
  unfold ui_after, ui_events, mbind, U_bind, lift, get_app, invoke, console_error,
    showToast, emit.
  simpl. rewrite Hp. simpl. now rewrite Hs.
Qed.

Lemma confirmDelete_resolved {B : Type} (serve : Backend B) (u : Ui B)
    (id : Z) (b' : B) :
  truthy_id (pendingDeleteId (app (world u))) = Some id ->
  serve unit (DeleteGame id) (backend (world u)) = (Ok tt, b') ->
  ui_after (confirmDelete_click serve) u
  = ui_after (refresh_render serve true)
      (mkUi (mkWorld (set_pendingDeleteId None (app (world u))) (page (world u)) b')
            (set_confirmHidden true (shell u)))
  /\ ui_events (confirmDelete_click serve) u
     = (EInvoke (DeleteGame id) :: EToast "Game deleted" "info"
        :: ui_events (refresh_render serve true)
             (mkUi (mkWorld (set_pendingDeleteId None (app (world u))) (page (world u)) b')
                   (set_confirmHidden true (shell u)))).
Proof.
  intros Hp Hs. unfold confirmDelete_click.
  unfold ui_after, ui_events, mbind, U_bind, lift, get_app, invoke, showToast, emit,
    update_shell, update_app.
  simpl. rewrite Hp. simpl. rewrite Hs. simpl.
  now destruct (refresh_render serve true _) as [[x u2] l].
Qed.

Lemma refresh_deletes_nothing {B : Type} (serve : Backend B) (w : World B)
    (reloadMeta : bool) :
  omap deleted_id (events (refresh serve reloadMeta) w) = [].
Proof.
  unfold refresh. rewrite !events_bind, !omap_app.
  assert (Hl : forall w', omap deleted_id (events (loadGames serve) w') = []).
  { intros w'. unfold loadGames. run_handler. next_call. now destruct r. }
  assert (Hm : forall w', omap deleted_id (events (loadMeta serve) w') = []).
  { intros w'. unfold loadMeta. run_handler. do 3 next_call.
    now destruct r as [?|?], r0 as [?|?], r1 as [?|?]. }
  rewrite Hl.
  destruct (renderGames_displayed (after (loadGames serve) w)) as (_ & _ & _ & ->).
  destruct reloadMeta; [now rewrite Hm|reflexivity].
Qed.

(** X19: prompting for a listed game with a non-zero id records that id
    and shows the dialog with the game's title; confirming then calls
    [delete_game] once, with that id. When the call rejects, the dialog
    stays open on the same id (so confirming again retries the same
    delete), with a console entry and the failure toast and no refresh.
    When it resolves, the dialog is hidden, the id is forgotten, the info
    toast is shown and one refresh with the metadata follows. *)
Theorem delete_flow {B : Type} (serve : Backend B) (u : Ui B)
    (id : Z) (game : Game.t) :
  id ≠ 0%Z ->
  List.find (fun g => Z.eqb (Game.id g) id) (games (app (world u))) = Some game ->
  pendingDeleteId (app (world (ui_after (promptDelete id) u))) = Some id
  /\ confirmHidden (shell (ui_after (promptDelete id) u)) = false
  /\ confirmGameTitle (shell (ui_after (promptDelete id) u)) = Game.title game
  /\ omap deleted_id
       (ui_events (confirmDelete_click serve) (ui_after (promptDelete id) u))
     = [id]
  /\ (forall e b',
        serve unit (DeleteGame id) (backend (world u)) = (Err e, b') ->
        pendingDeleteId
          (app (world (ui_after (promptDelete id;; confirmDelete_click serve) u)))
        = Some id
        /\ confirmHidden
             (shell (ui_after (promptDelete id;; confirmDelete_click serve) u))
           = false
        /\ games (app (world (ui_after (promptDelete id;; confirmDelete_click serve) u)))
           = games (app (world u))
        /\ ui_events (promptDelete id;; confirmDelete_click serve) u
           = [ EInvoke (DeleteGame id); EConsoleError "delete failed:" e;
               EToast "Failed to delete game" "error" ])
  /\ (forall b',
        serve unit (DeleteGame id) (backend (world u)) = (Ok tt, b') ->
        pendingDeleteId
          (app (world (ui_after (promptDelete id;; confirmDelete_click serve) u)))
        = None
        /\ confirmHidden
             (shell (ui_after (promptDelete id;; confirmDelete_click serve) u))
           = true
        /\ omap call_name (ui_events (promptDelete id;; confirmDelete_click serve) u)
           = [ "delete_game"; "search_games"; "get_platforms"; "get_franchises";
               "get_genres" ]
        /\ head (omap toast (ui_events (promptDelete id;; confirmDelete_click serve) u))
           = Some ("Game deleted", "info")).
Proof.
  intros Hid Hf. destruct (promptDelete_found u id game Hf) as [Hu He].
  set (u1 := ui_after (promptDelete id) u) in *.
  assert (Hp : truthy_id (pendingDeleteId (app (world u1))) = Some id).
  { rewrite Hu. simpl. apply Z.eqb_neq in Hid. now rewrite Hid. }
  assert (Hb : backend (world u1) = backend (world u)) by now rewrite Hu.
  split; [now rewrite Hu|]. split; [now rewrite Hu|]. split; [now rewrite Hu|].
  split.
  { destruct (serve unit (DeleteGame id) (backend (world u1))) as [[[]|e] b'] eqn:Hs.
    - destruct (confirmDelete_resolved serve u1 id b' Hp Hs) as [_ ->].
      destruct (refresh_render_world serve
        (mkUi (mkWorld (set_pendingDeleteId None (app (world u1))) (page (world u1)) b')
              (set_confirmHidden true (shell u1))) true) as (_ & -> & _).
      cbn [omap list_omap deleted_id]. f_equal. apply refresh_deletes_nothing.
    - now destruct (confirmDelete_rejected serve u1 id e b' Hp Hs) as [_ ->]. }
  split.
  - intros e b' Hs. rewrite <- Hb in Hs.
    rewrite ui_after_bind, ui_events_bind, He. fold u1.
    destruct (confirmDelete_rejected serve u1 id e b' Hp Hs) as [-> ->].
    rewrite Hu. repeat split.
  - intros b' Hs. rewrite <- Hb in Hs.
    rewrite ui_after_bind, ui_events_bind, He. fold u1.
    destruct (confirmDelete_resolved serve u1 id b' Hp Hs) as [-> ->].
    set (u2 := mkUi (mkWorld (set_pendingDeleteId None (app (world u1))) (page (world u1)) b')
                 (set_confirmHidden true (shell u1))).
    destruct (refresh_render_world serve u2 true) as (-> & -> & -> & _).
    destruct (refresh_app serve (world u2) true) as (gs & ps & fs & ags & ->).
    split; [reflexivity|]. split; [reflexivity|].
    cbn [Datatypes.app omap list_omap call_name toast head].
    split; [|reflexivity]. f_equal.
    unfold refresh. rewrite !events_bind, !omap_app.
    assert (Hlg : forall w', omap call_name (events (loadGames serve) w') = ["search_games"]).
    { intros w'. unfold loadGames. run_handler. next_call. now destruct r. }
    assert (Hlm : forall w', omap call_name (events (loadMeta serve) w')
                  = ["get_platforms"; "get_franchises"; "get_genres"]).
    { intros w'. unfold loadMeta. run_handler. do 3 next_call.
      now destruct r as [?|?], r0 as [?|?], r1 as [?|?]. }
    rewrite Hlg, Hlm.
    match goal with |- context [events renderGames ?w'] =>
      destruct (renderGames_displayed w') as (_ & _ & _ & ->) end.
    reflexivity.
Qed.

Lemma delete_flow_witness :
  pendingDeleteId (app (world (ui_after (promptDelete 7) sample_ui))) = Some 7%Z
  /\ confirmHidden (shell (ui_after (promptDelete 7) sample_ui)) = false
  /\ confirmGameTitle (shell (ui_after (promptDelete 7) sample_ui)) = "Hollow Knight"
  /\ omap deleted_id
       (ui_events (confirmDelete_click listing_backend)
          (ui_after (promptDelete 7) sample_ui))
     = [7%Z]
  /\ pendingDeleteId
       (app (world (ui_after (promptDelete 7;; confirmDelete_click listing_backend)
                      sample_ui)))
     = None
  /\ confirmHidden
       (shell (ui_after (promptDelete 7;; confirmDelete_click listing_backend) sample_ui))
     = true
  /\ omap call_name
       (ui_events (promptDelete 7;; confirmDelete_click listing_backend) sample_ui)
     = [ "delete_game"; "search_games"; "get_platforms"; "get_franchises";
         "get_genres" ]
  /\ head (omap toast
             (ui_events (promptDelete 7;; confirmDelete_click listing_backend) sample_ui))
     = Some ("Game deleted", "info").
Proof.
  destruct (delete_flow listing_backend sample_ui 7 sample_game)
    as (H1 & H2 & H3 & H4 & _ & H6).
  - discriminate.
  - reflexivity.
  - exact (conj H1 (conj H2 (conj H3 (conj H4 (H6 [playing_game] eq_refl))))).
Defined.

Lemma confirmCancel_click_after {B : Type} (u : Ui B) :
  ui_after confirmCancel_click u
  = mkUi (mkWorld (set_pendingDeleteId None (app (world u))) (page (world u))
            (backend (world u)))
         (set_confirmHidden true (shell u))
  /\ ui_events (@confirmCancel_click B) u = [].
Proof. now split. Qed.

(** X20: the confirm button does nothing at all, no call and no change of
    the page, unless a delete is pending. Nothing is pending after Cancel,
    so Cancel followed by the confirm button issues no call. The pending id
    is tested for truthiness: a prompt for a listed game whose id is 0
    shows the dialog, and the confirm button then neither deletes nor hides
    it. *)
Theorem confirmDelete_needs_pending {B : Type} (serve : Backend B) (u : Ui B) :
  (truthy_id (pendingDeleteId (app (world u))) = None ->
   ui_after (confirmDelete_click serve) u = u
   /\ ui_events (confirmDelete_click serve) u = [])
  /\ (ui_events (confirmCancel_click;; confirmDelete_click serve) u = []
      /\ pendingDeleteId
           (app (world (ui_after (confirmCancel_click;; confirmDelete_click serve) u)))
         = None
      /\ confirmHidden
           (shell (ui_after (confirmCancel_click;; confirmDelete_click serve) u))
         = true)
  /\ (forall game,
        List.find (fun g => Z.eqb (Game.id g) 0) (games (app (world u))) = Some game ->
        ui_events (promptDelete 0;; confirmDelete_click serve) u = []
        /\ pendingDeleteId
             (app (world (ui_after (promptDelete 0;; confirmDelete_click serve) u)))
           = Some 0%Z
        /\ confirmHidden
             (shell (ui_after (promptDelete 0;; confirmDelete_click serve) u))
           = false).
Proof.
  split; [apply confirmDelete_idle|]. split.
  - rewrite ui_after_bind, ui_events_bind.
    destruct (confirmCancel_click_after u) as [-> ->].
    match goal with |- context [ui_events (confirmDelete_click serve) ?u1] =>
      destruct (confirmDelete_idle serve u1) as [-> ->]; [reflexivity|] end.
    now repeat split.
  - intros game Hf. rewrite ui_after_bind, ui_events_bind.
    destruct (promptDelete_found u 0 game Hf) as [-> ->].
    match goal with |- context [ui_events (confirmDelete_click serve) ?u1] =>
      destruct (confirmDelete_idle serve u1) as [-> ->]; [reflexivity|] end.
    now repeat split.
Qed.

(* ===================================================================== *)
(** ** Detail panel and the Escape key *)
(* ===================================================================== *)

Lemma openDetail_found {B : Type} (u : Ui B) (id : Z) (game : Game.t) :
  List.find (fun g => Z.eqb (Game.id g) id) (games (app (world u))) = Some game ->
  ui_after (openDetail id) u
  = mkUi (mkWorld (set_selectedGameId (Some id) (app (world u))) (page (world u))
            (backend (world u)))
         (set_detailOpen true (set_detailGame (Some game) (shell u)))
  /\ ui_events (openDetail id) u = [].
Proof.
  intros Hf. unfold openDetail.
  unfold ui_after, ui_events, mbind, U_bind, lift, update_shell, get_app, update_app.
  simpl. now rewrite Hf.
Qed.

Lemma openDetail_missing {B : Type} (u : Ui B) (id : Z) :
  List.find (fun g => Z.eqb (Game.id g) id) (games (app (world u))) = None ->
  ui_after (openDetail id) u = u /\ ui_events (openDetail id) u = [].
Proof.
  intros Hf. unfold openDetail.
  unfold ui_after, ui_events, mbind, U_bind, lift, update_shell, get_app, update_app.
  simpl. rewrite Hf. now destruct u as [[? ? ?] ?].
Qed.

Lemma closeDetail_after {B : Type} (u : Ui B) :
  ui_after closeDetail u
  = mkUi (mkWorld (set_selectedGameId None (app (world u))) (page (world u))
            (backend (world u)))
         (set_detailOpen false (shell u))
  /\ ui_events (@closeDetail B) u = [].
Proof. now split. Qed.

(** X21: [openDetail] shows the first game of [state.games] that has the
    id and selects it, with no call to the backend; for an id that no
    listed game has it changes nothing, so a panel that is open keeps
    showing the game it showed. Closing the panel clears the selection and
    leaves the rendered content in place. *)
Theorem openDetail_shows_listed_game {B : Type} (u : Ui B) (id : Z) :
  ui_events (openDetail id) u = []
  /\ (forall game,
        List.find (fun g => Z.eqb (Game.id g) id) (games (app (world u))) = Some game ->
        game ∈ games (app (world u))
        /\ Game.id game = id
        /\ detailGame (shell (ui_after (openDetail id) u)) = Some game
        /\ detailOpen (shell (ui_after (openDetail id) u)) = true
        /\ selectedGameId (app (world (ui_after (openDetail id) u))) = Some id
        /\ detailOpen (shell (ui_after (openDetail id;; closeDetail) u)) = false
        /\ selectedGameId (app (world (ui_after (openDetail id;; closeDetail) u))) = None
        /\ detailGame (shell (ui_after (openDetail id;; closeDetail) u)) = Some game)
  /\ ((forall g, g ∈ games (app (world u)) -> Game.id g ≠ id) ->
      ui_after (openDetail id) u = u).
Proof.
  destruct (List.find (fun g => Z.eqb (Game.id g) id) (games (app (world u))))
    as [game|] eqn:Hf.
  - destruct (openDetail_found u id game Hf) as [Hu He].
    split; [exact He|]. split.
    + intros game' [= <-].
      apply find_some in Hf as [Hin Hid]. apply Z.eqb_eq in Hid.
      split; [now apply list_elem_of_In|]. split; [exact Hid|].
      rewrite ui_after_bind, Hu. now repeat split.
    + intros Hno. apply find_some in Hf as [Hin Hid]. apply Z.eqb_eq in Hid.
      apply list_elem_of_In in Hin. now destruct (Hno game Hin).
  - destruct (openDetail_missing u id Hf) as [Hu He].
    split; [exact He|]. split; [discriminate|]. now intros _.
Qed.

Lemma escape_keydown_after {B : Type} (u : Ui B) :
  ui_after escape_keydown u
  = mkUi (mkWorld (set_editingGameId None (set_selectedGameId None (app (world u))))
            (set_modalOpen false (page (world u))) (backend (world u)))
         (set_confirmHidden true (set_detailOpen false (shell u)))
  /\ ui_events (@escape_keydown B) u = [].
Proof. now split. Qed.

(** X22: Escape closes the detail panel, the modal and the delete dialog
    without a call to the backend and without touching the games, the
    filter or the form. Unlike Cancel it does not forget the pending id:
    after a prompt for a listed game with a non-zero id, the listener of
    the confirm button still deletes that game once Escape has hidden the
    dialog, and deletes nothing once Cancel has. *)
Theorem escape_keeps_pending_delete {B : Type} (serve : Backend B) (u : Ui B) :
  (ui_events (@escape_keydown B) u = []
   /\ detailOpen (shell (ui_after escape_keydown u)) = false
   /\ modalOpen (page (world (ui_after escape_keydown u))) = false
   /\ confirmHidden (shell (ui_after escape_keydown u)) = true
   /\ selectedGameId (app (world (ui_after escape_keydown u))) = None
   /\ editingGameId (app (world (ui_after escape_keydown u))) = None
   /\ pendingDeleteId (app (world (ui_after escape_keydown u)))
      = pendingDeleteId (app (world u))
   /\ games (app (world (ui_after escape_keydown u))) = games (app (world u))
   /\ currentFilter (app (world (ui_after escape_keydown u)))
      = currentFilter (app (world u))
   /\ form (page (world (ui_after escape_keydown u))) = form (page (world u))
   /\ gameGrid (page (world (ui_after escape_keydown u))) = gameGrid (page (world u)))
  /\ (forall id game,
        id ≠ 0%Z ->
        List.find (fun g => Z.eqb (Game.id g) id) (games (app (world u))) = Some game ->
        omap deleted_id
          (ui_events (promptDelete id;; escape_keydown;; confirmDelete_click serve) u)
        = [id]
        /\ omap deleted_id
             (ui_events (promptDelete id;; confirmCancel_click;;
                         confirmDelete_click serve) u)
           = []).
Proof.
  split.
  - destruct (escape_keydown_after u) as [-> ->]. now repeat split.
  - intros id game Hid Hf.
    rewrite !ui_events_bind, ?ui_after_bind.
    destruct (promptDelete_found u id game Hf) as [Hu ->].
    set (u1 := ui_after (promptDelete id) u) in *.
    split.
    + destruct (escape_keydown_after u1) as [-> ->].
      set (u2 := mkUi _ _).
      assert (Hf2 : List.find (fun g => Z.eqb (Game.id g) id) (games (app (world u2)))
                    = Some game) by (unfold u2; now rewrite Hu).
      assert (Hp : truthy_id (pendingDeleteId (app (world u2))) = Some id).
      { unfold u2. rewrite Hu. simpl. apply Z.eqb_neq in Hid. now rewrite Hid. }
      cbn [Datatypes.app].
      destruct (serve unit (DeleteGame id) (backend (world u2))) as [[[]|e] b'] eqn:Hs.
      * destruct (confirmDelete_resolved serve u2 id b' Hp Hs) as [_ ->].
        match goal with |- context [ui_events (refresh_render serve true) ?u3] =>
          destruct (refresh_render_world serve u3 true) as (_ & -> & _) end.
        cbn [omap list_omap deleted_id]. f_equal.
        apply refresh_deletes_nothing.
      * now destruct (confirmDelete_rejected serve u2 id e b' Hp Hs) as [_ ->].
    + destruct (confirmCancel_click_after u1) as [-> ->].
      match goal with |- context [ui_events (confirmDelete_click serve) ?u2] =>
        destruct (confirmDelete_idle serve u2) as [_ ->]; [reflexivity|] end.
      reflexivity.
Qed.

(* ===================================================================== *)
(** ** What no sequence of actions changes *)
(* ===================================================================== *)

Lemma steady_trans {B : Type} (w w1 w2 : World B) (l1 l2 : list Event) :
  steady w w1 l1 -> steady w1 w2 l2 -> steady w w2 (l1 ++ l2)%list.
Proof.
  intros (Ha & Hf & Hs & Hg) (Ha' & Hf' & Hs' & Hg').
  split; [congruence|]. split; [congruence|]. split; [|tauto].
  intros F. rewrite omap_app, elem_of_app. intros [HF|HF].
  - now apply Hs.
  - destruct (Hs' F HF) as [-> ->]. now rewrite Ha, Hf.
Qed.

Lemma steady_local {B : Type} (w w' : World B) (evs : list Event) :
  currentFilter (app w') = currentFilter (app w) ->
  games (app w') = games (app w) ->
  gameGrid (page w') = gameGrid (page w) ->
  omap search_filter evs = [] ->
  steady w w' evs.
Proof.
  intros Hc Hg Hp He. unfold steady, grid_listed.
  rewrite Hc, Hg, Hp, He.
  split; [reflexivity|]. split; [reflexivity|]. split; [|auto].
  intros F HF. now apply elem_of_nil in HF.
Qed.

Lemma steadyM_ret {B A : Type} (a : A) : steadyM (mret a : M B A).
Proof. intros w. now apply steady_local. Qed.

Lemma steadyM_bind {B A C : Type} (m : M B A) (k : A -> M B C) :
  steadyM m -> (forall a, steadyM (k a)) -> steadyM (m ≫= k).
Proof.
  intros Hm Hk w. rewrite after_bind, events_bind.
  eapply steady_trans; [apply Hm|apply Hk].
Qed.

Lemma steadyM_get_app {B : Type} : steadyM (@get_app B).
Proof. intros w. now apply steady_local. Qed.

Lemma steadyM_get_page {B : Type} : steadyM (@get_page B).
Proof. intros w. now apply steady_local. Qed.

Lemma steadyM_update_app {B : Type} (f : State -> State) :
  (forall st, CurrentFilter.sortAsc (currentFilter (f st))
              = CurrentFilter.sortAsc (currentFilter st)
              /\ CurrentFilter.franchise (currentFilter (f st))
                 = CurrentFilter.franchise (currentFilter st)
              /\ games (f st) = games st) ->
  steadyM (update_app f : M B unit).
Proof.
  intros Hf w. destruct (Hf (app w)) as (Ha & Hr & Hg).
  unfold steady, grid_listed. run_handler. rewrite Ha, Hr, Hg.
  split; [reflexivity|]. split; [reflexivity|]. split; [|auto].
  intros F HF. now apply elem_of_nil in HF.
Qed.

Lemma steadyM_update_page {B : Type} (f : Page -> Page) :
  (forall p, gameGrid (f p) = gameGrid p) ->
  steadyM (update_page f : M B unit).
Proof.
  intros Hf w. apply steady_local; try reflexivity. run_handler. apply Hf.
Qed.

Lemma steadyM_emit {B : Type} (e : Event) :
  search_filter e = None -> steadyM (emit e : M B unit).
Proof.
  intros He w. apply steady_local; try reflexivity. run_handler. now rewrite He.
Qed.

Lemma steadyM_invoke {B A : Type} (serve : Backend B) (c : Command A) :
  search_filter (EInvoke c) = None -> steadyM (invoke serve c).
Proof.
  intros He w. rewrite events_invoke.
  apply steady_local.
  - unfold after, invoke. now destruct (serve A c (backend w)).
  - unfold after, invoke. now destruct (serve A c (backend w)).
  - unfold after, invoke. now destruct (serve A c (backend w)).
  - cbn [omap list_omap]. now rewrite He.
Qed.

Lemma view_games_listed (view : string) (gs : list Game.t) (g : Game.t) :
  g ∈ view_games view gs -> g ∈ gs.
Proof.
  unfold view_games.
  repeat case_bool_decide; rewrite ?list_elem_of_filter; tauto.
Qed.

Lemma displayed_listed {B : Type} (w : World B) (view : string) :
  displayed_games (page w) = view_games view (games (app w)) -> grid_listed w.
Proof.
  intros Hd c Hc. apply (view_games_listed view). rewrite <- Hd.
  unfold displayed_games. now apply list_elem_of_fmap_2.
Qed.

Lemma steadyM_renderGames {B : Type} : steadyM (@renderGames B).
Proof.
  intros w. destruct (renderGames_displayed w) as (Hd & _ & Ha & He).
  unfold steady. rewrite Ha, He.
  split; [reflexivity|]. split; [reflexivity|].
  split; [intros F HF; now apply elem_of_nil in HF|].
  intros _. apply (displayed_listed _ (activeView (app w))). now rewrite Ha.
Qed.

Lemma steadyM_refresh {B : Type} (serve : Backend B) (reloadMeta : bool) :
  steadyM (refresh serve reloadMeta).
Proof.
  intros w.
  destruct (refresh_app serve w reloadMeta) as (gs & ps & fs & ags & Ha).
  unfold steady. rewrite Ha, refresh_searches.
  split; [reflexivity|]. split; [reflexivity|]. split.
  - intros F HF. apply list_elem_of_singleton in HF. now subst F.
  - intros _. apply (displayed_listed _ (activeView (app (after (loadGames serve) w)))).
    rewrite refresh_page, refresh_games.
    now destruct (renderGames_displayed (after (loadGames serve) w)) as (-> & _).
Qed.

(** Resolves steadiness of a handler built from the steps above. *)
Ltac steady_step :=
  first
    [ apply steadyM_ret
    | apply steadyM_get_app
    | apply steadyM_get_page
    | apply steadyM_refresh
    | apply steadyM_renderGames
    | apply steadyM_update_app; intros st; now repeat split
    | apply steadyM_update_page; intros p; reflexivity
    | apply steadyM_emit; reflexivity
    | apply steadyM_invoke; reflexivity
    | apply steadyM_bind; [|intros ?] ].

Ltac steady_handler :=
  repeat first
    [ steady_step
    | match goal with
      | |- steadyM (if ?b then _ else _) => destruct b
      | |- steadyM (match ?x with _ => _ end) => destruct x
      end ].

Lemma steadyM_showToast {B : Type} (msg kind : string) :
  steadyM (showToast msg kind : M B unit).
Proof. unfold showToast. steady_handler. Qed.

Lemma steadyM_console_error {B : Type} (msg detail : string) :
  steadyM (console_error msg detail : M B unit).
Proof. unfold console_error. steady_handler. Qed.

Lemma steadyM_renderStats {B : Type} (serve : Backend B) : steadyM (renderStats serve).
Proof.
  unfold renderStats, console_error. steady_handler.
Qed.

Lemma steadyM_renderFormGenres {B : Type} : steadyM (@renderFormGenres B).
Proof. unfold renderFormGenres. steady_handler. Qed.

Lemma steadyM_closeModal {B : Type} : steadyM (@closeModal B).
Proof. unfold closeModal. steady_handler. Qed.

Lemma steadyM_openModal {B : Type} (id : option Z) : steadyM (@openModal B id).
Proof. unfold openModal, renderFormGenres. steady_handler. Qed.

Lemma steadyM_form_action {B : Type} (a : FormAction) : steadyM (@form_action B a).
Proof.
  destruct a; unfold form_action, genreInput_keydown, tag_remove_click,
    statusPicker_click, renderFormGenres; steady_handler.
Qed.

Lemma steadyM_gameForm_submit {B : Type} (serve : Backend B) :
  steadyM (gameForm_submit serve).
Proof.
  unfold gameForm_submit, process_cover, save_failed, closeModal, showToast,
    console_error.
  steady_handler.
Qed.

Lemma steadyM_controls {B : Type} (serve : Backend B) :
  (forall value, steadyM (searchInput_fire serve value))
  /\ (forall value, steadyM (sortSelect_change serve value))
  /\ (forall chip, steadyM (statusFilters_click serve chip))
  /\ steadyM (@gridViewBtn_click B)
  /\ steadyM (@listViewBtn_click B)
  /\ (forall star, steadyM (@starRating_click B star))
  /\ steadyM (@loadUrlBtn_click B)
  /\ (forall selected, steadyM (@coverDrop_click B selected))
  /\ (forall file, steadyM (@coverDrop_drop B file)).
Proof.
  split; [|split; [|split; [|split; [|split; [|split; [|split; [|split]]]]]]];
    intros;
    unfold searchInput_fire, sortSelect_change, statusFilters_click,
      gridViewBtn_click, listViewBtn_click, starRating_click, loadUrlBtn_click,
      coverDrop_click, coverDrop_drop, showToast, console_error;
    steady_handler.
Qed.

Lemma steadyU_ret {B A : Type} (a : A) : steadyU (mret a : U B A).
Proof. intros u. now apply steady_local. Qed.

Lemma steadyU_bind {B A C : Type} (m : U B A) (k : A -> U B C) :
  steadyU m -> (forall a, steadyU (k a)) -> steadyU (m ≫= k).
Proof.
  intros Hm Hk u. rewrite ui_after_bind, ui_events_bind.
  eapply steady_trans; [apply Hm|apply Hk].
Qed.

Lemma steadyU_lift {B A : Type} (m : M B A) : steadyM m -> steadyU (lift m).
Proof. intros Hm u. rewrite lift_after, lift_events. apply Hm. Qed.

Lemma steadyU_get_shell {B : Type} : steadyU (@get_shell B).
Proof. intros u. now apply steady_local. Qed.

Lemma steadyU_update_shell {B : Type} (f : Shell -> Shell) :
  steadyU (update_shell f : U B unit).
Proof. intros u. now apply steady_local. Qed.

Ltac steady_desk_step :=
  first
    [ apply steadyU_ret
    | apply steadyU_get_shell
    | apply steadyU_update_shell
    | apply steadyU_lift; solve [steady_handler]
    | apply steadyU_bind; [|intros ?]
    | match goal with
      | |- steadyU (if ?b then _ else _) => destruct b
      | |- steadyU (match ?x with _ => _ end) => destruct x
      end ].

Ltac steady_desk := repeat steady_desk_step.

Lemma steadyU_refresh_render {B : Type} (serve : Backend B) (reloadMeta : bool) :
  steadyU (refresh_render serve reloadMeta).
Proof.
  intros u. destruct (refresh_render_world serve u reloadMeta) as (-> & -> & _).
  apply steadyM_refresh.
Qed.

Lemma steadyU_promptDelete {B : Type} (id : Z) : steadyU (@promptDelete B id).
Proof. unfold promptDelete. steady_desk. Qed.

Lemma steadyU_openDetail {B : Type} (id : Z) : steadyU (@openDetail B id).
Proof. unfold openDetail. steady_desk. Qed.

Lemma steadyU_closeDetail {B : Type} : steadyU (@closeDetail B).
Proof. unfold closeDetail. steady_desk. Qed.

Lemma steadyU_ui_action {B : Type} (serve : Backend B) (a : UiAction) :
  steadyU (ui_action serve a).
Proof.
  destruct (steadyM_controls serve)
    as (Hsearch & Hsort & Hstatus & Hgrid & Hlist & Hstar & Hurl & Hpick & Hdrop).
  destruct a; unfold ui_action;
    try (apply steadyU_lift;
         first [ apply Hsearch | apply Hsort | apply Hstatus | apply Hgrid
               | apply Hlist | apply Hstar | apply Hurl | apply Hpick | apply Hdrop
               | apply steadyM_openModal | apply steadyM_closeModal
               | apply steadyM_form_action ]);
    unfold platformChip_click, genreChip_click, navItem_click, detailEditBtn_click,
      detailDeleteBtn_click, gameForm_submit_render, confirmCancel_click,
      confirmDelete_click, escape_keydown, process_cover, save_failed, closeModal,
      showToast, console_error;
    repeat first
      [ apply steadyU_refresh_render
      | apply steadyU_closeDetail
      | apply steadyU_openDetail
      | apply steadyU_promptDelete
      | steady_desk_step ].
Qed.

Lemma steadyU_ui_actions {B : Type} (serve : Backend B) (l : list UiAction) :
  steadyU (ui_actions serve l).
Proof.
  induction l as [|a l IH]; simpl.
  - apply steadyU_ret.
  - apply steadyU_bind; [apply steadyU_ui_action|intros _; exact IH].
Qed.

(** X23: no sequence of actions on the page changes the direction of the
    sort or the franchise of [currentFilter]: both keep the values they
    had at the start, and every [search_games] call made on the way
    carries exactly these two. *)
Theorem sort_direction_never_changes {B : Type} (serve : Backend B)
    (l : list UiAction) (u : Ui B) :
  CurrentFilter.sortAsc
    (currentFilter (app (world (ui_after (ui_actions serve l) u))))
  = CurrentFilter.sortAsc (currentFilter (app (world u)))
  /\ CurrentFilter.franchise
       (currentFilter (app (world (ui_after (ui_actions serve l) u))))
     = CurrentFilter.franchise (currentFilter (app (world u)))
  /\ forall F,
       F ∈ omap search_filter (ui_events (ui_actions serve l) u) ->
       Filter.sort_asc F = CurrentFilter.sortAsc (currentFilter (app (world u)))
       /\ Filter.franchise F
          = Js.or_null (CurrentFilter.franchise (currentFilter (app (world u)))).
Proof.
  destruct (steadyU_ui_actions serve l u) as (Ha & Hf & Hs & _). auto.
Qed.



(* ===================================================================== *)
(** ** Boot *)
(* ===================================================================== *)

(** The two halves of [init_loads] are [loadGames] and [loadMeta] cut at
    their [await]. *)
Lemma loadGames_settled_eq {B : Type} (serve : Backend B) (w : World B) :
  loadGames serve w
  = (st ← get_app;
     r ← invoke serve (SearchGames (loadGames_filter (currentFilter st)));
     loadGames_settled r) w.
Proof. reflexivity. Qed.

Lemma loadMeta_settled_eq {B : Type} (serve : Backend B) (u : Ui B) :
  loadMeta_render serve u
  = (rp ← lift (invoke serve GetPlatforms);
     rf ← lift (invoke serve GetFranchises);
     rg ← lift (invoke serve GetGenres);
     loadMeta_settled rp rf rg) u.
Proof.
  unfold loadMeta_render, loadMeta, loadMeta_settled, renderPlatformFilters,
    renderGenreFilters.
  unfold mbind, U_bind, M_bind, lift, invoke, update_shell, get_app, update_app,
    console_error, emit.
  cbn [world shell backend app page fst snd].
  destruct (serve _ GetPlatforms (backend (world u))) as [rp b1].
  cbn [world shell backend app page fst snd].
  destruct (serve _ GetFranchises b1) as [rf b2].
  cbn [world shell backend app page fst snd].
  destruct (serve _ GetGenres b2) as [rg b3].
  cbn [world shell backend app page fst snd].
  destruct rp, rf, rg; reflexivity.
Qed.



(* ===================================================================== *)
(** ** Cover art, stored and shown *)
(* ===================================================================== *)

Lemma startsWith_prefix (s p : string) :
  Js.startsWith s p = true <-> exists rest, s = p ++ rest.
Proof.
  revert s. induction p as [|b p IH]; intros s.
  - split; [intros _; now exists s|intros _; now destruct s].
  - destruct s as [|a s].
    + split; [discriminate|]. intros (rest & H). discriminate H.
    + simpl. rewrite andb_true_iff, Ascii.eqb_eq, IH. split.
      * intros (-> & rest & ->). now exists rest.
      * intros (rest & H).
        change (String b p ++ rest) with (String b (p ++ rest)) in H.
        injection H as -> ->. eauto.
Qed.

Lemma is_remote_prefix (p : string) :
  is_remote p = true
  <-> (exists rest, p = "http://" ++ rest) \/ (exists rest, p = "https://" ++ rest).
Proof.
  unfold is_remote. now rewrite orb_true_iff, !startsWith_prefix.
Qed.

Lemma coverSrc_resolves (convertFileSrc : string -> string) (game : Game.t) :
  coverSrc convertFileSrc game
  = resolveCover convertFileSrc (Game.cover_art_path game).
Proof.
  unfold coverSrc. destruct (Game.cover_art_path game) as [p|]; [|reflexivity].
  now destruct p.
Qed.

Lemma openModal_games {B : Type} (w : World B) (id : option Z) :
  games (app (after (openModal id) w)) = games (app w).
Proof.
  unfold openModal, renderFormGenres. run_handler.
  destruct (truthy_id id) as [n|]; simpl; [|reflexivity].
  destruct (List.find _ _) as [game|]; simpl; [|reflexivity].
  destruct (_ && _); simpl; destruct (Game.rating game); reflexivity.
Qed.

(** C4: [resolveCover] returns null for an absent or empty path, the path
    itself exactly when it starts with "http://" or "https://", and
    [convertFileSrc path] otherwise (the host's [convertFileSrc] builds an
    asset URL around the path, so it never returns its argument). The
    resolved value is only shown: rendering the grid leaves [state.games]
    as it was, each card showing a stored game whose image source is the
    resolved form of the path the game still holds, and the edit form
    receives the stored path itself. *)
Theorem resolveCover_spec (convertFileSrc : string -> string) :
  (forall p, convertFileSrc p ≠ p) ->
  resolveCover convertFileSrc None = None
  /\ resolveCover convertFileSrc (Some "") = None
  /\ (forall p, p ≠ "" ->
        (resolveCover convertFileSrc (Some p) = Some p
         <-> (exists rest, p = "http://" ++ rest)
             \/ (exists rest, p = "https://" ++ rest))
        /\ ((forall rest, p ≠ "http://" ++ rest) ->
            (forall rest, p ≠ "https://" ++ rest) ->
            resolveCover convertFileSrc (Some p) = Some (convertFileSrc p)))
  /\ (forall (B : Type) (w : World B),
        games (app (after renderGames w)) = games (app w)
        /\ forall c, c ∈ gameGrid (page (after renderGames w)) ->
             card_game c ∈ games (app w)
             /\ coverSrc convertFileSrc (card_game c)
                = resolveCover convertFileSrc (Game.cover_art_path (card_game c)))
  /\ (forall (B : Type) (w : World B) (id : option Z) (game : Game.t),
        edited_game id (app w) = Some game ->
        f_cover_art_path (form (page (after (openModal id) w)))
        = Js.or_empty (Game.cover_art_path game)
        /\ games (app (after (openModal id) w)) = games (app w)).
Proof.
  intros Hconv. split; [reflexivity|]. split; [reflexivity|]. split; [|split].
  - intros p Hp. rewrite <- is_remote_prefix. unfold resolveCover.
    apply truthy_nonempty in Hp. rewrite Hp. simpl.
    destruct (is_remote p) eqn:Hr.
    + split; [now split|]. intros H1 H2.
      apply is_remote_prefix in Hr as [(rest & ->)|(rest & ->)];
        [now destruct (H1 rest)|now destruct (H2 rest)].
    + split; [|reflexivity]. split; [|discriminate].
      intros [= H]. now apply Hconv in H.
  - intros B w. destruct (renderGames_displayed w) as (Hd & _ & Ha & _).
    split; [now rewrite Ha|]. intros c Hc. split; [|apply coverSrc_resolves].
    apply (view_games_listed (activeView (app w))). rewrite <- Hd.
    unfold displayed_games. now apply list_elem_of_fmap_2.
  - intros B w id game Hgame. split; [|apply openModal_games].
    now rewrite openModal_form, Hgame.
Qed.

Lemma resolveCover_spec_witness :
  resolveCover asset_url None = None
  /\ resolveCover asset_url (Some "") = None
  /\ (forall p, p ≠ "" ->
        (resolveCover asset_url (Some p) = Some p
         <-> (exists rest, p = "http://" ++ rest)
             \/ (exists rest, p = "https://" ++ rest))
        /\ ((forall rest, p ≠ "http://" ++ rest) ->
            (forall rest, p ≠ "https://" ++ rest) ->
            resolveCover asset_url (Some p) = Some (asset_url p)))
  /\ (forall (B : Type) (w : World B),
        games (app (after renderGames w)) = games (app w)
        /\ forall c, c ∈ gameGrid (page (after renderGames w)) ->
             card_game c ∈ games (app w)
             /\ coverSrc asset_url (card_game c)
                = resolveCover asset_url (Game.cover_art_path (card_game c)))
  /\ (forall (B : Type) (w : World B) (id : option Z) (game : Game.t),
        edited_game id (app w) = Some game ->
        f_cover_art_path (form (page (after (openModal id) w)))
        = Js.or_empty (Game.cover_art_path game)
        /\ games (app (after (openModal id) w)) = games (app w)).
Proof. exact (resolveCover_spec asset_url asset_url_fresh). Defined.

Example coverSrc_samples :
  coverSrc asset_url playing_game = Some "https://img.example/celeste.png"
  /\ coverSrc asset_url sample_game = None
  /\ Game.cover_art_path playing_game = Some "https://img.example/celeste.png"
  /\ resolveCover asset_url (Some "http:/a.png") = Some "asset://localhost/http:/a.png"
  /\ resolveCover asset_url (Some "HTTP://a.png") = Some "asset://localhost/HTTP://a.png".
Proof. repeat split; reflexivity. Qed.
